(** * SlideForgeAI: the slide-editing state core

  A shallow embedding of the editor page of the SlideForgeAI web client
  (the [useHistory] hook, the slide handlers of [EditorPage], the
  [SlideBackground] preview, the export background branch and the
  content-refinement service call), with the properties of its
  specification stated and proved over it.

  Conventions of the embedding:
  - React state ([useState]) is explicit state passing: a handler is a
    function from the state of the render it was created in to the next
    state.
  - JavaScript strings are [string]s: sequences of code units below 256.
  - A JavaScript array is a [list] of positions, each a hole (left by a
    write past the end), the value [undefined], or an element.
  - An object built with spread syntax may lack keys that its TypeScript
    interface declares, so every key of a [Slide] is modelled by its
    presence ([Some]) or absence ([None]).
  - A thrown exception is the [Throw] result of the [Completion] type. *)

From Stdlib Require Import ZArith String Ascii Lia.
From stdpp Require Import base list strings pretty.

Open Scope string_scope.
Open Scope Z_scope.

(** ** JavaScript string built-ins used by the editor *)

Module JS.

(** The line feed character and the one-character string ['\n']. *)
Definition LF : ascii := "010"%char.
Definition newline : string := String LF EmptyString.

(** [s.startsWith(p)] *)
Definition startsWith (p s : string) : bool := String.prefix p s.

(** [s.endsWith(p)] *)
Definition endsWith (p s : string) : bool :=
  let n := String.length s in
  let k := String.length p in
  if (k <=? n)%nat then String.eqb (substring (n - k) k s) p else false.

(** [s.split(sep)] for a one-character separator: never the empty list,
    the empty string splits into one empty piece. *)
Fixpoint split (sep : ascii) (s : string) : list string :=
  match s with
  | EmptyString => [EmptyString]
  | String c s' =>
      if Ascii.eqb c sep then EmptyString :: split sep s'
      else match split sep s' with
           | x :: xs => String c x :: xs
           | [] => [String c EmptyString]
           end
  end.

(** [l.join(sep)] *)
Fixpoint join (sep : string) (l : list string) : string :=
  match l with
  | [] => EmptyString
  | [x] => x
  | x :: l' => x +:+ sep +:+ join sep l'
  end.

(** White space in the sense of [String.prototype.trim], among the code
    units below 256: TAB, LF, VT, FF, CR, SPACE and NO-BREAK SPACE. *)
Definition isWhiteSpace (c : ascii) : bool :=
  let n := N_of_ascii c in
  ((9 <=? n)%N && (n <=? 13)%N) || (n =? 32)%N || (n =? 160)%N.

Fixpoint trimStart (s : string) : string :=
  match s with
  | EmptyString => EmptyString
  | String c s' => if isWhiteSpace c then trimStart s' else s
  end.

Fixpoint trimEnd (s : string) : string :=
  match s with
  | EmptyString => EmptyString
  | String c s' =>
      match trimEnd s' with
      | EmptyString => if isWhiteSpace c then EmptyString else String c EmptyString
      | t => String c t
      end
  end.

(** [s.trim()] *)
Definition trim (s : string) : string := trimEnd (trimStart s).

(** [s.replace(c, '')] for a one-character pattern [c]: the first
    occurrence is removed. *)
Fixpoint removeFirst (c : ascii) (s : string) : string :=
  match s with
  | EmptyString => EmptyString
  | String d s' => if Ascii.eqb d c then s' else String d (removeFirst c s')
  end.

(** [l.replace(/^- /, '')] *)
Definition stripBulletMarker (l : string) : string :=
  match l with
  | String "-" (String " " rest) => rest
  | _ => l
  end.

(** The character class [[0-9a-fA-F]]. *)
Definition isHexDigit (c : ascii) : bool :=
  let n := N_of_ascii c in
  ((48 <=? n)%N && (n <=? 57)%N)
  || ((97 <=? n)%N && (n <=? 102)%N)
  || ((65 <=? n)%N && (n <=? 70)%N).

(** [[0-9a-fA-F]{n}] anchored at the head of [s]: the [n] digits. *)
Fixpoint hexDigits (n : nat) (s : string) : option string :=
  match n with
  | O => Some EmptyString
  | S n' =>
      match s with
      | EmptyString => None
      | String c s' =>
          if isHexDigit c
          then match hexDigits n' s' with
               | Some ds => Some (String c ds)
               | None => None
               end
          else None
      end
  end.

(** [s.match(/#[0-9a-fA-F]{6}/)]: the text of the leftmost match
    ([match[0]]), or [None] for JavaScript's [null]. *)
Fixpoint matchHexColor (s : string) : option string :=
  match s with
  | EmptyString => None
  | String c s' =>
      if Ascii.eqb c "#"
      then match hexDigits 6 s' with
           | Some ds => Some (String "#" ds)
           | None => matchHexColor s'
           end
      else matchHexColor s'
  end.

(** Every character of [s] satisfies [f]. *)
Fixpoint allChars (f : ascii -> bool) (s : string) : bool :=
  match s with
  | EmptyString => true
  | String c s' => f c && allChars f s'
  end.

(** A position of a JavaScript array: a hole (no element was ever
    stored there), the value [undefined], or an element. *)
Inductive Slot (A : Type) : Type :=
| Hole
| Undefined
| Elem (x : A).
Arguments Hole {A}.
Arguments Undefined {A}.
Arguments Elem {A} _.

(** What reading a position yields: [undefined] ([None]) or the element. *)
Definition slotValue {A} (s : Slot A) : option A :=
  match s with
  | Elem x => Some x
  | Hole | Undefined => None
  end.

(** The position a stored value occupies. *)
Definition toSlot {A} (v : option A) : Slot A :=
  match v with
  | Some x => Elem x
  | None => Undefined
  end.

(** Array element read [a[i]]: [undefined] out of range and at a hole. *)
Definition arrayGet {A} (a : list (Slot A)) (i : Z) : option A :=
  if i <? 0 then None else (a !! Z.to_nat i) ≫= slotValue.

(** Array element write [a[i] = v]: in range the element is replaced,
    past the end the array grows and the skipped positions are holes.
    A negative [i] names a plain property, not an element: the sequence
    of elements is unchanged. *)
Definition arraySet {A} (a : list (Slot A)) (i : Z) (v : option A) : list (Slot A) :=
  if i <? 0 then a
  else let n := Z.to_nat i in
       if (n <? length a)%nat then <[n := toSlot v]> a
       else a ++ replicate (n - length a) Hole ++ [toSlot v].

(** The copy [[...a]]: the iterator reads a hole as [undefined]. *)
Definition spreadCopy {A} (a : list (Slot A)) : list (Slot A) :=
  List.map (fun s => match s with
                     | Hole => Undefined
                     | _ => s
                     end) a.

(** [a.filter((_, i) => i !== index)], [from] being the position of the
    head of [a]: [filter] does not visit holes and does not copy them. *)
Fixpoint filterIndexNe {A} (index : Z) (from : Z) (a : list (Slot A)) : list (Slot A) :=
  match a with
  | [] => []
  | x :: a' =>
      match x with
      | Hole => filterIndexNe index (from + 1) a'
      | _ =>
          if from =? index then filterIndexNe index (from + 1) a'
          else x :: filterIndexNe index (from + 1) a'
      end
  end.

(** An array without holes. *)
Definition dense {A} (a : list (Slot A)) : bool :=
  forallb (fun s => match s with
                    | Hole => false
                    | _ => true
                    end) a.

End JS.

(** ** [JSON.stringify] on the values a snapshot is made of *)

Module JSON.

(** The JSON values that occur in a presentation snapshot: [null],
    strings, arrays and objects (an object is the sequence of its own
    enumerable properties, in key order). *)
#[local] Unset Elimination Schemes.
Inductive value : Type :=
| Null
| Str (s : string)
| Arr (elems : list value)
| Obj (props : list (string * value)).
#[local] Set Elimination Schemes.

(** The double-quote character. *)
Definition dquote : ascii := "034"%char.

Definition hexDigit (n : N) : ascii :=
  ascii_of_N (if (n <? 10)%N then 48 + n else 87 + n).

(** QuoteJSONString on one code unit below 256. *)
Definition escapeChar (c : ascii) : string :=
  let n := N_of_ascii c in
  if (n =? 34)%N then String "\" (String dquote EmptyString)
  else if (n =? 92)%N then "\\"
  else if (n =? 8)%N then "\b"
  else if (n =? 12)%N then "\f"
  else if (n =? 10)%N then "\n"
  else if (n =? 13)%N then "\r"
  else if (n =? 9)%N then "\t"
  else if (n <? 32)%N
       then "\u00" +:+ String (hexDigit (n / 16)) (String (hexDigit (n mod 16)) EmptyString)
  else String c EmptyString.

Fixpoint escape (s : string) : string :=
  match s with
  | EmptyString => EmptyString
  | String c s' => escapeChar c +:+ escape s'
  end.

Definition quote (s : string) : string :=
  String dquote (escape s +:+ String dquote EmptyString).

(** Members of an array or object, separated by commas. *)
Fixpoint commaSep (l : list string) : string :=
  match l with
  | [] => EmptyString
  | [x] => x
  | x :: l' => x +:+ "," +:+ commaSep l'
  end.

Fixpoint stringify (v : value) : string :=
  match v with
  | Null => "null"
  | Str s => quote s
  | Arr elems => "[" +:+ commaSep (List.map stringify elems) +:+ "]"
  | Obj props =>
      "{" +:+ commaSep (List.map (fun kv => match kv with
                                            | (k, x) => quote k +:+ ":" +:+ stringify x
                                            end) props) +:+ "}"
  end.

(** The text of one property of an object. *)
Definition propText (kv : string * value) : string :=
  match kv with
  | (k, x) => quote k +:+ ":" +:+ stringify x
  end.

(** The text of a member starts with a character that is neither the
    separator nor a closing bracket. *)
Definition memberHead (s : string) : Prop :=
  match s with
  | String c _ => c <> ","%char /\ c <> "]"%char /\ c <> "}"%char
  | EmptyString => False
  end.

(** Induction on JSON values that reaches the members of arrays and
    objects. *)
Definition value_ind' (P : value -> Prop)
    (HNull : P Null)
    (HStr : forall s, P (Str s))
    (HArr : forall elems, Forall P elems -> P (Arr elems))
    (HObj : forall props, Forall (fun kv => P (snd kv)) props -> P (Obj props))
  : forall v, P v :=
  fix go (v : value) : P v :=
    match v with
    | Null => HNull
    | Str s => HStr s
    | Arr elems =>
        HArr elems
          ((fix all (l : list value) : Forall P l :=
              match l with
              | [] => @List.Forall_nil _ P
              | x :: l' => @List.Forall_cons _ P x l' (go x) (all l')
              end) elems)
    | Obj props =>
        HObj props
          ((fix all (l : list (string * value)) : Forall (fun kv => P (snd kv)) l :=
              match l with
              | [] => @List.Forall_nil _ _
              | kv :: l' => @List.Forall_cons _ _ kv l' (go (snd kv)) (all l')
              end) props)
    end.

(** The value of a hexadecimal digit as [hexDigit] writes it. *)
Definition hexValue (c : ascii) : N :=
  let n := N_of_ascii c in
  if (n <? 58)%N then (n - 48)%N else (n - 87)%N.

(** Reads back the first character of escaped text: the inverse of
    [escapeChar] at the head of a string. An unescaped double quote ends
    the text. *)
Definition unescapeHead (s : string) : option (ascii * string) :=
  match s with
  | EmptyString => None
  | String c r =>
      if Ascii.eqb c dquote then None
      else if Ascii.eqb c "\" then
        match r with
        | String e r' =>
            if Ascii.eqb e dquote then Some (dquote, r')
            else if Ascii.eqb e "\" then Some ("\"%char, r')
            else if Ascii.eqb e "b" then Some ("008"%char, r')
            else if Ascii.eqb e "f" then Some ("012"%char, r')
            else if Ascii.eqb e "n" then Some ("010"%char, r')
            else if Ascii.eqb e "r" then Some ("013"%char, r')
            else if Ascii.eqb e "t" then Some ("009"%char, r')
            else match r' with
                 | String _ (String _ (String h (String l r''))) =>
                     Some (ascii_of_N (16 * hexValue h + hexValue l), r'')
                 | _ => None
                 end
        | EmptyString => None
        end
      else Some (c, r)
  end.

(** Property lookup by key. *)
Fixpoint getProp (k : string) (props : list (string * value)) : option value :=
  match props with
  | [] => None
  | (k', x) :: props' => if String.eqb k k' then Some x else getProp k props'
  end.

End JSON.

(** A snapshot type that [JSON.stringify] can serialise. *)
Class Serializable (T : Type) := toJSON : T -> JSON.value.

Definition JSON_stringify {T} `{Serializable T} (x : T) : string :=
JSON.stringify (toJSON x).

(** ** The history engine: [useHistory] *)

Module History.

Record HistoryState (T : Type) : Type := mkHistory {
  past : list T;
  present : T;
  future : list T
}.
Arguments mkHistory {T} _ _ _.
Arguments past {T} _.
Arguments present {T} _.
Arguments future {T} _.

Section Hook.
Context {T : Type} `{Serializable T}.

(** The initial state of the hook. *)
Definition useHistory (initialPresent : T) : HistoryState T :=
  {| past := []; present := initialPresent; future := [] |}.

Definition canUndo (state : HistoryState T) : bool :=
  (0 <? length (past state))%nat.

Definition canRedo (state : HistoryState T) : bool :=
  (0 <? length (future state))%nat.

Definition undo (state : HistoryState T) : HistoryState T :=
  if canUndo state then
    match past state !! (length (past state) - 1)%nat with
    | Some previous =>
        let newPast := take (length (past state) - 1) (past state) in
        {| past := newPast;
           present := previous;
           future := present state :: future state |}
    | None => state (* not reached: the index is in range under [canUndo] *)
    end
  else state.

Definition redo (state : HistoryState T) : HistoryState T :=
  if canRedo state then
    match future state !! 0%nat with
    | Some next =>
        let newFuture := drop 1 (future state) in
        {| past := past state ++ [present state];
           present := next;
           future := newFuture |}
    | None => state (* not reached: the index is in range under [canRedo] *)
    end
  else state.

(** Two snapshots are the same JSON document, node for node, with the
    keys of every object in the same order: what the comparison of the
    two [JSON.stringify] texts in [set] tests. Deep equality that ignores
    the order of the keys is [deepEqualJSON], further down. *)
Definition deepEqual (a b : T) : Prop := toJSON a = toJSON b.

Definition set (newPresent : T) (prevState : HistoryState T) : HistoryState T :=
  if String.eqb (JSON_stringify (present prevState)) (JSON_stringify newPresent)
  then prevState
  else {| past := past prevState ++ [present prevState];
          present := newPresent;
          future := [] |}.

Definition reset (newPresent : T) : HistoryState T :=
  {| past := []; present := newPresent; future := [] |}.

(** The history states that a sequence of [set] calls reaches from the
    initial state of the hook. *)
Inductive reachedBySets (initialPresent : T) : HistoryState T -> Prop :=
| reached_init : reachedBySets initialPresent (useHistory initialPresent)
| reached_set x h :
    reachedBySets initialPresent h -> reachedBySets initialPresent (set x h).

End Hook.

End History.

(** ** The document model *)

Module TextStyle.
Record t : Type := mk {
  color : option string;
  fontFamily : option string;
  fontWeight : option string;
  fontStyle : option string;
  fontSize : option string
}.
End TextStyle.

Inductive Animation : Type := AnimNone | AnimFade | AnimSlide | AnimZoom.

Module Slide.
(** A slide object. [Partial<Slide>] is the same type: the keys an
    update carries are the [Some] fields. *)
Record t : Type := mk {
  id : option string;
  title : option string;
  content : option (list string);
  backgroundImage : option string;
  backgroundImageSearchQuery : option string;
  animation : option Animation;
  titleStyle : option TextStyle.t;
  contentStyle : option TextStyle.t
}.

(** The object with no keys, [{}]. *)
Definition empty : t := mk None None None None None None None None.
End Slide.

Module Theme.
Record Colors : Type := mkColors {
  background : string;
  text : string;
  primary : string
}.
Record Fonts : Type := mkFonts {
  title : string;
  body : string
}.
Record t : Type := mk {
  name : string;
  tags : list string;
  colors : Colors;
  fonts : Fonts
}.
End Theme.

Module Presentation.
Record t : Type := mk {
  id : string;
  userId : string;
  topic : string;
  slides : list (JS.Slot Slide.t);
  theme : Theme.t;
  subTitle : option string;
  companyLogo : option string;
  companyWebsite : option string
}.

(** [{ ...presentation, slides: newSlides }] *)
Definition withSlides (presentation : t) (newSlides : list (JS.Slot Slide.t)) : t :=
  mk (id presentation) (userId presentation) (topic presentation) newSlides
     (theme presentation) (subTitle presentation) (companyLogo presentation)
     (companyWebsite presentation).
End Presentation.

(** *** Serialisation of the document model

    Keys are written in the order of the interface declarations; an
    absent key is not written; a hole or an [undefined] of the slide array
    is written as [null]. [JSON.stringify] writes the keys of an object in
    the order they were inserted: the records below stand for objects whose
    keys were inserted in the order of the interface, and two objects with
    the same content in different key orders are not told apart here. The
    key order is visible on [JSON.value], which is its own document. *)

Definition optProp (k : string) (v : option JSON.value) : list (string * JSON.value) :=
  match v with
  | Some x => [(k, x)]
  | None => []
  end.

Definition strings_toJSON (l : list string) : JSON.value :=
  JSON.Arr (List.map JSON.Str l).

#[export] Instance TextStyle_Serializable : Serializable TextStyle.t :=
  fun st =>
    JSON.Obj (optProp "color" (JSON.Str <$> TextStyle.color st)
              ++ optProp "fontFamily" (JSON.Str <$> TextStyle.fontFamily st)
              ++ optProp "fontWeight" (JSON.Str <$> TextStyle.fontWeight st)
              ++ optProp "fontStyle" (JSON.Str <$> TextStyle.fontStyle st)
              ++ optProp "fontSize" (JSON.Str <$> TextStyle.fontSize st)).

Definition Animation_toString (a : Animation) : string :=
  match a with
  | AnimNone => "none"
  | AnimFade => "fade"
  | AnimSlide => "slide"
  | AnimZoom => "zoom"
  end.

#[export] Instance Animation_Serializable : Serializable Animation :=
  fun a => JSON.Str (Animation_toString a).

#[export] Instance Slide_Serializable : Serializable Slide.t :=
  fun s =>
    JSON.Obj (optProp "id" (JSON.Str <$> Slide.id s)
              ++ optProp "title" (JSON.Str <$> Slide.title s)
              ++ optProp "content" (strings_toJSON <$> Slide.content s)
              ++ optProp "backgroundImage" (JSON.Str <$> Slide.backgroundImage s)
              ++ optProp "backgroundImageSearchQuery"
                   (JSON.Str <$> Slide.backgroundImageSearchQuery s)
              ++ optProp "animation" (toJSON <$> Slide.animation s)
              ++ optProp "titleStyle" (toJSON <$> Slide.titleStyle s)
              ++ optProp "contentStyle" (toJSON <$> Slide.contentStyle s)).

(** A position of the slide array. *)
Definition slot_toJSON (x : JS.Slot Slide.t) : JSON.value :=
  match x with
  | JS.Elem s => toJSON s
  | JS.Hole | JS.Undefined => JSON.Null
  end.

#[export] Instance Theme_Serializable : Serializable Theme.t :=
  fun th =>
    JSON.Obj [("name", JSON.Str (Theme.name th));
              ("tags", strings_toJSON (Theme.tags th));
              ("colors", JSON.Obj [("background", JSON.Str (Theme.background (Theme.colors th)));
                                   ("text", JSON.Str (Theme.text (Theme.colors th)));
                                   ("primary", JSON.Str (Theme.primary (Theme.colors th)))]);
              ("fonts", JSON.Obj [("title", JSON.Str (Theme.title (Theme.fonts th)));
                                  ("body", JSON.Str (Theme.body (Theme.fonts th)))])].

#[export] Instance Presentation_Serializable : Serializable Presentation.t :=
  fun p =>
    JSON.Obj ([("id", JSON.Str (Presentation.id p));
               ("userId", JSON.Str (Presentation.userId p));
               ("topic", JSON.Str (Presentation.topic p));
               ("slides", JSON.Arr (List.map slot_toJSON (Presentation.slides p)));
               ("theme", toJSON (Presentation.theme p))]
              ++ optProp "subTitle" (JSON.Str <$> Presentation.subTitle p)
              ++ optProp "companyLogo" (JSON.Str <$> Presentation.companyLogo p)
              ++ optProp "companyWebsite" (JSON.Str <$> Presentation.companyWebsite p)).

(** The snapshot type of the editor, [Presentation | null]. *)
#[export] Instance Snapshot_Serializable : Serializable (option Presentation.t) :=
  fun x =>
    match x with
    | Some p => toJSON p
    | None => JSON.Null
    end.

(** Every JSON value is its own document. *)
#[export] Instance value_Serializable : Serializable JSON.value := fun v => v.

(** *** Reading a snapshot back from its JSON document

    Lenient readers: a key that is missing or ill-typed reads as absent
    (or as the empty string for a required key). They are the left
    inverses of the serialisers above. *)

Definition asStr (v : JSON.value) : option string :=
  match v with
  | JSON.Str s => Some s
  | _ => None
  end.

Definition strings_fromJSON (v : JSON.value) : list string :=
  match v with
  | JSON.Arr l => omap asStr l
  | _ => []
  end.

Definition props_of (v : JSON.value) : list (string * JSON.value) :=
  match v with
  | JSON.Obj ps => ps
  | _ => []
  end.

Definition optStr (k : string) (v : JSON.value) : option string :=
  JSON.getProp k (props_of v) ≫= asStr.

Definition reqStr (k : string) (v : JSON.value) : string :=
  default "" (optStr k v).

Definition TextStyle_fromJSON (v : JSON.value) : TextStyle.t :=
  TextStyle.mk (optStr "color" v) (optStr "fontFamily" v) (optStr "fontWeight" v)
               (optStr "fontStyle" v) (optStr "fontSize" v).

Definition Animation_fromJSON (v : JSON.value) : Animation :=
  match asStr v with
  | Some s =>
      if String.eqb s "fade" then AnimFade
      else if String.eqb s "slide" then AnimSlide
      else if String.eqb s "zoom" then AnimZoom
      else AnimNone
  | None => AnimNone
  end.

Definition Slide_fromJSON (v : JSON.value) : Slide.t :=
  let ps := props_of v in
  Slide.mk (optStr "id" v) (optStr "title" v)
           (strings_fromJSON <$> JSON.getProp "content" ps)
           (optStr "backgroundImage" v) (optStr "backgroundImageSearchQuery" v)
           (Animation_fromJSON <$> JSON.getProp "animation" ps)
           (TextStyle_fromJSON <$> JSON.getProp "titleStyle" ps)
           (TextStyle_fromJSON <$> JSON.getProp "contentStyle" ps).

Definition slot_fromJSON (v : JSON.value) : JS.Slot Slide.t :=
  match v with
  | JSON.Null => JS.Undefined
  | _ => JS.Elem (Slide_fromJSON v)
  end.

Definition Theme_fromJSON (v : JSON.value) : Theme.t :=
  let ps := props_of v in
  let colors := default JSON.Null (JSON.getProp "colors" ps) in
  let fonts := default JSON.Null (JSON.getProp "fonts" ps) in
  Theme.mk (reqStr "name" v)
           (strings_fromJSON (default JSON.Null (JSON.getProp "tags" ps)))
           (Theme.mkColors (reqStr "background" colors) (reqStr "text" colors)
                           (reqStr "primary" colors))
           (Theme.mkFonts (reqStr "title" fonts) (reqStr "body" fonts)).

Definition Presentation_fromJSON (v : JSON.value) : Presentation.t :=
  let ps := props_of v in
  Presentation.mk (reqStr "id" v) (reqStr "userId" v) (reqStr "topic" v)
    (match JSON.getProp "slides" ps with
     | Some (JSON.Arr l) => List.map slot_fromJSON l
     | _ => []
     end)
    (Theme_fromJSON (default JSON.Null (JSON.getProp "theme" ps)))
    (optStr "subTitle" v) (optStr "companyLogo" v) (optStr "companyWebsite" v).

Definition Snapshot_fromJSON (v : JSON.value) : option Presentation.t :=
  match v with
  | JSON.Null => None
  | _ => Some (Presentation_fromJSON v)
  end.

(** What a snapshot reads back as: itself, its holes turned into
    [undefined]. *)
Definition normalize (x : option Presentation.t) : option Presentation.t :=
  (fun p => Presentation.withSlides p (JS.spreadCopy (Presentation.slides p))) <$> x.

(** ** Background resolution *)

(** The element [SlideBackground] renders behind the slide text. *)
Inductive BgElement : Type :=
| BgDiv (background : string)
| BgVideo (src : string)
| BgImg (src : string).

Definition isColor (backgroundImage : string) : bool :=
  JS.startsWith "#" backgroundImage || JS.startsWith "linear-gradient" backgroundImage.

Definition isVideo (backgroundImage : string) : bool :=
  JS.startsWith "data:video" backgroundImage
  || JS.endsWith ".mp4" backgroundImage
  || JS.endsWith ".webm" backgroundImage.

(** The [bgElement] of [SlideBackground]. *)
Definition SlideBackground (backgroundImage : string) : BgElement :=
  if isColor backgroundImage then BgDiv backgroundImage
  else if isVideo backgroundImage then BgVideo backgroundImage
  else BgImg backgroundImage.

(** The background of an exported slide: [{ path }] or [{ color }]. *)
Inductive ExportBackground : Type :=
| BackgroundPath (path : string)
| BackgroundColor (color : string).

(** The background branch of [handleExport]; [None] when no branch
    assigns [pptSlide.background]. *)
Definition handleExport_background (backgroundImage : string) : option ExportBackground :=
  if JS.startsWith "data:" backgroundImage || JS.startsWith "http" backgroundImage
  then Some (BackgroundPath backgroundImage)
  else if JS.startsWith "#" backgroundImage
  then Some (BackgroundColor (JS.removeFirst "#" backgroundImage))
  else if JS.startsWith "linear-gradient" backgroundImage
  then match JS.matchHexColor backgroundImage with
       | Some m => Some (BackgroundColor (JS.removeFirst "#" m))
       | None => Some (BackgroundColor "FFFFFF")
       end
  else None.

(** [handleExport] reads [slide.backgroundImage.startsWith]: a slide
    object without the key makes the read throw. *)
Definition exportSlideBackground (slide : Slide.t) : option (option ExportBackground) :=
  handleExport_background <$> Slide.backgroundImage slide.

(** The four classes of a background descriptor. *)
Inductive BackgroundClass : Type :=
| SolidColor
| CssGradient
| Video
| StaticImage.

(** The classification as the specification words it: ['#'] prefix,
    then ['linear-gradient('] prefix, then ['data:video'] prefix or
    ['.mp4'] / ['.webm'] suffix, then static image. *)
Definition classify_spec (backgroundImage : string) : BackgroundClass :=
  if JS.startsWith "#" backgroundImage then SolidColor
  else if JS.startsWith "linear-gradient(" backgroundImage then CssGradient
  else if JS.startsWith "data:video" backgroundImage
          || JS.endsWith ".mp4" backgroundImage
          || JS.endsWith ".webm" backgroundImage then Video
  else StaticImage.

(** [digits] is a 6-hex-digit colour literal of [s], found after the
    text [pre] and followed by the text [post]. *)
Definition hexLiteralAt (s pre digits post : string) : Prop :=
  s = pre +:+ String "#" (digits +:+ post)
  /\ String.length digits = 6%nat
  /\ JS.allChars JS.isHexDigit digits = true.

(** ... and no such literal starts earlier in [s]. *)
Definition firstHexLiteral (s pre digits post : string) : Prop :=
  hexLiteralAt s pre digits post
  /\ forall pre' digits' post',
       hexLiteralAt s pre' digits' post' -> (String.length pre <= String.length pre')%nat.

(** The class the preview renders a descriptor as. The preview draws
    solid colours and gradients with the same element; the prefix that
    made [isColor] true tells them apart. *)
Definition previewClass (backgroundImage : string) : BackgroundClass :=
  match SlideBackground backgroundImage with
  | BgDiv _ => if JS.startsWith "#" backgroundImage then SolidColor else CssGradient
  | BgVideo _ => Video
  | BgImg _ => StaticImage
  end.

(** The class the export transform treats a descriptor as: a path is a
    static image, a colour taken from a ['#'] descriptor is a solid
    colour, a colour taken from a gradient is a gradient; [None] when the
    export assigns no background. *)
Definition exportClass (backgroundImage : string) : option BackgroundClass :=
  match handleExport_background backgroundImage with
  | Some (BackgroundPath _) => Some StaticImage
  | Some (BackgroundColor _) =>
      if JS.startsWith "#" backgroundImage then Some SolidColor else Some CssGradient
  | None => None
  end.

(** ** The content-refinement service call *)

(** Normal or abrupt completion of a JavaScript computation. *)
Inductive Completion (A : Type) : Type :=
| Normal (a : A)
| Throw (error : string).
Arguments Normal {A} _.
Arguments Throw {A} _.

#[export] Instance Completion_bind : MBind Completion :=
  fun A B (k : A -> Completion B) (c : Completion A) =>
    match c with
    | Normal a => k a
    | Throw e => Throw e
    end.

(** What the [content] key of the response body holds. *)
Inductive ContentValue : Type :=
| ContentText (text : string)  (* a string *)
| ContentFalsy                 (* missing, or a falsy value that is not a string *)
| ContentOther.                (* a truthy value that is not a string *)

(** What the request to [/generate/refine-content] comes back with. *)
Inductive RefineReply : Type :=
| FetchRejected (message : string)                      (* [fetch] rejects *)
| HttpNotOk (detail : option string) (statusText : string)  (* [response.ok] is false *)
| BodyRejected (message : string)                       (* [response.json()] rejects *)
| BodyNull                                              (* the body is [null] *)
| Body (content : ContentValue).                        (* the body is an object *)

(** The body that [handleResponse(await fetch(...))] yields, or the error
    it throws. [None] is a [null] body. *)
Definition handleResponse (reply : RefineReply) : Completion (option ContentValue) :=
  match reply with
  | FetchRejected m => Throw m
  | HttpNotOk detail statusText =>
      Throw (match detail with
             | Some d => if String.eqb d "" then "API Error: " +:+ statusText else d
             | None => "API Error: " +:+ statusText
             end)
  | BodyRejected m => Throw m
  | BodyNull => Normal None
  | Body c => Normal (Some c)
  end.

(** The value [generateSlideContentImprovement] resolves to: a string,
    or ([None]) a value that is not a string. The promise never rejects:
    every error is caught and answered with [currentContent]. *)
Definition generateSlideContentImprovement
    (currentContent instruction : string) (reply : RefineReply) : option string :=
  let attempt : Completion (option string) :=
    data ← handleResponse reply;
    match data with
    | None => Throw "TypeError: Cannot read properties of null"
    | Some (ContentText text) => Normal (Some text)   (* [text || ""] is [text] *)
    | Some ContentFalsy => Normal (Some "")
    | Some ContentOther => Normal None
    end in
  match attempt with
  | Normal r => r
  | Throw _ => Some currentContent
  end.

(** The replies with which the call to the backend has failed: the
    request did not get through, the status is not OK, or the body is not
    a JSON object. *)
Definition refineFailed (reply : RefineReply) : bool :=
  match reply with
  | FetchRejected _ | HttpNotOk _ _ | BodyRejected _ | BodyNull => true
  | Body _ => false
  end.

(** The bullets [handleAiContentRefine] makes of the response text. *)
Definition refinedBullets (newContent : string) : list string :=
  List.map JS.stripBulletMarker
    (List.filter (fun l => (0 <? String.length (JS.trim l))%nat)
       (JS.split JS.LF newContent)).

(** ** The editor page *)

Record EditorState : Type := mkEditor {
  history : History.HistoryState (option Presentation.t);
  selectedSlideIndex : Z;
  toastMessage : option string;
  aiContentPrompt : string;
  isAiLoading : bool
}.

(** The editor as it is mounted on [currentPresentation]. *)
Definition EditorPage (currentPresentation : option Presentation.t) : EditorState :=
  {| history := History.useHistory currentPresentation;
     selectedSlideIndex := 0;
     toastMessage := None;
     aiContentPrompt := "";
     isAiLoading := false |}.

Definition presentation (st : EditorState) : option Presentation.t :=
  History.present (history st).

Definition setPresentation (newPresent : option Presentation.t) (st : EditorState)
  : EditorState :=
  {| history := History.set newPresent (history st);
     selectedSlideIndex := selectedSlideIndex st;
     toastMessage := toastMessage st;
     aiContentPrompt := aiContentPrompt st;
     isAiLoading := isAiLoading st |}.

Definition setSelectedSlideIndex (i : Z) (st : EditorState) : EditorState :=
  {| history := history st;
     selectedSlideIndex := i;
     toastMessage := toastMessage st;
     aiContentPrompt := aiContentPrompt st;
     isAiLoading := isAiLoading st |}.

Definition setToastMessage (m : option string) (st : EditorState) : EditorState :=
  {| history := history st;
     selectedSlideIndex := selectedSlideIndex st;
     toastMessage := m;
     aiContentPrompt := aiContentPrompt st;
     isAiLoading := isAiLoading st |}.

Definition setAiContentPrompt (s : string) (st : EditorState) : EditorState :=
  {| history := history st;
     selectedSlideIndex := selectedSlideIndex st;
     toastMessage := toastMessage st;
     aiContentPrompt := s;
     isAiLoading := isAiLoading st |}.

Definition setIsAiLoading (b : bool) (st : EditorState) : EditorState :=
  {| history := history st;
     selectedSlideIndex := selectedSlideIndex st;
     toastMessage := toastMessage st;
     aiContentPrompt := aiContentPrompt st;
     isAiLoading := b |}.

Definition undo (st : EditorState) : EditorState :=
  {| history := History.undo (history st);
     selectedSlideIndex := selectedSlideIndex st;
     toastMessage := toastMessage st;
     aiContentPrompt := aiContentPrompt st;
     isAiLoading := isAiLoading st |}.

Definition redo (st : EditorState) : EditorState :=
  {| history := History.redo (history st);
     selectedSlideIndex := selectedSlideIndex st;
     toastMessage := toastMessage st;
     aiContentPrompt := aiContentPrompt st;
     isAiLoading := isAiLoading st |}.

(** [{ ...old, ...updates }]: a key of [updates] wins, a key only [old]
    has is kept; spreading [undefined] adds no key. *)
Definition spread (old : option Slide.t) (updates : Slide.t) : Slide.t :=
  let o := default Slide.empty old in
  let pick {A} (f : Slide.t -> option A) : option A :=
    match f updates with
    | Some v => Some v
    | None => f o
    end in
  Slide.mk (pick Slide.id) (pick Slide.title) (pick Slide.content)
           (pick Slide.backgroundImage) (pick Slide.backgroundImageSearchQuery)
           (pick Slide.animation) (pick Slide.titleStyle) (pick Slide.contentStyle).

(** The handlers below exist only once the page has a presentation: with
    a [null] present the page renders its loading text and no handler
    can be invoked, so the state is returned as it is. *)

Definition updateSlide (updates : Slide.t) (st : EditorState) : EditorState :=
  match presentation st with
  | None => st
  | Some presentation =>
      let newSlides := JS.spreadCopy (Presentation.slides presentation) in
      let newSlides :=
        JS.arraySet newSlides (selectedSlideIndex st)
          (Some (spread (JS.arrayGet newSlides (selectedSlideIndex st)) updates)) in
      setPresentation (Some (Presentation.withSlides presentation newSlides)) st
  end.

Inductive Direction : Type := Up | Down.

(** [[a[i], a[j]] = [a[j], a[i]]]: both reads happen before the writes,
    [a[i]] is written first. *)
Definition swap (a : list (JS.Slot Slide.t)) (i j : Z) : list (JS.Slot Slide.t) :=
  let aj := JS.arrayGet a j in
  let ai := JS.arrayGet a i in
  JS.arraySet (JS.arraySet a i aj) j ai.

Definition handleMoveSlide (direction : Direction) (st : EditorState) : EditorState :=
  match presentation st with
  | None => st
  | Some presentation =>
      let i := selectedSlideIndex st in
      let slides := Presentation.slides presentation in
      let newSlides := JS.spreadCopy slides in
      match direction with
      | Up =>
          if 0 <? i then
            setSelectedSlideIndex (i - 1)
              (setPresentation
                 (Some (Presentation.withSlides presentation (swap newSlides i (i - 1)))) st)
          else st
      | Down =>
          if i <? Z.of_nat (length slides) - 1 then
            setSelectedSlideIndex (i + 1)
              (setPresentation
                 (Some (Presentation.withSlides presentation (swap newSlides i (i + 1)))) st)
          else st
      end
  end.

Definition handleDeleteSlide (index : Z) (st : EditorState) : EditorState :=
  match presentation st with
  | None => st
  | Some presentation =>
      let slides := Presentation.slides presentation in
      if Z.of_nat (length slides) <=? 1 then
        setToastMessage (Some "Presentation must have at least one slide.") st
      else
        let newSlides := JS.filterIndexNe index 0 slides in
        let newIndex :=
          if index =? selectedSlideIndex st then Z.max 0 (index - 1)
          else if index <? selectedSlideIndex st then selectedSlideIndex st - 1
          else selectedSlideIndex st in
        setToastMessage (Some "Slide deleted.")
          (setSelectedSlideIndex newIndex
             (setPresentation (Some (Presentation.withSlides presentation newSlides)) st))
  end.

(** The slide the Add Slide button makes when the clock reads [now]
    milliseconds ([Date.now()]). *)
Definition newSlide (now : Z) : Slide.t :=
  {| Slide.id := Some ("slide-" +:+ pretty now);
     Slide.title := Some "New Slide";
     Slide.content := Some ["Click to edit content"];
     Slide.backgroundImage := Some "#FFFFFF";
     Slide.backgroundImageSearchQuery := Some "abstract";
     Slide.animation := Some AnimNone;
     Slide.titleStyle := None;
     Slide.contentStyle := None |}.

(** The [onClick] of the Add Slide button. *)
Definition addSlide (now : Z) (st : EditorState) : EditorState :=
  match presentation st with
  | None => st
  | Some presentation =>
      let slides := Presentation.slides presentation in
      setSelectedSlideIndex (Z.of_nat (length slides))
        (setPresentation
           (Some (Presentation.withSlides presentation
                    (JS.spreadCopy slides ++ [JS.Elem (newSlide now)]))) st)
  end.

(** The [try] block of [handleAiContentRefine]. The argument
    [selectedSlide.content.join] is evaluated first: it throws when there
    is no selected slide or the slide has no [content]. *)
Definition refineAttempt (presentation : Presentation.t) (reply : RefineReply)
    (st : EditorState) : Completion EditorState :=
  let selectedSlide :=
    JS.arrayGet (Presentation.slides presentation) (selectedSlideIndex st) in
  content ← match selectedSlide with
            | None => Throw "TypeError: Cannot read properties of undefined"
            | Some slide =>
                match Slide.content slide with
                | None => Throw "TypeError: Cannot read properties of undefined"
                | Some content => Normal content
                end
            end;
  newContent ← match generateSlideContentImprovement
                       (JS.join JS.newline content)
                       (aiContentPrompt st) reply with
               | Some text => Normal text
               | None => Throw "TypeError: newContent.split is not a function"
               end;
  let bullets := refinedBullets newContent in
  Normal (setToastMessage (Some "Content refined!")
            (setAiContentPrompt ""
               (updateSlide
                  (Slide.mk None None (Some bullets) None None None None None) st))).

Definition handleAiContentRefine (reply : RefineReply) (st : EditorState) : EditorState :=
  match presentation st with
  | None => st
  | Some presentation =>
      if String.eqb (aiContentPrompt st) "" then st
      else
        let st1 := setIsAiLoading true st in
        let st2 :=
          match refineAttempt presentation reply st1 with
          | Normal st' => st'
          | Throw _ => setToastMessage (Some "Failed to refine content.") st1
          end in
        setIsAiLoading false st2
  end.

(** The slide-mutation operations. *)
Inductive Mutation : Type :=
| UpdateSlide (updates : Slide.t)
| MoveSlide (direction : Direction)
| DeleteSlide (index : Z)
| AddSlide (now : Z).

Definition applyMutation (m : Mutation) (st : EditorState) : EditorState :=
  match m with
  | UpdateSlide updates => updateSlide updates st
  | MoveSlide direction => handleMoveSlide direction st
  | DeleteSlide index => handleDeleteSlide index st
  | AddSlide now => addSlide now st
  end.

(** ** Sample data

    The first theme of the catalogue and small presentations, used to run
    the handlers on concrete input. *)

Definition defaultTheme : Theme.t :=
  Theme.mk "Default" ["simple"; "clean"; "light"]
    (Theme.mkColors "#FFFFFF" "#000000" "#3B82F6")
    (Theme.mkFonts "Helvetica, Arial, sans-serif" "Helvetica, Arial, sans-serif").

Definition sampleSlide (id title : string) (content : list string) : Slide.t :=
  Slide.mk (Some id) (Some title) (Some content) (Some "#FFFFFF") (Some "abstract")
           None None None.

Definition samplePresentation (slides : list (JS.Slot Slide.t)) : Presentation.t :=
  Presentation.mk "pres-1" "user-1" "Demo" slides defaultTheme None None None.

Definition slideA : Slide.t := sampleSlide "slide-0-1700000000000" "Intro" ["- a"].
Definition slideB : Slide.t := sampleSlide "slide-1-1700000000000" "Body" ["b"].
Definition slideC : Slide.t := sampleSlide "slide-2-1700000000000" "End" ["c"].

(** The gradient of the specification's example, and a gradient written
    with 3-digit colours only. *)
Definition gradientSlide : Slide.t :=
  Slide.mk (Some "slide-3-1700000000000") (Some "Gradient") (Some [])
           (Some "linear-gradient(135deg, #667eea 0%, #764ba2 100%)") (Some "abstract")
           None None None.

Definition shortHexGradientSlide : Slide.t :=
  Slide.mk (Some "slide-4-1700000000000") (Some "Gradient") (Some [])
           (Some "linear-gradient(to right, #fff, #000)") (Some "abstract")
           None None None.

(** The response of the specification's example:
    ["- Point one\n\nPoint two\n- Point three"]. *)
Definition sampleResponse : string :=
  "- Point one" +:+ JS.newline +:+ JS.newline +:+ "Point two" +:+ JS.newline
  +:+ "- Point three".

(** An editor on a one-slide presentation. *)
Definition editor1 : EditorState := EditorPage (Some (samplePresentation [JS.Elem slideA])).

(** An editor on a three-slide presentation, the middle slide selected. *)
Definition editor3 : EditorState :=
  setSelectedSlideIndex 1
    (EditorPage (Some (samplePresentation [JS.Elem slideA; JS.Elem slideB; JS.Elem slideC]))).

(** An editor on a presentation whose second slide was added when the
    clock read 1700000000000. *)
Definition editorAdded : EditorState := addSlide 1700000000000 editor1.

(** The one-slide editor with a refinement instruction typed in. *)
Definition editorPrompted : EditorState := setAiContentPrompt "Make it shorter" editor1.

(** ** The history as a timeline *)

Section Timeline.
Context {T : Type} `{Serializable T}.

(** All the snapshots a history holds, oldest first. *)
Definition timeline (h : History.HistoryState T) : list T :=
  History.past h ++ [History.present h] ++ History.future h.

(** No snapshot of the list has the JSON text of the one that follows
    it. *)
Fixpoint adjacentDistinct (l : list T) : Prop :=
  match l with
  | x :: l' =>
      match l' with
      | y :: _ => JSON_stringify x <> JSON_stringify y
      | [] => True
      end /\ adjacentDistinct l'
  | [] => True
  end.

End Timeline.

(** ** The editor page, continued *)

(** Every position of the array holds an element. *)
Definition allElems {A} (a : list (JS.Slot A)) : bool :=
  forallb (fun s => match s with
                    | JS.Elem _ => true
                    | _ => false
                    end) a.

(** The page can render: there is a presentation, its slide array holds
    slides only, and the selection names one of them. *)
Definition renderable (st : EditorState) : Prop :=
  exists p,
    presentation st = Some p
    /\ allElems (Presentation.slides p) = true
    /\ 0 <= selectedSlideIndex st < Z.of_nat (length (Presentation.slides p)).

(** [selectedSlide], as the render computes it. *)
Definition selectedSlide (st : EditorState) : option Slide.t :=
  match presentation st with
  | Some p => JS.arrayGet (Presentation.slides p) (selectedSlideIndex st)
  | None => None
  end.

(** The [value] of the body textarea, [selectedSlide.content.join('\n')];
    [None] when the read throws. *)
Definition bodyTextareaValue (st : EditorState) : option string :=
  slide ← selectedSlide st;
  content ← Slide.content slide;
  Some (JS.join JS.newline content).

(** The [onChange] of the body textarea. *)
Definition bodyTextareaOnChange (value : string) (st : EditorState) : EditorState :=
  updateSlide (Slide.mk None None (Some (JS.split JS.LF value)) None None None None None) st.

(** The keys an update does not carry are kept, the keys it carries are
    taken from it. *)
Definition mergedFrom (old updates new : Slide.t) : Prop :=
  let merged {A} (f : Slide.t -> option A) : Prop :=
    f new = match f updates with
            | Some v => Some v
            | None => f old
            end in
  merged Slide.id /\ merged Slide.title /\ merged Slide.content
  /\ merged Slide.backgroundImage /\ merged Slide.backgroundImageSearchQuery
  /\ merged Slide.animation /\ merged Slide.titleStyle /\ merged Slide.contentStyle.

(** The neighbour a move exchanges the selected slide with. *)
Definition moveTarget (direction : Direction) (i : Z) : Z :=
  match direction with
  | Up => i - 1
  | Down => i + 1
  end.

(** ** The panels of the editor page and the image modal *)

Inductive ModalMode : Type := ModeAi | ModeSearch | ModeUpload | ModeUrl.

Inductive Tab : Type := TabContent | TabBackground | TabImage.

(** The state cells of [EditorPage] that do not belong to the document:
    the custom gradient controls, the modal and the active tab. *)
Record PanelState : Type := mkPanel {
  gradStart : string;
  gradEnd : string;
  gradAngle : string;
  isModalOpen : bool;
  modalMode : option ModalMode;
  activeTab : Tab
}.

Record PageState : Type := mkPage {
  editor : EditorState;
  panel : PanelState
}.

Definition initialPanel : PanelState :=
  {| gradStart := "#3B82F6";
     gradEnd := "#9333EA";
     gradAngle := "to right";
     isModalOpen := false;
     modalMode := None;
     activeTab := TabContent |}.

(** [`linear-gradient(${angle}, ${start}, ${end})`] *)
Definition customGradient (start endColor angle : string) : string :=
  "linear-gradient(" +:+ angle +:+ ", " +:+ start +:+ ", " +:+ endColor +:+ ")".

(** An update that carries the [backgroundImage] key only. *)
Definition backgroundUpdate (backgroundImage : string) : Slide.t :=
  Slide.mk None None None (Some backgroundImage) None None None None.

Definition updateCustomGradient (start endColor angle : string) (ps : PageState) : PageState :=
  {| editor := updateSlide (backgroundUpdate (customGradient start endColor angle)) (editor ps);
     panel := {| gradStart := start;
                 gradEnd := endColor;
                 gradAngle := angle;
                 isModalOpen := isModalOpen (panel ps);
                 modalMode := modalMode (panel ps);
                 activeTab := activeTab (panel ps) |} |}.

Definition handleImageSelect (src : string) (ps : PageState) : PageState :=
  {| editor := setToastMessage (Some "Background updated successfully!")
                 (updateSlide (backgroundUpdate src) (editor ps));
     panel := {| gradStart := gradStart (panel ps);
                 gradEnd := gradEnd (panel ps);
                 gradAngle := gradAngle (panel ps);
                 isModalOpen := false;
                 modalMode := modalMode (panel ps);
                 activeTab := activeTab (panel ps) |} |}.

Definition openModal (mode : ModalMode) (ps : PageState) : PageState :=
  {| editor := editor ps;
     panel := {| gradStart := gradStart (panel ps);
                 gradEnd := gradEnd (panel ps);
                 gradAngle := gradAngle (panel ps);
                 isModalOpen := true;
                 modalMode := Some mode;
                 activeTab := activeTab (panel ps) |} |}.

(** The source of a picture the AI picker shows for a payload,
    [`data:image/jpeg;base64,${b64}`]. *)
Definition aiImageSrc (b64 : string) : string := "data:image/jpeg;base64," +:+ b64.

(** The characters of such a source when the payload is base64. *)
Definition aiSrcChar (c : ascii) : bool :=
  let n := N_of_ascii c in
  ((65 <=? n)%N && (n <=? 90)%N) || ((97 <=? n)%N && (n <=? 122)%N)
  || ((48 <=? n)%N && (n <=? 57)%N) || (n =? 43)%N || (n =? 47)%N || (n =? 61)%N
  || (n =? 58)%N || (n =? 59)%N || (n =? 44)%N.

(** The alphabet of base64 payloads. *)
Definition isBase64Char (c : ascii) : bool :=
  let n := N_of_ascii c in
  ((65 <=? n)%N && (n <=? 90)%N) || ((97 <=? n)%N && (n <=? 122)%N)
  || ((48 <=? n)%N && (n <=? 57)%N) || (n =? 43)%N || (n =? 47)%N || (n =? 61)%N.

(** ** The text options of the export *)

(** The value of a digit in a radix of [parseInt]. *)
Definition digitValue (radix : N) (c : ascii) : option N :=
  let n := N_of_ascii c in
  let v := if ((48 <=? n) && (n <=? 57))%N then Some (n - 48)%N
           else if ((97 <=? n) && (n <=? 122))%N then Some (n - 87)%N
           else if ((65 <=? n) && (n <=? 90))%N then Some (n - 55)%N
           else None in
  match v with
  | Some d => if (d <? radix)%N then Some d else None
  | None => None
  end.

(** The number the longest run of digits at the head of [s] denotes,
    continuing from [acc]. *)
Fixpoint readDigits (radix acc : N) (s : string) : N :=
  match s with
  | EmptyString => acc
  | String c s' =>
      match digitValue radix c with
      | Some d => readDigits radix (acc * radix + d) s'
      | None => acc
      end
  end.

(** [parseInt(s)]: leading white space, a sign, a [0x] prefix for radix
    16, then the longest run of digits; [None] is [NaN]. The result is
    the integer the digits denote; the JavaScript number is the nearest
    double, which is that integer below 2^53. *)
Definition parseInt (s : string) : option Z :=
  let s := JS.trimStart s in
  let signed :=
    match s with
    | String c r =>
        if Ascii.eqb c "-" then (true, r)
        else if Ascii.eqb c "+" then (false, r)
        else (false, s)
    | EmptyString => (false, s)
    end in
  let s := snd signed in
  let prefixed :=
    match s with
    | String c (String x r) =>
        if Ascii.eqb c "0" && (Ascii.eqb x "x" || Ascii.eqb x "X") then (16%N, r)
        else (10%N, s)
    | _ => (10%N, s)
    end in
  let radix := fst prefixed in
  let s := snd prefixed in
  match s with
  | String c _ =>
      match digitValue radix c with
      | Some _ =>
          let n := Z.of_N (readDigits radix 0 s) in
          Some (if fst signed then - n else n)
      | None => None
      end
  | EmptyString => None
  end.

(** The text after the first [n] characters. *)
Fixpoint dropChars (n : nat) (s : string) : string :=
  match n, s with
  | O, _ => s
  | S n', String _ s' => dropChars n' s'
  | S _, EmptyString => EmptyString
  end.

(** [s.replace(pat, '')] for a non-empty text [pat]: the first occurrence
    is removed. *)
Fixpoint removeFirstText (pat s : string) : string :=
  if String.prefix pat s then dropChars (String.length pat) s
  else match s with
       | EmptyString => EmptyString
       | String c s' => String c (removeFirstText pat s')
       end.

(** [s.replace] with the global pattern of the single and the double
    quote: every quote character is removed. *)
Fixpoint removeQuotes (s : string) : string :=
  match s with
  | EmptyString => EmptyString
  | String c s' =>
      if Ascii.eqb c "'" || Ascii.eqb c JSON.dquote then removeQuotes s'
      else String c (removeQuotes s')
  end.

(** [s.split(',')[0]] *)
Definition firstField (s : string) : string :=
  match JS.split "," s with
  | x :: _ => x
  | [] => EmptyString  (* not reached: [split] gives at least one piece *)
  end.

(** [x || fallback] on an optional string: [undefined] and the empty
    string are falsy. *)
Definition orElse (x : option string) (fallback : string) : string :=
  match x with
  | Some s => if String.eqb s "" then fallback else s
  | None => fallback
  end.

(** The options [handleExport] passes to [addText]. *)
Record TextOptions : Type := mkTextOptions {
  optFontSize : option Z;
  optFontFace : string;
  optColor : string;
  optBold : bool;
  optItalic : bool
}.

Definition exportTextOptions (style : option TextStyle.t) (defaultSize defaultColor : string)
  : TextOptions :=
  {| optFontSize :=
       parseInt (orElse (removeFirstText "px" <$> (style ≫= TextStyle.fontSize)) defaultSize);
     optFontFace :=
       orElse ((fun f => removeQuotes (firstField f)) <$> (style ≫= TextStyle.fontFamily))
              "Arial";
     optColor := orElse (JS.removeFirst "#" <$> (style ≫= TextStyle.color)) defaultColor;
     optBold := match style ≫= TextStyle.fontWeight with
                | Some w => String.eqb w "bold"
                | None => false
                end;
     optItalic := match style ≫= TextStyle.fontStyle with
                  | Some w => String.eqb w "italic"
                  | None => false
                  end |}.

Definition exportTitleOptions (slide : Slide.t) : TextOptions :=
  exportTextOptions (Slide.titleStyle slide) "24" "000000".

Definition exportContentOptions (slide : Slide.t) : TextOptions :=
  exportTextOptions (Slide.contentStyle slide) "14" "333333".

(** The character class [[a-z0-9]] under the [i] flag, among the code
    units below 256. *)
Definition isAlphaNum (c : ascii) : bool :=
  let n := N_of_ascii c in
  ((48 <=? n)%N && (n <=? 57)%N) || ((97 <=? n)%N && (n <=? 122)%N)
  || ((65 <=? n)%N && (n <=? 90)%N).

(** [topic.replace(/[^a-z0-9]/gi, '_')] *)
Fixpoint sanitizeTopic (topic : string) : string :=
  match topic with
  | EmptyString => EmptyString
  | String c s => String (if isAlphaNum c then c else "_"%char) (sanitizeTopic s)
  end.

(** The [fileName] of the exported file. *)
Definition exportFileName (topic : string) : string := sanitizeTopic topic +:+ ".pptx".

(** *** The style controls of the content tab *)

(** [{ ...old, ...updates }] on text styles. *)
Definition spreadStyle (old : option TextStyle.t) (updates : TextStyle.t) : TextStyle.t :=
  let o := default (TextStyle.mk None None None None None) old in
  let pick (f : TextStyle.t -> option string) : option string :=
    match f updates with
    | Some v => Some v
    | None => f o
    end in
  TextStyle.mk (pick TextStyle.color) (pick TextStyle.fontFamily) (pick TextStyle.fontWeight)
               (pick TextStyle.fontStyle) (pick TextStyle.fontSize).

(** The [onChange] of the title size input. Without a selected slide the
    read of [selectedSlide.titleStyle] throws and nothing is updated. *)
Definition titleSizeOnChange (value : string) (st : EditorState) : EditorState :=
  match selectedSlide st with
  | None => st
  | Some slide =>
      updateSlide
        (Slide.mk None None None None None None
           (Some (spreadStyle (Slide.titleStyle slide)
                    (TextStyle.mk None None None None (Some (value +:+ "px")))))
           None) st
  end.

(** The [value] of the title size input,
    [parseInt(selectedSlide.titleStyle?.fontSize || '24')]; the outer
    [None] when there is no selected slide. *)
Definition titleSizeValue (st : EditorState) : option (option Z) :=
  slide ← selectedSlide st;
  Some (parseInt (orElse (Slide.titleStyle slide ≫= TextStyle.fontSize) "24")).

(** The [onClick] of the B button of the title. *)
Definition titleBoldOnClick (st : EditorState) : EditorState :=
  match selectedSlide st with
  | None => st
  | Some slide =>
      let weight :=
        match Slide.titleStyle slide ≫= TextStyle.fontWeight with
        | Some w => if String.eqb w "bold" then "normal" else "bold"
        | None => "bold"
        end in
      updateSlide
        (Slide.mk None None None None None None
           (Some (spreadStyle (Slide.titleStyle slide)
                    (TextStyle.mk None None (Some weight) None None)))
           None) st
  end.

(** The [fontWeight] the preview gives the title,
    [slide.titleStyle?.fontWeight || 'bold']. *)
Definition previewTitleWeight (slide : Slide.t) : string :=
  orElse (Slide.titleStyle slide ≫= TextStyle.fontWeight) "bold".

(** The decimal digits. *)
Definition isDigit (c : ascii) : bool :=
  let n := N_of_ascii c in (48 <=? n)%N && (n <=? 57)%N.

(** ** The other calls of the service

    Each call reads one key of the response body; [Body] of the reply
    carries what that key holds. *)

(** The value a call resolves to when it returns [data.key || ""]: a
    string, or ([None]) a value that is not a string. A failure is caught
    and answered with [onError]. *)
Definition readKeyOr (onError : string) (reply : RefineReply) : option string :=
  let attempt : Completion (option string) :=
    data ← handleResponse reply;
    match data with
    | None => Throw "TypeError: Cannot read properties of null"
    | Some (ContentText text) => Normal (Some text)
    | Some ContentFalsy => Normal (Some "")
    | Some ContentOther => Normal None
    end in
  match attempt with
  | Normal r => r
  | Throw _ => Some onError
  end.

(** [generateImageFromPrompt]: the [image_data] key. *)
Definition generateImageFromPrompt (prompt : string) (reply : RefineReply) : option string :=
  readKeyOr "" reply.

(** [findWebImage]: the [url] key. *)
Definition findWebImage (query : string) (reply : RefineReply) : option string :=
  readKeyOr "" reply.

(** [generateSingleImageQuery]: [data.content?.trim() || ""]. A content
    that is not a string has no [trim]: the call throws, unless the content
    is missing, and the error is caught; either way the answer is [""]. *)
Definition generateSingleImageQuery (slideTopic : string) (reply : RefineReply) : string :=
  let attempt : Completion string :=
    data ← handleResponse reply;
    match data with
    | None => Throw "TypeError: Cannot read properties of null"
    | Some (ContentText text) => Normal (JS.trim text)
    | Some ContentFalsy => Normal ""
    | Some ContentOther => Throw "TypeError: data.content.trim is not a function"
    end in
  match attempt with
  | Normal r => r
  | Throw _ => ""
  end.

(** The lines [generateSlideContentPoints] keeps:
    [line.trim().length > 0 && line.trim().startsWith('-')]. *)
Definition isBulletLine (line : string) : bool :=
  (0 <? String.length (JS.trim line))%nat && JS.startsWith "-" (JS.trim line).

(** [generateSlideContentPoints]: the hyphenated lines of the [content]
    key. A content that is not a string has no [split]; the error is
    caught. *)
Definition generateSlideContentPoints (presentationTopic slideTitle : string)
    (reply : RefineReply) : list string :=
  let attempt : Completion (list string) :=
    data ← handleResponse reply;
    match data with
    | None => Throw "TypeError: Cannot read properties of null"
    | Some (ContentText text) => Normal (List.filter isBulletLine (JS.split JS.LF text))
    | Some ContentFalsy => Normal (List.filter isBulletLine (JS.split JS.LF ""))
    | Some ContentOther => Throw "TypeError: text.split is not a function"
    end in
  match attempt with
  | Normal r => r
  | Throw _ => []
  end.

(** ** The slides of a generated presentation

    The [map] callback of [handleGenerate], for slide data of the shape
    the backend is asked for and an image call that resolves to a
    string. *)

Inductive BackgroundMode : Type := BackgroundAi | BackgroundSearch | BackgroundNone.

Record SlideData : Type := mkSlideData {
  dataTitle : string;
  dataContent : list string;
  dataQuery : string
}.

(** The background of a generated slide; [image] is what the image call of
    the mode resolved to. *)
Definition generatedBackground (mode : BackgroundMode) (theme : Theme.t) (image : string)
  : string :=
  let themeColor := Theme.background (Theme.colors theme) in
  match mode with
  | BackgroundAi =>
      if String.eqb image "" then themeColor else "data:image/jpeg;base64," +:+ image
  | BackgroundSearch => if String.eqb image "" then themeColor else image
  | BackgroundNone => themeColor
  end.

(** [`slide-${index}-${Date.now()}`] *)
Definition generatedId (index : nat) (now : Z) : string :=
  "slide-" +:+ pretty index +:+ "-" +:+ pretty now.

Definition generatedSlide (mode : BackgroundMode) (theme : Theme.t)
    (index : nat) (now : Z) (image : string) (slideData : SlideData) : Slide.t :=
  {| Slide.id := Some (generatedId index now);
     Slide.title := Some (dataTitle slideData);
     Slide.content := Some (dataContent slideData);
     Slide.backgroundImage := Some (generatedBackground mode theme image);
     Slide.backgroundImageSearchQuery := Some (dataQuery slideData);
     Slide.animation := None;
     Slide.titleStyle := None;
     Slide.contentStyle := None |}.

(** The slide array of the new presentation; [clock i] is the reading of
    [Date.now()] and [image i] the answer of the image call when slide [i]
    is made. *)
Definition generatedSlides (mode : BackgroundMode) (theme : Theme.t)
    (clock : nat -> Z) (image : nat -> string) (data : list SlideData) : list Slide.t :=
  imap (fun index slideData =>
          generatedSlide mode theme index (clock index) (image index) slideData) data.

(** ** The application shell *)

Module User.
Record t : Type := mk {
  id : string;
  fullName : string;
  email : string
}.
End User.

Module App.

Inductive Page : Type := Login | SignUp | Home | Dashboard | Editor.

(** The state cells of [App]. The presentation list comes from the
    backend and from [map] and spread: an array without holes. *)
Record State : Type := mkState {
  apiKeyError : option string;
  page : Page;
  user : option User.t;
  presentations : list Presentation.t;
  currentPresentation : option Presentation.t
}.

Definition initial : State :=
  {| apiKeyError := None; page := Login; user := None; presentations := [];
     currentPresentation := None |}.

Definition setPage (newPage : Page) (st : State) : State :=
  {| apiKeyError := apiKeyError st; page := newPage; user := user st;
     presentations := presentations st; currentPresentation := currentPresentation st |}.

Definition setUser (u : option User.t) (st : State) : State :=
  {| apiKeyError := apiKeyError st; page := page st; user := u;
     presentations := presentations st; currentPresentation := currentPresentation st |}.

Definition setPresentations (l : list Presentation.t) (st : State) : State :=
  {| apiKeyError := apiKeyError st; page := page st; user := user st;
     presentations := l; currentPresentation := currentPresentation st |}.

Definition setCurrentPresentation (p : option Presentation.t) (st : State) : State :=
  {| apiKeyError := apiKeyError st; page := page st; user := user st;
     presentations := presentations st; currentPresentation := p |}.

(** [navigateTo] as a callback that was made when the user was
    [closureUser]: the callback reads the [user] of the render that made
    it, not the state cell. *)
Definition navigateToAs (closureUser : option User.t) (newPage : Page) (st : State) : State :=
  let st1 := match newPage with
             | Editor => st
             | _ => setCurrentPresentation None st
             end in
  match closureUser, newPage with
  | Some _, (Login | SignUp) => setPage Dashboard st1
  | None, (Dashboard | Home | Editor) => setPage Login st1
  | _, _ => setPage newPage st1
  end.

(** [navigateTo] called from the current render. *)
Definition navigateTo (newPage : Page) (st : State) : State :=
  navigateToAs (user st) newPage st.

(** [login] and [logout] set the user and then call the [navigateTo] of
    the current render, which still reads the user of before. *)
Definition login (loggedInUser : User.t) (st : State) : State :=
  navigateToAs (user st) Dashboard (setUser (Some loggedInUser) st).

Definition logout (st : State) : State :=
  navigateToAs (user st) Login
    (setPresentations [] (setCurrentPresentation None (setUser None st))).

(** [updatePresentation]: the local update; the request that follows does
    not touch the state, whatever its outcome. *)
Definition updatePresentation (updatedPresentation : Presentation.t) (st : State) : State :=
  let st1 :=
    setPresentations
      (List.map (fun p => if String.eqb (Presentation.id p)
                                        (Presentation.id updatedPresentation)
                          then updatedPresentation else p)
                (presentations st)) st in
  match currentPresentation st with
  | Some current =>
      if String.eqb (Presentation.id current) (Presentation.id updatedPresentation)
      then setCurrentPresentation (Some updatedPresentation) st1
      else st1
  | None => st1
  end.

(** [presentations.find(p => p.id === id)] *)
Definition findById (id : string) (l : list Presentation.t) : option Presentation.t :=
  List.find (fun p => String.eqb (Presentation.id p) id) l.

(** [setCurrentPresentationById]; [None] is [null], and the empty id is
    falsy as [null] is. *)
Definition setCurrentPresentationById (id : option string) (st : State) : State :=
  let closed := navigateTo Dashboard (setCurrentPresentation None st) in
  match id with
  | None => closed
  | Some i =>
      if String.eqb i "" then closed
      else match findById i (presentations st) with
           | Some presentation =>
               navigateToAs (user st) Editor
                 (setCurrentPresentation (Some presentation) st)
           | None => st
           end
  end.

(** The effect on [user]: without a user the list is emptied; with one
    it is fetched, and replaced when the answer is an array ([fetched]). *)
Definition userEffect (fetched : option (list Presentation.t)) (st : State) : State :=
  match user st with
  | None => setPresentations [] st
  | Some _ =>
      match fetched with
      | Some data => setPresentations data st
      | None => st
      end
  end.

(** What the request of [addPresentation] comes back with. *)
Inductive SaveReply : Type :=
| SaveRejected                       (* [fetch] or [response.json()] rejects *)
| SaveNotOk                          (* [response.ok] is false *)
| Saved (newPresentation : Presentation.t).

(** [addPresentation], when no other handler runs while the request is
    pending. *)
Definition addPresentation (reply : SaveReply) (st : State) : State :=
  match user st with
  | None => st
  | Some _ =>
      match reply with
      | Saved newPresentation =>
          navigateToAs (user st) Editor
            (setCurrentPresentation (Some newPresentation)
               (setPresentations (presentations st ++ [newPresentation]) st))
      | SaveRejected | SaveNotOk => st
      end
  end.

(** What [renderPage] returns. *)
Inductive View : Type :=
| LoginView | SignUpView | HomeView | DashboardView | EditorView.

Definition renderPage (st : State) : View :=
  match user st with
  | None =>
      match page st with
      | SignUp => SignUpView
      | _ => LoginView
      end
  | Some _ =>
      match page st with
      | Home => HomeView
      | Dashboard => DashboardView
      | Editor =>
          match currentPresentation st with
          | Some _ => EditorView
          | None => DashboardView
          end
      | _ => DashboardView
      end
  end.

End App.

(** The page cell agrees with the session: an auth page without a user,
    another page with one. *)
Definition routeConsistent (st : App.State) : bool :=
  match App.user st, App.page st with
  | None, (App.Login | App.SignUp) => true
  | Some _, (App.Home | App.Dashboard | App.Editor) => true
  | _, _ => false
  end.

(** The effect of [EditorPage] that hands every new present of the
    history to [updatePresentation]. *)
Definition syncEffect (es : EditorState) (st : App.State) : App.State :=
  match presentation es with
  | Some p => App.updatePresentation p st
  | None => st
  end.

(** ** The sign-up and login forms *)

(** What the request of a form comes back with, when an OK response
    carries a user. *)
Inductive AuthReply : Type :=
| AuthRejected                        (* [fetch] rejects *)
| AuthOk (userData : User.t)          (* [response.ok], the body is the user *)
| AuthOkUnreadable                    (* [response.ok], [response.json()] rejects *)
| AuthNotOk (detail : option string)  (* not OK, the body is an object *)
| AuthNotOkUnreadable.                (* not OK, the body is [null] or cannot be read *)

Record FormState : Type := mkForm {
  formFullName : string;
  formEmail : string;
  formPassword : string;
  formError : string;
  formLoading : bool
}.

Definition setError (message : string) (f : FormState) : FormState :=
  {| formFullName := formFullName f; formEmail := formEmail f;
     formPassword := formPassword f; formError := message;
     formLoading := formLoading f |}.

Definition setLoading (b : bool) (f : FormState) : FormState :=
  {| formFullName := formFullName f; formEmail := formEmail f;
     formPassword := formPassword f; formError := formError f;
     formLoading := b |}.

(** The request of a form and what follows it: [try], [catch] and
    [finally]. *)
Definition submitRequest (fallback : string) (reply : AuthReply)
    (st : FormState * App.State) : FormState * App.State :=
  let '(f, app) := st in
  let f1 := setLoading true (setError "" f) in
  let '(f2, app2) :=
    match reply with
    | AuthOk userData => (f1, App.login userData app)
    | AuthNotOk detail => (setError (orElse detail fallback) f1, app)
    | AuthRejected | AuthOkUnreadable | AuthNotOkUnreadable =>
        (setError "Cannot connect to server. Is backend running?" f1, app)
    end in
  (setLoading false f2, app2).

(** [handleSubmit] of [SignUpPage]. *)
Definition signUpSubmit (reply : AuthReply) (st : FormState * App.State)
  : FormState * App.State :=
  let '(f, app) := st in
  if String.eqb (formFullName f) "" || String.eqb (formEmail f) ""
     || String.eqb (formPassword f) ""
  then (setError "Please fill in all fields." f, app)
  else if (String.length (formPassword f) <? 6)%nat
  then (setError "Password must be at least 6 characters." f, app)
  else submitRequest "Registration failed" reply st.

(** [handleSubmit] of [LoginPage]; the form has no name field. *)
Definition loginSubmit (reply : AuthReply) (st : FormState * App.State)
  : FormState * App.State :=
  let '(f, app) := st in
  if String.eqb (formEmail f) "" || String.eqb (formPassword f) ""
  then (setError "Please fill in all fields." f, app)
  else submitRequest "Login failed" reply st.

(** *** Sample sessions *)

Definition sampleUser : User.t := User.mk "user-1" "Ada" "ada@example.org".

Definition loggedOut : App.State := App.initial.

Definition loggedIn : App.State :=
  App.userEffect (Some [samplePresentation [JS.Elem slideA]]) (App.login sampleUser loggedOut).

(** ** Deep equality

    Two JSON documents are deep-equal when they are the same text, arrays
    with deep-equal elements position by position, or objects with the
    same number of keys and, under every key of the one, a deep-equal
    value in the other: the order in which an object lists its keys does
    not count. The keys of an object are distinct. *)
Fixpoint deepEqualJSON (a b : JSON.value) {struct a} : bool :=
  match a, b with
  | JSON.Null, JSON.Null => true
  | JSON.Str s, JSON.Str t => String.eqb s t
  | JSON.Arr xs, JSON.Arr ys =>
      (fix elements (xs ys : list JSON.value) {struct xs} : bool :=
         match xs, ys with
         | [], [] => true
         | x :: xs', y :: ys' => deepEqualJSON x y && elements xs' ys'
         | _, _ => false
         end) xs ys
  | JSON.Obj ps, JSON.Obj qs =>
      Nat.eqb (length ps) (length qs)
      && (fix properties (ps : list (string * JSON.value)) : bool :=
            match ps with
            | [] => true
            | (k, v) :: ps' =>
                match JSON.getProp k qs with
                | Some w => deepEqualJSON v w
                | None => false
                end && properties ps'
            end) ps
  | _, _ => false
  end.

(** ** The parsing of a refined response, as the specification words it

    The response is split into lines, blank lines are dropped, and the
    leading marker of each line is stripped where present. *)

(** The lines of a text: the pieces between its newlines. Joined with
    newlines they give the text, and none holds a newline. *)
Definition LinesOf (text : string) (lines : list string) : Prop :=
  lines <> []
  /\ String.concat (String "010" EmptyString) lines = text
  /\ Forall (fun l => ~ In "010"%char (list_ascii_of_string l)) lines.

(** The white-space characters, one by one: TAB, LF, VT, FF, CR, SPACE
    and NO-BREAK SPACE. *)
Definition whiteSpaceChars : list ascii :=
  ["009"; "010"; "011"; "012"; "013"; "032"; "160"]%char.

(** A line that is blank after trimming: it holds white space only. *)
Definition isBlankLine (l : string) : bool :=
  forallb (fun c => existsb (Ascii.eqb c) whiteSpaceChars) (list_ascii_of_string l).

(** A line and what is left of it without the marker: the text after a
    hyphen and a space at the start of the line, and the line itself when
    it does not start with them. *)
Inductive Unmarked : string -> string -> Prop :=
| unmarked_strip (rest : string) : Unmarked (String "-" (String " " rest)) rest
| unmarked_keep (line : string) :
    (forall rest, line <> String "-" (String " " rest)) -> Unmarked line line.

(** The content the specification asks for after a refinement. *)
Definition RefinedContent (response : string) (bullets : list string) : Prop :=
  exists lines,
    LinesOf response lines
    /\ Forall2 Unmarked (List.filter (fun l => negb (isBlankLine l)) lines) bullets.

(** A response with a line of white space, a marker after a space and a
    hyphen without a space. *)
Definition spacedResponse : string :=
  "- one" +:+ JS.newline +:+ String " " (String "009" " ") +:+ JS.newline
  +:+ " - two" +:+ JS.newline +:+ "-three".

(** ** Letters and digits, one by one *)

Definition lettersAndDigits : string :=
  "abcdefghijklmnopqrstuvwxyzABCDEFGHIJKLMNOPQRSTUVWXYZ0123456789".

Definition isLetterOrDigit (c : ascii) : bool :=
  existsb (Ascii.eqb c) (list_ascii_of_string lettersAndDigits).

(** * Properties *)

(** ** Strings *)

#[local] Arguments String.append !_ _ / : simpl nomatch.

Lemma append_assoc (a b c : string) : (a +:+ b) +:+ c = a +:+ (b +:+ c).
Proof. induction a as [|x a IH]; simpl; [reflexivity | now f_equal]. Qed.

Lemma append_nil_r (a : string) : a +:+ "" = a.
Proof. induction a as [|x a IH]; simpl; [reflexivity | now f_equal]. Qed.

(** ** [JSON.stringify] loses nothing *)

Lemma unescapeHead_escapeChar (c : ascii) (r : string) :
  JSON.unescapeHead (JSON.escapeChar c +:+ r) = Some (c, r).
Proof.
  destruct c as [b0 b1 b2 b3 b4 b5 b6 b7].
  destruct b0, b1, b2, b3, b4, b5, b6, b7; reflexivity.
Qed.

Lemma escape_inj_app (s1 s2 r1 r2 : string) :
  JSON.escape s1 +:+ String JSON.dquote r1 = JSON.escape s2 +:+ String JSON.dquote r2 ->
  s1 = s2 /\ r1 = r2.
Proof.
  revert s2; induction s1 as [|c1 s1 IH]; intros [|c2 s2]; simpl; intros E.
  - split; [reflexivity | congruence].
  - rewrite append_assoc in E. apply (f_equal JSON.unescapeHead) in E.
    rewrite unescapeHead_escapeChar in E. discriminate E.
  - rewrite append_assoc in E. apply (f_equal JSON.unescapeHead) in E.
    rewrite unescapeHead_escapeChar in E. discriminate E.
  - rewrite !append_assoc in E. apply (f_equal JSON.unescapeHead) in E.
    rewrite !unescapeHead_escapeChar in E.
    injection E as -> E. destruct (IH _ E) as [-> ->]. split; reflexivity.
Qed.

Lemma quote_app (s r : string) :
  JSON.quote s +:+ r = String JSON.dquote (JSON.escape s +:+ String JSON.dquote r).
Proof. unfold JSON.quote. simpl. now rewrite append_assoc. Qed.

Lemma quote_inj_app (s1 s2 r1 r2 : string) :
  JSON.quote s1 +:+ r1 = JSON.quote s2 +:+ r2 -> s1 = s2 /\ r1 = r2.
Proof.
  rewrite !quote_app. intros E. injection E as E. now apply escape_inj_app.
Qed.

Lemma memberHead_stringify (v : JSON.value) (r : string) :
  JSON.memberHead (JSON.stringify v +:+ r).
Proof. destruct v; simpl; repeat split; discriminate. Qed.

Section Members.
Context {A : Type} (f : A -> string) (close : ascii).
Hypothesis f_head : forall x r, JSON.memberHead (f x +:+ r).
Hypothesis close_bracket : close = "]"%char \/ close = "}"%char.

Lemma commaSep_cons_app (x : A) (l : list A) (r : string) :
  JSON.commaSep (List.map f (x :: l)) +:+ r
  = f x +:+ match l with
            | [] => r
            | _ => String "," (JSON.commaSep (List.map f l) +:+ r)
            end.
Proof.
  destruct l as [|y l]; simpl; [reflexivity |].
  now rewrite append_assoc.
Qed.

Lemma members_inj_app (l1 : list A) :
  Forall (fun x => forall y r1 r2, f x +:+ r1 = f y +:+ r2 -> x = y /\ r1 = r2) l1 ->
  forall l2 r1 r2,
    JSON.commaSep (List.map f l1) +:+ String close r1
    = JSON.commaSep (List.map f l2) +:+ String close r2 ->
    l1 = l2 /\ r1 = r2.
Proof.
  assert (Hclose : forall s r, JSON.memberHead s -> String close r <> s).
  { intros [|c s] r Hs E; [exact Hs |]. destruct Hs as (_ & H1 & H2).
    injection E as E _. destruct close_bracket; congruence. }
  induction 1 as [|x l1 Hx Hl1 IH]; intros [|y l2] r1 r2 E.
  - simpl in E. split; [reflexivity | congruence].
  - exfalso. rewrite commaSep_cons_app in E. simpl in E.
    apply (Hclose _ _ (f_head y _) E).
  - exfalso. rewrite commaSep_cons_app in E. simpl in E. symmetry in E.
    apply (Hclose _ _ (f_head x _) E).
  - rewrite !commaSep_cons_app in E. apply Hx in E as [-> E].
    destruct l1 as [|x' l1], l2 as [|y' l2].
    + split; [reflexivity | congruence].
    + exfalso. injection E as E _. destruct close_bracket as [C|C]; rewrite C in E; discriminate E.
    + exfalso. injection E as E _. destruct close_bracket as [C|C]; rewrite C in E; discriminate E.
    + destruct (IH (y' :: l2) r1 r2) as [-> ->]; [| split; reflexivity].
      injection E as E. exact E.
Qed.
End Members.

Lemma stringify_Arr_app (l : list JSON.value) (r : string) :
  JSON.stringify (JSON.Arr l) +:+ r
  = String "[" (JSON.commaSep (List.map JSON.stringify l) +:+ String "]" r).
Proof. simpl. now rewrite append_assoc. Qed.

Lemma stringify_Obj_app (ps : list (string * JSON.value)) (r : string) :
  JSON.stringify (JSON.Obj ps) +:+ r
  = String "{" (JSON.commaSep (List.map JSON.propText ps) +:+ String "}" r).
Proof.
  change (JSON.stringify (JSON.Obj ps))
    with ("{" +:+ JSON.commaSep (List.map JSON.propText ps) +:+ "}").
  simpl. now rewrite append_assoc.
Qed.

Lemma propText_app (k : string) (x : JSON.value) (r : string) :
  JSON.propText (k, x) +:+ r = JSON.quote k +:+ String ":" (JSON.stringify x +:+ r).
Proof. unfold JSON.propText. now rewrite !append_assoc. Qed.

Lemma stringify_inj_app (v1 : JSON.value) :
  forall v2 r1 r2,
    JSON.stringify v1 +:+ r1 = JSON.stringify v2 +:+ r2 -> v1 = v2 /\ r1 = r2.
Proof.
  induction v1 as [|s1|l1 IH|p1 IH] using JSON.value_ind'; intros [|s2|l2|p2] r1 r2 E;
    try (simpl in E; unfold JSON.quote in E; simpl in E; discriminate E).
  - simpl in E. split; [reflexivity | congruence].
  - simpl in E. apply quote_inj_app in E as [-> ->]. split; reflexivity.
  - rewrite !stringify_Arr_app in E. injection E as E.
    apply (members_inj_app JSON.stringify "]") in E as [-> ->];
      [split; reflexivity | apply memberHead_stringify | now left | exact IH].
  - rewrite !stringify_Obj_app in E. injection E as E.
    apply (members_inj_app JSON.propText "}") in E as [-> ->];
      [split; reflexivity | | now right |].
    + intros [k x] r. rewrite propText_app, quote_app. simpl. repeat split; discriminate.
    + clear E. induction IH as [|[k x] l Hx _ IHl]; constructor; [| exact IHl].
      intros [k' x'] ra rb E. rewrite !propText_app in E.
      apply quote_inj_app in E as [-> E]. injection E as E.
      simpl in Hx. apply Hx in E as [-> ->]. split; reflexivity.
Qed.

(** Two JSON values with the same text are the same value. *)
Lemma stringify_inj (v1 v2 : JSON.value) :
  JSON.stringify v1 = JSON.stringify v2 -> v1 = v2.
Proof.
  intros E. apply (stringify_inj_app v1 v2 "" ""). now rewrite !append_nil_r.
Qed.

(** ** Serialisation of the document model loses nothing *)

Lemma omap_asStr_Str (l : list string) : omap asStr (List.map JSON.Str l) = l.
Proof. induction l as [|x l IH]; simpl; [reflexivity | now f_equal]. Qed.

Lemma strings_roundtrip (l : list string) : strings_fromJSON (strings_toJSON l) = l.
Proof. apply omap_asStr_Str. Qed.

Lemma TextStyle_roundtrip (st : TextStyle.t) : TextStyle_fromJSON (toJSON st) = st.
Proof. destruct st as [[c|] [f|] [w|] [s|] [z|]]; reflexivity. Qed.

Lemma Animation_roundtrip (a : Animation) : Animation_fromJSON (toJSON a) = a.
Proof. destruct a; reflexivity. Qed.

Lemma Slide_roundtrip (s : Slide.t) : Slide_fromJSON (toJSON s) = s.
Proof.
  destruct s as [[i|] [t|] [c|] [b|] [q|] [[]|] [ts|] [cs|]];
    unfold Slide_fromJSON, toJSON, Slide_Serializable, optStr; cbn;
    rewrite ?omap_asStr_Str, ?TextStyle_roundtrip;
    reflexivity.
Qed.

Lemma spreadCopy_length {A} (a : list (JS.Slot A)) :
  length (JS.spreadCopy a) = length a.
Proof. apply length_map. Qed.

Lemma spreadCopy_dense {A} (a : list (JS.Slot A)) :
  JS.dense a = true -> JS.spreadCopy a = a.
Proof.
  induction a as [|x a IH]; [reflexivity |].
  cbn [JS.dense forallb]. intros [Hx Ha]%andb_true_iff.
  cbn [JS.spreadCopy List.map]. fold (JS.spreadCopy a). rewrite (IH Ha).
  destruct x; [discriminate | reflexivity | reflexivity].
Qed.

Lemma dense_spreadCopy {A} (a : list (JS.Slot A)) : JS.dense (JS.spreadCopy a) = true.
Proof.
  induction a as [|x a IH]; [reflexivity |].
  cbn [JS.spreadCopy List.map JS.dense forallb]. fold (JS.spreadCopy a).
  fold (JS.dense (JS.spreadCopy a)). rewrite IH. now destruct x.
Qed.

Lemma arrayGet_spreadCopy {A} (a : list (JS.Slot A)) (i : Z) :
  JS.arrayGet (JS.spreadCopy a) i = JS.arrayGet a i.
Proof.
  unfold JS.arrayGet, JS.spreadCopy. destruct (i <? 0); [reflexivity |].
  change (List.map ?f a) with (f <$> a). rewrite list_lookup_fmap.
  destruct (a !! Z.to_nat i) as [[| |x]|]; reflexivity.
Qed.

Lemma slot_roundtrip (x : JS.Slot Slide.t) :
  [slot_fromJSON (slot_toJSON x)] = JS.spreadCopy [x].
Proof.
  destruct x as [| |s]; [reflexivity | reflexivity |].
  cbn. rewrite <- (Slide_roundtrip s) at 2. reflexivity.
Qed.

Lemma slots_roundtrip (l : list (JS.Slot Slide.t)) :
  List.map slot_fromJSON (List.map slot_toJSON l) = JS.spreadCopy l.
Proof.
  induction l as [|x l IH]; [reflexivity |].
  cbn [List.map JS.spreadCopy]. fold (JS.spreadCopy l). rewrite IH.
  pose proof (slot_roundtrip x) as E. cbn [List.map JS.spreadCopy] in E.
  injection E as ->. reflexivity.
Qed.

Lemma Theme_roundtrip (th : Theme.t) : Theme_fromJSON (toJSON th) = th.
Proof.
  destruct th as [n tg [cb ct cp] [ft fb]].
  unfold Theme_fromJSON, toJSON, Theme_Serializable, reqStr, optStr; cbn.
  now rewrite omap_asStr_Str.
Qed.

Lemma Presentation_roundtrip (p : Presentation.t) :
  Presentation_fromJSON (toJSON p)
  = Presentation.withSlides p (JS.spreadCopy (Presentation.slides p)).
Proof.
  destruct p as [i u t sl th [st|] [cl|] [cw|]];
    unfold Presentation_fromJSON, reqStr, optStr; cbn;
    rewrite slots_roundtrip;
    rewrite (Theme_roundtrip th); reflexivity.
Qed.

Lemma Snapshot_roundtrip (x : option Presentation.t) :
  Snapshot_fromJSON (toJSON x) = normalize x.
Proof.
  destruct x as [p|]; [| reflexivity].
  change (Snapshot_fromJSON (toJSON (Some p))) with (Some (Presentation_fromJSON (toJSON p))).
  now rewrite Presentation_roundtrip.
Qed.

(** Two snapshots with the same JSON text are the same snapshot, up to
    holes read as [undefined]. *)
Lemma Snapshot_stringify_normalize (x y : option Presentation.t) :
  JSON_stringify x = JSON_stringify y -> normalize x = normalize y.
Proof.
  intros E. apply stringify_inj in E.
  rewrite <- (Snapshot_roundtrip x), <- (Snapshot_roundtrip y). now f_equal.
Qed.

Lemma withSlides_slides (p : Presentation.t) :
  Presentation.withSlides p (Presentation.slides p) = p.
Proof. now destruct p. Qed.

Lemma normalize_dense (p : Presentation.t) :
  JS.dense (Presentation.slides p) = true -> normalize (Some p) = Some p.
Proof.
  intros Hd. cbn. now rewrite (spreadCopy_dense _ Hd), withSlides_slides.
Qed.

Lemma normalize_slides (p q : Presentation.t) :
  normalize (Some p) = normalize (Some q) ->
  JS.spreadCopy (Presentation.slides p) = JS.spreadCopy (Presentation.slides q).
Proof.
  unfold normalize. cbn [fmap option_fmap option_map]. intros E.
  apply (inj Some) in E. now apply (f_equal Presentation.slides) in E.
Qed.

(** ** The history engine *)

Section HistoryFacts.
Context {T : Type} `{Serializable T}.
Implicit Types (h : History.HistoryState T) (x y : T).

(** A snapshot is deep-equal to itself and to every copy of itself. *)
Lemma deepEqual_refl x y : x = y -> History.deepEqual x y.
Proof. now intros ->. Qed.

Lemma set_deepEqual h x :
  History.deepEqual x (History.present h) -> History.set x h = h.
Proof.
  unfold History.deepEqual, History.set, JSON_stringify. intros ->.
  now rewrite String.eqb_refl.
Qed.

Lemma set_not_deepEqual h y :
  ~ History.deepEqual y (History.present h) ->
  History.set y h
  = {| History.past := History.past h ++ [History.present h];
       History.present := y;
       History.future := [] |}.
Proof.
  unfold History.deepEqual, History.set, JSON_stringify. intros Hne.
  destruct (String.eqb_spec (JSON.stringify (toJSON (History.present h)))
                            (JSON.stringify (toJSON y))) as [E|_]; [| reflexivity].
  exfalso. apply Hne. symmetry. now apply stringify_inj.
Qed.

Lemma set_future h x : History.future h = [] -> History.future (History.set x h) = [].
Proof.
  unfold History.set. intros Hf.
  now destruct (String.eqb _ _).
Qed.

Lemma reachedBySets_future init h :
  History.reachedBySets init h -> History.future h = [].
Proof. induction 1; [reflexivity | now apply set_future]. Qed.

Lemma undo_snoc (ps : list T) (p c : T) (fs : list T) :
  History.undo (History.mkHistory (ps ++ [p]) c fs) = History.mkHistory ps p (c :: fs).
Proof.
  unfold History.undo, History.canUndo. cbn [History.past History.present History.future].
  rewrite length_app. cbn [length].
  replace (length ps + 1 - 1)%nat with (length ps) by lia.
  destruct (Nat.ltb_spec 0 (length ps + 1)); [| lia].
  rewrite lookup_app_r by lia. rewrite Nat.sub_diag. cbn.
  now rewrite take_app_length.
Qed.

Lemma redo_cons (ps : list T) (c n : T) (fs : list T) :
  History.redo (History.mkHistory ps c (n :: fs)) = History.mkHistory (ps ++ [c]) n fs.
Proof. reflexivity. Qed.

Lemma undo_nil (c : T) (fs : list T) :
  History.undo (History.mkHistory [] c fs) = History.mkHistory [] c fs.
Proof. reflexivity. Qed.

Lemma redo_nil (ps : list T) (c : T) :
  History.redo (History.mkHistory ps c []) = History.mkHistory ps c [].
Proof. reflexivity. Qed.

(** [redo] cancels [undo] whenever [undo] does something or there is
    nothing to redo. *)
Lemma redo_undo h :
  History.past h <> [] \/ History.future h = [] -> History.redo (History.undo h) = h.
Proof.
  destruct h as [ps c fs]. cbn [History.past History.future].
  destruct ps as [|p ps _] using rev_ind.
  - intros [Hp | ->]; [congruence |]. now rewrite undo_nil, redo_nil.
  - intros _. now rewrite undo_snoc, redo_cons.
Qed.
End HistoryFacts.

(** C2. For every history state reached by a sequence of [set] calls,
    [undo()] followed immediately by [redo()] gives a state whose
    present, past and future are those before the [undo()]. *)
Theorem undo_redo_inverse {T : Type} `{Serializable T}
    (initialPresent : T) (h : History.HistoryState T) :
  History.reachedBySets initialPresent h ->
  let h' := History.redo (History.undo h) in
  History.present h' = History.present h
  /\ History.past h' = History.past h
  /\ History.future h' = History.future h.
Proof.
  intros Hr h'. subst h'.
  rewrite redo_undo; [auto |].
  right. now apply (reachedBySets_future initialPresent).
Qed.

Lemma undo_redo_inverse_witness :
  let h := History.set (JSON.Str "B") (History.useHistory (JSON.Str "A")) in
  History.reachedBySets (JSON.Str "A") h
  /\ History.present (History.redo (History.undo h)) = JSON.Str "B"
  /\ History.past (History.redo (History.undo h)) = [JSON.Str "A"]
  /\ History.future (History.redo (History.undo h)) = [].
Proof.
  assert (Hr : History.reachedBySets (JSON.Str "A")
                 (History.set (JSON.Str "B") (History.useHistory (JSON.Str "A"))))
    by (apply History.reached_set, History.reached_init).
  split; [exact Hr |].
  exact (undo_redo_inverse (JSON.Str "A") _ Hr).
Defined.

(** C3, as the code has it. [set(x)] is a no-op exactly when the JSON
    text of [x] is the JSON text of the current present, that is when the
    two are the same document with the keys of every object in the same
    order: then past, present and future keep their values and their
    lengths. In every other case the present is appended to the past, [x]
    becomes the present and the future is emptied. *)
Theorem set_dedup {T : Type} `{Serializable T} (h : History.HistoryState T) (x : T) :
  let h' := History.set x h in
  (JSON_stringify x = JSON_stringify (History.present h) <-> h' = h)
  /\ (toJSON x = toJSON (History.present h) <-> h' = h)
  /\ (h' = h ->
      History.past h' = History.past h
      /\ History.present h' = History.present h
      /\ History.future h' = History.future h
      /\ length (History.past h') = length (History.past h)
      /\ length (History.future h') = length (History.future h))
  /\ (h' <> h ->
      History.past h' = (History.past h ++ [History.present h])%list
      /\ History.present h' = x
      /\ History.future h' = []).
Proof.
  cbn zeta.
  assert (Htext : JSON_stringify x = JSON_stringify (History.present h)
                  <-> History.set x h = h).
  { unfold History.set.
    destruct (String.eqb_spec (JSON_stringify (History.present h)) (JSON_stringify x))
      as [E|Hne].
    - split; [reflexivity | now symmetry].
    - split; [intros E; now symmetry in E |].
      intros E. apply (f_equal History.past) in E. cbn [History.past] in E.
      apply (f_equal length) in E. rewrite length_app in E. cbn [length] in E. lia. }
  split; [exact Htext |]. split; [| split].
  - rewrite <- Htext. unfold JSON_stringify. split; [now intros -> |].
    apply stringify_inj.
  - now intros ->.
  - intros Hne. unfold History.set in *.
    destruct (String.eqb_spec (JSON_stringify (History.present h)) (JSON_stringify x))
      as [E|_]; [now contradiction Hne | repeat split].
Qed.

(** The example of the specification: present [{title:"A"}], empty past,
    [set({title:"A"})] leaves [past.length == 0]. *)
Lemma set_dedup_witness :
  let titleA := JSON.Obj [("title", JSON.Str "A")] in
  let h := History.useHistory titleA in
  History.set (JSON.Obj [("title", JSON.Str "A")]) h = h
  /\ length (History.past (History.set (JSON.Obj [("title", JSON.Str "A")]) h)) = 0%nat.
Proof.
  pose proof (set_dedup (History.useHistory (JSON.Obj [("title", JSON.Str "A")]))
                (JSON.Obj [("title", JSON.Str "A")])) as (Htext & _ & Hsame & _).
  pose proof (proj1 Htext eq_refl) as E.
  split; [exact E |].
  destruct (Hsame E) as (_ & _ & _ & L & _). exact L.
Defined.

(** C3 as stated fails: [{title:"A", layout:"wide"}] and
    [{layout:"wide", title:"A"}] are deep-equal, yet [set] with the second
    on a history whose present is the first records a new entry. *)
Lemma set_dedup_counterexample :
  let current := JSON.Obj [("title", JSON.Str "A"); ("layout", JSON.Str "wide")] in
  let x := JSON.Obj [("layout", JSON.Str "wide"); ("title", JSON.Str "A")] in
  let h := History.useHistory current in
  deepEqualJSON x current = true
  /\ deepEqualJSON current x = true
  /\ History.set x h <> h
  /\ History.past (History.set x h) = [current]
  /\ History.present (History.set x h) = x
  /\ length (History.past (History.set x h)) <> length (History.past h).
Proof.
  cbn zeta. split; [reflexivity |]. split; [reflexivity |].
  split; [vm_compute; discriminate |].
  split; [reflexivity |]. split; [reflexivity |]. vm_compute. discriminate.
Qed.

(** C4. With a non-empty future, [set(y)] with [y] not deep-equal to the
    current present empties the future, installs [y] as the present and
    appends the old present to the past. *)
Theorem set_clears_future {T : Type} `{Serializable T}
    (h : History.HistoryState T) (y : T) :
  History.future h <> [] ->
  ~ History.deepEqual y (History.present h) ->
  let h' := History.set y h in
  History.future h' = []
  /\ History.present h' = y
  /\ History.past h' = (History.past h ++ [History.present h])%list.
Proof.
  intros _ Hne h'. subst h'. rewrite (set_not_deepEqual h y Hne). repeat split.
Qed.

Lemma set_clears_future_witness :
  let h := History.undo (History.set (JSON.Str "B") (History.useHistory (JSON.Str "A"))) in
  History.future h = [JSON.Str "B"]
  /\ History.future (History.set (JSON.Str "C") h) = []
  /\ History.present (History.set (JSON.Str "C") h) = JSON.Str "C"
  /\ History.past (History.set (JSON.Str "C") h) = [JSON.Str "A"].
Proof.
  split; [reflexivity |].
  refine (set_clears_future
            (History.undo (History.set (JSON.Str "B") (History.useHistory (JSON.Str "A"))))
            (JSON.Str "C") _ _).
  - vm_compute. discriminate.
  - vm_compute. discriminate.
Defined.

(** ** Arrays *)

Lemma arraySet_length {A} (a : list (JS.Slot A)) (i : Z) (v : option A) :
  (length a <= length (JS.arraySet a i v))%nat.
Proof.
  unfold JS.arraySet. destruct (i <? 0); [lia |].
  destruct (Nat.ltb_spec (Z.to_nat i) (length a)).
  - now rewrite length_insert.
  - rewrite !length_app. lia.
Qed.

Lemma arraySet_in_range {A} (a : list (JS.Slot A)) (i : Z) (v : option A) :
  0 <= i < Z.of_nat (length a) -> JS.arraySet a i v = <[Z.to_nat i := JS.toSlot v]> a.
Proof.
  intros Hi. unfold JS.arraySet.
  destruct (Z.ltb_spec i 0); [lia |].
  destruct (Nat.ltb_spec (Z.to_nat i) (length a)); [reflexivity | lia].
Qed.

Lemma arrayGet_in_range {A} (a : list (JS.Slot A)) (i : Z) (x : A) :
  JS.arrayGet a i = Some x -> 0 <= i < Z.of_nat (length a).
Proof.
  unfold JS.arrayGet. destruct (Z.ltb_spec i 0); [discriminate |].
  destruct (a !! Z.to_nat i) as [o|] eqn:E; [| discriminate].
  apply lookup_lt_Some in E. lia.
Qed.

Lemma arrayGet_insert {A} (a : list (JS.Slot A)) (i : Z) (x : A) :
  0 <= i < Z.of_nat (length a) -> JS.arrayGet (<[Z.to_nat i := JS.Elem x]> a) i = Some x.
Proof.
  intros Hi. unfold JS.arrayGet. destruct (Z.ltb_spec i 0); [lia |].
  rewrite list_lookup_insert_eq by lia. reflexivity.
Qed.

Lemma dense_app {A} (a b : list (JS.Slot A)) :
  JS.dense (a ++ b) = JS.dense a && JS.dense b.
Proof. apply forallb_app. Qed.

Lemma dense_take_drop {A} (a : list (JS.Slot A)) (n m : nat) :
  JS.dense a = true -> JS.dense (take n a ++ drop m a) = true.
Proof.
  intros Hd. rewrite dense_app. apply andb_true_iff.
  unfold JS.dense in *. rewrite forallb_forall in Hd. split; apply forallb_forall;
    intros x Hx; apply Hd.
  - apply list_elem_of_In. apply (subseteq_take n a). now apply list_elem_of_In.
  - apply list_elem_of_In. apply (subseteq_drop m a). now apply list_elem_of_In.
Qed.

Lemma dense_insert {A} (a : list (JS.Slot A)) (n : nat) (x : A) :
  JS.dense a = true -> JS.dense (<[n := JS.Elem x]> a) = true.
Proof.
  revert n. induction a as [|y a IH]; intros n; [reflexivity |].
  cbn [JS.dense forallb]. intros [Hy Ha]%andb_true_iff.
  destruct n as [|n]; cbn [JS.dense forallb]; apply andb_true_iff; split; auto.
Qed.

(** [filter((_, i) => i !== index)] on an array without holes whose first
    element has position [from]: an index inside the array removes that
    one element, any other index removes nothing. *)
Lemma filterIndexNe_spec {A} (index : Z) (a : list (JS.Slot A)) :
  JS.dense a = true ->
  forall from,
    JS.filterIndexNe index from a
    = if (from <=? index) && (index <? from + Z.of_nat (length a))
      then (take (Z.to_nat (index - from)) a ++ drop (S (Z.to_nat (index - from))) a)%list
      else a.
Proof.
  induction a as [|x a IH]; intros Hd k.
  - cbn [JS.filterIndexNe length].
    destruct (_ && _); [now rewrite take_nil, drop_nil | reflexivity].
  - cbn [JS.dense forallb] in Hd. apply andb_true_iff in Hd as [Hx Ha].
    assert (E : JS.filterIndexNe index k (x :: a)
                = if k =? index then JS.filterIndexNe index (k + 1) a
                  else x :: JS.filterIndexNe index (k + 1) a)
      by (destruct x; [discriminate | reflexivity | reflexivity]).
    rewrite E, (IH Ha). clear E. cbn [length].
    destruct (Z.eqb_spec k index) as [Heq|Hne]; [subst k |].
    + rewrite Z.sub_diag. cbn [Z.to_nat take drop app].
      destruct (Z.leb_spec (index + 1) index); [lia |]. cbn [andb].
      destruct (Z.leb_spec index index); [| lia].
      destruct (Z.ltb_spec index (index + Z.of_nat (S (length a)))); [| lia].
      reflexivity.
    + destruct (Z.leb_spec (k + 1) index), (Z.leb_spec k index);
        destruct (Z.ltb_spec index (k + 1 + Z.of_nat (length a))),
                 (Z.ltb_spec index (k + Z.of_nat (S (length a))));
        cbn [andb]; try lia; try reflexivity.
      replace (Z.to_nat (index - k)) with (S (Z.to_nat (index - (k + 1)))) by lia.
      reflexivity.
Qed.

Lemma filterIndexNe_in_range {A} (index : Z) (a : list (JS.Slot A)) :
  JS.dense a = true ->
  0 <= index < Z.of_nat (length a) ->
  JS.filterIndexNe index 0 a
  = (take (Z.to_nat index) a ++ drop (S (Z.to_nat index)) a)%list.
Proof.
  intros Hd Hi. rewrite (filterIndexNe_spec _ _ Hd), Z.sub_0_r.
  destruct (Z.leb_spec 0 index); [| lia].
  destruct (Z.ltb_spec index (0 + Z.of_nat (length a))); [reflexivity | lia].
Qed.

Lemma filterIndexNe_length {A} (index from : Z) (a : list (JS.Slot A)) :
  JS.dense a = true ->
  (length a - 1 <= length (JS.filterIndexNe index from a))%nat.
Proof.
  intros Hd. rewrite (filterIndexNe_spec _ _ Hd). destruct (_ && _); [| lia].
  rewrite length_app, length_take, length_drop. lia.
Qed.

(** ** The editor page *)

(** The snapshot handed to [setPresentation] is the next present, up to
    holes read as [undefined]: either it is installed, or the present has
    the same JSON text already. *)
Lemma setPresentation_normalize (x : option Presentation.t) (st : EditorState) :
  normalize (presentation (setPresentation x st)) = normalize x.
Proof.
  unfold presentation, setPresentation, History.set. cbn [history].
  destruct (String.eqb_spec (JSON_stringify (History.present (history st)))
                            (JSON_stringify x)) as [E|_]; [| reflexivity].
  now apply Snapshot_stringify_normalize.
Qed.

Lemma setPresentation_Some (x : Presentation.t) (st : EditorState) :
  exists p',
    presentation (setPresentation (Some x) st) = Some p'
    /\ JS.spreadCopy (Presentation.slides p') = JS.spreadCopy (Presentation.slides x).
Proof.
  pose proof (setPresentation_normalize (Some x) st) as E.
  destruct (presentation (setPresentation (Some x) st)) as [p'|]; [| discriminate E].
  exists p'. split; [reflexivity | now apply normalize_slides].
Qed.

(** Between arrays without holes the new snapshot is installed as it is. *)
Lemma setPresentation_dense (x p : Presentation.t) (st : EditorState) :
  presentation st = Some p ->
  JS.dense (Presentation.slides p) = true ->
  JS.dense (Presentation.slides x) = true ->
  presentation (setPresentation (Some x) st) = Some x.
Proof.
  intros Hp Hdp Hdx.
  unfold presentation, setPresentation, History.set in *. cbn [history].
  destruct (String.eqb_spec (JSON_stringify (History.present (history st)))
                            (JSON_stringify (Some x))) as [E|_]; [| reflexivity].
  apply Snapshot_stringify_normalize in E. rewrite Hp in *.
  now rewrite !normalize_dense in E.
Qed.

(** A snapshot with another number of slides is installed as it is. *)
Lemma setPresentation_length (x p : Presentation.t) (st : EditorState) :
  presentation st = Some p ->
  length (Presentation.slides x) <> length (Presentation.slides p) ->
  presentation (setPresentation (Some x) st) = Some x.
Proof.
  intros Hp Hlen.
  unfold presentation, setPresentation, History.set in *. cbn [history].
  destruct (String.eqb_spec (JSON_stringify (History.present (history st)))
                            (JSON_stringify (Some x))) as [E|_]; [| reflexivity].
  exfalso. apply Hlen. apply Snapshot_stringify_normalize in E. rewrite Hp in E.
  apply normalize_slides in E. apply (f_equal length) in E.
  now rewrite !spreadCopy_length in E.
Qed.

Lemma presentation_setSelectedSlideIndex (i : Z) (st : EditorState) :
  presentation (setSelectedSlideIndex i st) = presentation st.
Proof. reflexivity. Qed.

Lemma presentation_setToastMessage (m : option string) (st : EditorState) :
  presentation (setToastMessage m st) = presentation st.
Proof. reflexivity. Qed.

Lemma swap_length (a : list (JS.Slot Slide.t)) (i j : Z) :
  (length a <= length (swap a i j))%nat.
Proof.
  unfold swap. etransitivity; [| apply arraySet_length]. apply arraySet_length.
Qed.

(** The number of slides after a [setPresentation]. *)
Lemma setPresentation_slides_length (x : Presentation.t) (st : EditorState) (n : nat) :
  (n <= length (Presentation.slides x))%nat ->
  exists p', presentation (setPresentation (Some x) st) = Some p'
             /\ (n <= length (Presentation.slides p'))%nat.
Proof.
  intros Hn. destruct (setPresentation_Some x st) as (p' & Hp' & E).
  exists p'. split; [exact Hp' |].
  apply (f_equal length) in E. rewrite !spreadCopy_length in E. lia.
Qed.

(** C1. Every slide-mutation operation (update slide fields, reorder,
    delete, add) applied to a presentation with at least one slide gives a
    presentation with at least one slide, and delete leaves history and
    selection as they are when the presentation has exactly one slide.
    The slide sequence is a sequence: an array without holes. *)
Theorem mutation_preserves_nonempty (m : Mutation) (st : EditorState) (p : Presentation.t) :
  presentation st = Some p ->
  JS.dense (Presentation.slides p) = true ->
  (1 <= length (Presentation.slides p))%nat ->
  (exists p', presentation (applyMutation m st) = Some p'
              /\ (1 <= length (Presentation.slides p'))%nat)
  /\ (length (Presentation.slides p) = 1%nat ->
      forall index,
        history (handleDeleteSlide index st) = history st
        /\ selectedSlideIndex (handleDeleteSlide index st) = selectedSlideIndex st).
Proof.
  intros Hp Hd Hn. split.
  - destruct m as [updates | direction | index | now]; cbn [applyMutation].
    + unfold updateSlide. rewrite Hp. apply setPresentation_slides_length.
      cbn [Presentation.withSlides Presentation.slides].
      etransitivity; [| apply arraySet_length]. now rewrite spreadCopy_length.
    + unfold handleMoveSlide. rewrite Hp.
      destruct direction.
      * destruct (0 <? selectedSlideIndex st); [| now exists p].
        rewrite presentation_setSelectedSlideIndex. apply setPresentation_slides_length.
        cbn [Presentation.withSlides Presentation.slides].
        etransitivity; [| apply swap_length]. now rewrite spreadCopy_length.
      * destruct (selectedSlideIndex st <? _); [| now exists p].
        rewrite presentation_setSelectedSlideIndex. apply setPresentation_slides_length.
        cbn [Presentation.withSlides Presentation.slides].
        etransitivity; [| apply swap_length]. now rewrite spreadCopy_length.
    + unfold handleDeleteSlide. rewrite Hp.
      destruct (Z.leb_spec (Z.of_nat (length (Presentation.slides p))) 1).
      * rewrite presentation_setToastMessage. now exists p.
      * rewrite presentation_setToastMessage, presentation_setSelectedSlideIndex.
        apply setPresentation_slides_length.
        cbn [Presentation.withSlides Presentation.slides].
        pose proof (filterIndexNe_length index 0 (Presentation.slides p) Hd). lia.
    + unfold addSlide. rewrite Hp.
      rewrite presentation_setSelectedSlideIndex. apply setPresentation_slides_length.
      cbn [Presentation.withSlides Presentation.slides].
      rewrite length_app. cbn [length]. lia.
  - intros H1 index. unfold handleDeleteSlide. rewrite Hp, H1. split; reflexivity.
Qed.

Lemma mutation_preserves_nonempty_witness :
  presentation editor1 = Some (samplePresentation [JS.Elem slideA])
  /\ (exists p', presentation (applyMutation (DeleteSlide 0) editor1) = Some p'
                 /\ (1 <= length (Presentation.slides p'))%nat)
  /\ history (handleDeleteSlide 0 editor1) = history editor1.
Proof.
  split; [reflexivity |].
  destruct (mutation_preserves_nonempty (DeleteSlide 0) editor1
              (samplePresentation [JS.Elem slideA]) eq_refl eq_refl (le_n 1))
    as [Hex Hdel].
  split; [exact Hex |].
  exact (proj1 (Hdel eq_refl 0)).
Defined.

(** C5. Delete slide: with exactly one slide, delete at any index leaves
    the presentation (and the whole history and the selection) as it is
    and raises a notice; with N > 1 slides, deleting the slide at index
    [i] leaves the N-1 other slides in their order, and the selection [s]
    becomes [max(0, i-1)] when [i = s], [s-1] when [i < s], and stays [s]
    when [i > s]. *)
Theorem delete_slide_spec (st : EditorState) (p : Presentation.t) (i : Z) :
  presentation st = Some p ->
  JS.dense (Presentation.slides p) = true ->
  let slides := Presentation.slides p in
  let s := selectedSlideIndex st in
  let st' := handleDeleteSlide i st in
  (length slides = 1%nat ->
     presentation st' = Some p
     /\ history st' = history st
     /\ selectedSlideIndex st' = s
     /\ toastMessage st' = Some "Presentation must have at least one slide.")
  /\ ((1 < length slides)%nat -> 0 <= i < Z.of_nat (length slides) ->
      exists p',
        presentation st' = Some p'
        /\ p' = Presentation.withSlides p
                  (take (Z.to_nat i) slides ++ drop (S (Z.to_nat i)) slides)
        /\ length (Presentation.slides p') = (length slides - 1)%nat
        /\ (i = s -> selectedSlideIndex st' = Z.max 0 (i - 1))
        /\ (i < s -> selectedSlideIndex st' = s - 1)
        /\ (i > s -> selectedSlideIndex st' = s)).
Proof.
  intros Hp Hd slides s st'. subst slides s st'. unfold handleDeleteSlide. rewrite Hp. split.
  - intros H1. rewrite H1.
    destruct (Z.leb_spec (Z.of_nat 1) 1); [| lia].
    rewrite presentation_setToastMessage. repeat split. exact Hp.
  - intros HN Hi.
    destruct (Z.leb_spec (Z.of_nat (length (Presentation.slides p))) 1); [lia |].
    rewrite presentation_setToastMessage, presentation_setSelectedSlideIndex.
    rewrite (filterIndexNe_in_range i _ Hd Hi).
    rewrite (setPresentation_dense _ p st Hp Hd) by now apply dense_take_drop.
    eexists. split; [reflexivity |]. split; [reflexivity |].
    cbn [Presentation.withSlides Presentation.slides setToastMessage setSelectedSlideIndex
         selectedSlideIndex].
    split; [rewrite length_app, length_take, length_drop; lia |].
    repeat split; intros Hs.
    + destruct (Z.eqb_spec i (selectedSlideIndex st)); [reflexivity | lia].
    + destruct (Z.eqb_spec i (selectedSlideIndex st)); [lia |].
      destruct (Z.ltb_spec i (selectedSlideIndex st)); [reflexivity | lia].
    + destruct (Z.eqb_spec i (selectedSlideIndex st)); [lia |].
      destruct (Z.ltb_spec i (selectedSlideIndex st)); [lia | reflexivity].
Qed.

Lemma delete_slide_spec_witness :
  presentation editor3
  = Some (samplePresentation [JS.Elem slideA; JS.Elem slideB; JS.Elem slideC])
  /\ presentation (handleDeleteSlide 1 editor3)
     = Some (samplePresentation [JS.Elem slideA; JS.Elem slideC])
  /\ selectedSlideIndex (handleDeleteSlide 1 editor3) = 0
  /\ selectedSlideIndex (handleDeleteSlide 0 editor3) = 0
  /\ selectedSlideIndex (handleDeleteSlide 2 editor3) = 1.
Proof.
  split; [reflexivity |].
  pose proof (delete_slide_spec editor3 _ 1 eq_refl eq_refl) as [_ H1].
  pose proof (delete_slide_spec editor3 _ 0 eq_refl eq_refl) as [_ H0].
  pose proof (delete_slide_spec editor3 _ 2 eq_refl eq_refl) as [_ H2].
  destruct (H1 ltac:(cbn; lia) ltac:(cbn; lia)) as (p1 & Hp1 & -> & _ & S1 & _ & _).
  destruct (H0 ltac:(cbn; lia) ltac:(cbn; lia)) as (p0 & _ & _ & _ & _ & S0 & _).
  destruct (H2 ltac:(cbn; lia) ltac:(cbn; lia)) as (p2 & _ & _ & _ & _ & _ & S2).
  split; [exact Hp1 |].
  split; [exact (S1 eq_refl) |].
  split; [apply S0; reflexivity | apply S2; reflexivity].
Defined.

(** C10, as the code has it. Add slide appends exactly one slide at the
    end and leaves the existing slides as they are; the new slide has the
    id ["slide-"] followed by the clock reading in decimal (so slides added
    at different clock readings get different ids), the title
    ["New Slide"], the content [["Click to edit content"]], the white
    background ["#FFFFFF"], the search query ["abstract"], the animation
    ["none"] and no style overrides; the selection moves to the new last
    index, the previous length. *)
Theorem add_slide_spec (st : EditorState) (p : Presentation.t) (now : Z) :
  presentation st = Some p ->
  let slides := Presentation.slides p in
  let st' := addSlide now st in
  exists p',
    presentation st' = Some p'
    /\ p' = Presentation.withSlides p (JS.spreadCopy slides ++ [JS.Elem (newSlide now)])
    /\ length (Presentation.slides p') = S (length slides)
    /\ (forall k, 0 <= k < Z.of_nat (length slides) ->
          JS.arrayGet (Presentation.slides p') k = JS.arrayGet slides k)
    /\ JS.arrayGet (Presentation.slides p') (Z.of_nat (length slides)) = Some (newSlide now)
    /\ selectedSlideIndex st' = Z.of_nat (length slides)
    /\ newSlide now
       = Slide.mk (Some ("slide-" +:+ pretty now)) (Some "New Slide")
                  (Some ["Click to edit content"]) (Some "#FFFFFF") (Some "abstract")
                  (Some AnimNone) None None
    /\ (forall now', now' <> now -> Slide.id (newSlide now') <> Slide.id (newSlide now)).
Proof.
  intros Hp slides st'. subst slides st'.
  eexists. split.
  { unfold addSlide. rewrite Hp, presentation_setSelectedSlideIndex.
    apply (setPresentation_length _ p st Hp).
    cbn [Presentation.withSlides Presentation.slides].
    rewrite length_app, spreadCopy_length. cbn [length]. lia. }
  split; [reflexivity |].
  cbn [Presentation.withSlides Presentation.slides].
  split; [rewrite length_app, spreadCopy_length; cbn [length]; lia |].
  split; [| split; [| split; [| split]]].
  - intros k Hk. rewrite <- (arrayGet_spreadCopy (Presentation.slides p)).
    unfold JS.arrayGet. destruct (k <? 0); [reflexivity |].
    rewrite lookup_app_l; [reflexivity | rewrite spreadCopy_length; lia].
  - unfold JS.arrayGet. destruct (Z.ltb_spec (Z.of_nat (length (Presentation.slides p))) 0);
      [lia |].
    rewrite Nat2Z.id, lookup_app_r by (rewrite spreadCopy_length; lia).
    now rewrite spreadCopy_length, Nat.sub_diag.
  - unfold addSlide. now rewrite Hp.
  - reflexivity.
  - intros now' Hne. cbn [newSlide Slide.id]. intros E'.
    injection E' as E'. apply Hne. now apply (inj pretty).
Qed.

Lemma add_slide_spec_witness :
  presentation editor1 = Some (samplePresentation [JS.Elem slideA])
  /\ presentation (addSlide 1700000000000 editor1)
     = Some (samplePresentation [JS.Elem slideA; JS.Elem (newSlide 1700000000000)])
  /\ selectedSlideIndex (addSlide 1700000000000 editor1) = 1.
Proof.
  split; [reflexivity |].
  destruct (add_slide_spec editor1 _ 1700000000000 eq_refl)
    as (p' & E & -> & _ & _ & _ & S & _).
  split; [exact E | exact S].
Defined.

(** C10 as stated fails: the new slide carries the search query
    ["abstract"], and its id, made from the clock alone, repeats the id of
    a slide added at the same clock reading. *)
Lemma add_slide_counterexample :
  exists p' old new,
    presentation (addSlide 1700000000000 editorAdded) = Some p'
    /\ Presentation.slides p' = [JS.Elem slideA; JS.Elem old; JS.Elem new]
    /\ Slide.id new = Slide.id old
    /\ Slide.backgroundImageSearchQuery new = Some "abstract"
    /\ ~ (Slide.id new <> Slide.id old
          /\ (Slide.backgroundImageSearchQuery new = None
              \/ Slide.backgroundImageSearchQuery new = Some "")).
Proof.
  eexists _, (newSlide 1700000000000), (newSlide 1700000000000).
  split; [vm_compute; reflexivity |].
  split; [reflexivity |]. split; [reflexivity |]. split; [reflexivity |].
  intros [Hid _]. now apply Hid.
Qed.

(** ** Background resolution *)

Lemma prefix_head (a : ascii) (p s : string) :
  String.prefix (String a p) s = true -> exists s', s = String a s'.
Proof.
  destruct s as [|b s]; cbn [String.prefix]; [discriminate |].
  destruct (ascii_dec a b) as [->|]; [eauto | discriminate].
Qed.

Lemma prefix_cons (a : ascii) (p s : string) :
  String.prefix (String a p) (String a s) = String.prefix p s.
Proof. cbn [String.prefix]. destruct (ascii_dec a a); [reflexivity | congruence]. Qed.

Lemma prefix_cons_ne (a b : ascii) (p s : string) :
  a <> b -> String.prefix (String a p) (String b s) = false.
Proof. intros Hne. cbn [String.prefix]. destruct (ascii_dec a b); [congruence | reflexivity]. Qed.

(** A descriptor that starts with ['#'] starts with none of the other
    prefixes. *)
Lemma startsWith_hash (s : string) :
  JS.startsWith "#" s = true ->
  JS.startsWith "linear-gradient" s = false
  /\ JS.startsWith "data:" s = false
  /\ JS.startsWith "http" s = false
  /\ JS.startsWith "data:video" s = false.
Proof.
  intros H. apply prefix_head in H as [s' ->].
  unfold JS.startsWith. repeat split; apply prefix_cons_ne; discriminate.
Qed.

Lemma startsWith_gradient (s : string) :
  JS.startsWith "linear-gradient" s = true ->
  JS.startsWith "#" s = false
  /\ JS.startsWith "data:" s = false
  /\ JS.startsWith "http" s = false
  /\ JS.startsWith "data:video" s = false.
Proof.
  intros H. apply prefix_head in H as [s' ->].
  unfold JS.startsWith. repeat split; apply prefix_cons_ne; discriminate.
Qed.

Lemma prefix_trans (p q s : string) :
  String.prefix p q = true -> String.prefix q s = true -> String.prefix p s = true.
Proof.
  revert q s. induction p as [|a p IH]; intros q s Hpq Hqs; [now destruct s |].
  apply prefix_head in Hpq as Hq. destruct Hq as [q' ->].
  apply prefix_head in Hqs as Hs. destruct Hs as [s' ->].
  rewrite prefix_cons in *. eauto.
Qed.

Lemma startsWith_data_video (s : string) :
  JS.startsWith "data:video" s = true -> JS.startsWith "data:" s = true.
Proof. apply prefix_trans. reflexivity. Qed.

Lemma previewClass_eq (s : string) :
  previewClass s
  = if JS.startsWith "#" s then SolidColor
    else if JS.startsWith "linear-gradient" s then CssGradient
    else if isVideo s then Video
    else StaticImage.
Proof.
  unfold previewClass, SlideBackground, isColor.
  destruct (JS.startsWith "#" s), (JS.startsWith "linear-gradient" s), (isVideo s);
    reflexivity.
Qed.

Lemma exportClass_eq (s : string) :
  exportClass s
  = if JS.startsWith "data:" s || JS.startsWith "http" s then Some StaticImage
    else if JS.startsWith "#" s then Some SolidColor
    else if JS.startsWith "linear-gradient" s then Some CssGradient
    else None.
Proof.
  unfold exportClass, handleExport_background.
  destruct (JS.startsWith "data:" s), (JS.startsWith "http" s), (JS.startsWith "#" s),
    (JS.startsWith "linear-gradient" s), (JS.matchHexColor s); reflexivity.
Qed.

(** C6, as the code has it. Both classifications are total. The preview
    decides in the order ['#'] prefix, ['linear-gradient'] prefix (the
    parenthesis is not required), ['data:video'] prefix or ['.mp4'] /
    ['.webm'] suffix, static image. The export decides in the order
    ['data:'] or ['http'] prefix (a path, whatever the medium), ['#']
    prefix, ['linear-gradient'] prefix, and otherwise assigns no
    background. The two give the same class exactly on the descriptors
    that start with ['#'] or ['linear-gradient'], or that start with
    ['data:'] or ['http'] and are not video descriptors; and the preview
    follows the specified precedence whenever the ['linear-gradient']
    prefix comes with its parenthesis. *)
Theorem background_classification (s : string) :
  previewClass s
  = (if JS.startsWith "#" s then SolidColor
     else if JS.startsWith "linear-gradient" s then CssGradient
     else if isVideo s then Video
     else StaticImage)
  /\ exportClass s
     = (if JS.startsWith "data:" s || JS.startsWith "http" s then Some StaticImage
        else if JS.startsWith "#" s then Some SolidColor
        else if JS.startsWith "linear-gradient" s then Some CssGradient
        else None)
  /\ (exportClass s = Some (previewClass s)
      <-> JS.startsWith "#" s = true
          \/ JS.startsWith "linear-gradient" s = true
          \/ ((JS.startsWith "data:" s = true \/ JS.startsWith "http" s = true)
              /\ isVideo s = false))
  /\ (JS.startsWith "linear-gradient(" s = JS.startsWith "linear-gradient" s ->
      previewClass s = classify_spec s).
Proof.
  split; [apply previewClass_eq |]. split; [apply exportClass_eq |]. split.
  - rewrite previewClass_eq, exportClass_eq.
    destruct (JS.startsWith "#" s) eqn:Hh.
    { destruct (startsWith_hash s Hh) as (-> & -> & -> & _). cbn. tauto. }
    destruct (JS.startsWith "linear-gradient" s) eqn:Hg.
    { destruct (startsWith_gradient s Hg) as (_ & -> & -> & _). cbn. tauto. }
    destruct (JS.startsWith "data:" s), (JS.startsWith "http" s), (isVideo s);
      cbn; split; try tauto; try discriminate;
      intros [H | [H | [[H | H] H']]]; discriminate.
  - intros Hparen. rewrite previewClass_eq. unfold classify_spec, isVideo.
    rewrite Hparen. reflexivity.
Qed.

(** C6 as stated fails: a video data URI is a video for the preview and
    an image path for the export; and a descriptor that starts with
    ['linear-gradient'] without the parenthesis is drawn as a gradient by
    the preview, where the specified precedence makes it a static image. *)
Lemma background_classification_counterexample :
  previewClass "data:video/mp4;base64,AAAA" = Video
  /\ exportClass "data:video/mp4;base64,AAAA" = Some StaticImage
  /\ exportClass "data:video/mp4;base64,AAAA" <> Some (previewClass "data:video/mp4;base64,AAAA")
  /\ previewClass "linear-gradient.png" = CssGradient
  /\ classify_spec "linear-gradient.png" = StaticImage.
Proof. repeat split. discriminate. Qed.

(** ** The gradient fallback of the export *)

Lemma hexDigits_complete (ds post : string) :
  JS.allChars JS.isHexDigit ds = true ->
  JS.hexDigits (String.length ds) (ds +:+ post) = Some ds.
Proof.
  induction ds as [|c ds IH]; [reflexivity |].
  cbn [JS.allChars String.length JS.hexDigits]. simpl append.
  intros [Hc Hds]%andb_true_iff. rewrite Hc, (IH Hds). reflexivity.
Qed.

Lemma hexDigits_sound (n : nat) :
  forall s ds,
    JS.hexDigits n s = Some ds ->
    exists post, s = ds +:+ post
                 /\ String.length ds = n
                 /\ JS.allChars JS.isHexDigit ds = true.
Proof.
  induction n as [|n IH]; intros s ds; cbn [JS.hexDigits].
  - intros [= <-]. exists s. repeat split.
  - destruct s as [|c s]; [discriminate |].
    destruct (JS.isHexDigit c) eqn:Hc; [| discriminate].
    destruct (JS.hexDigits n s) as [ds'|] eqn:E; [| discriminate].
    intros [= <-]. destruct (IH _ _ E) as (post & -> & <- & Hall).
    exists post. cbn [JS.allChars String.length]. rewrite Hc, Hall. repeat split.
Qed.

Lemma hexLiteralAt_cons (c : ascii) (s pre digits post : string) :
  hexLiteralAt s pre digits post -> hexLiteralAt (String c s) (String c pre) digits post.
Proof. intros (-> & Hl & Ha). repeat split; assumption. Qed.

(** The regular expression finds the first literal... *)
Lemma matchHexColor_first (pre : string) :
  forall s digits post,
    firstHexLiteral s pre digits post ->
    JS.matchHexColor s = Some (String "#" digits).
Proof.
  induction pre as [|c pre IH]; intros s digits post [(-> & Hl & Ha) Hmin].
  - simpl append. cbn [JS.matchHexColor]. rewrite Ascii.eqb_refl.
    rewrite <- Hl at 1. now rewrite hexDigits_complete.
  - simpl append. cbn [JS.matchHexColor].
    assert (Htail : JS.matchHexColor (pre +:+ String "#" (digits +:+ post))
                    = Some (String "#" digits)).
    { apply (IH _ digits post). split; [repeat split; assumption |].
      intros pre' digits' post' H'.
      apply (hexLiteralAt_cons c) in H'. apply Hmin in H'.
      cbn [String.length] in H'. lia. }
    destruct (Ascii.eqb_spec c "#") as [->|_]; [| exact Htail].
    destruct (JS.hexDigits 6 (pre +:+ String "#" (digits +:+ post))) as [ds|] eqn:E;
      [| exact Htail].
    exfalso. apply hexDigits_sound in E as (post' & E & Hl' & Ha').
    assert (H0 : hexLiteralAt (String "#" (pre +:+ String "#" (digits +:+ post)))
                   "" ds post').
    { repeat split; [| assumption | assumption]. simpl append. now rewrite E. }
    apply Hmin in H0. cbn [String.length] in H0. lia.
Qed.

(** ... and finds nothing only when there is no literal. *)
Lemma matchHexColor_none (s : string) :
  (forall pre digits post, ~ hexLiteralAt s pre digits post) ->
  JS.matchHexColor s = None.
Proof.
  induction s as [|c s IH]; intros Hno; [reflexivity |].
  cbn [JS.matchHexColor].
  assert (Htail : JS.matchHexColor s = None).
  { apply IH. intros pre digits post H. apply (Hno (String c pre) digits post).
    now apply hexLiteralAt_cons. }
  destruct (Ascii.eqb_spec c "#") as [->|_]; [| exact Htail].
  destruct (JS.hexDigits 6 s) as [ds|] eqn:E; [| exact Htail].
  exfalso. apply hexDigits_sound in E as (post' & -> & Hl' & Ha').
  apply (Hno "" ds post'). repeat split; assumption.
Qed.

(** Conversely, what the regular expression finds is the first literal. *)
Lemma matchHexColor_sound (s : string) :
  forall m,
    JS.matchHexColor s = Some m ->
    exists pre digits post, m = String "#" digits /\ firstHexLiteral s pre digits post.
Proof.
  induction s as [|c s IH]; intros m; cbn [JS.matchHexColor]; [discriminate |].
  assert (Htail : JS.matchHexColor s = Some m ->
                  (forall ds post, String c s <> String "#" (ds +:+ post)
                                   \/ String.length ds <> 6%nat
                                   \/ JS.allChars JS.isHexDigit ds <> true) ->
                  exists pre digits post,
                    m = String "#" digits /\ firstHexLiteral (String c s) pre digits post).
  { intros Hm Hhead. destruct (IH _ Hm) as (pre & digits & post & -> & Hlit & Hmin).
    exists (String c pre), digits, post. split; [reflexivity |].
    split; [now apply hexLiteralAt_cons |].
    intros [|c' pre'] digits' post' (E & Hl & Ha).
    - exfalso. destruct (Hhead digits' post') as [H | [H | H]]; auto.
    - simpl append in E. injection E as <- E. cbn [String.length].
      apply le_n_S. apply (Hmin pre' digits' post'). repeat split; assumption. }
  destruct (Ascii.eqb_spec c "#") as [->|Hc].
  - destruct (JS.hexDigits 6 s) as [ds|] eqn:E.
    + intros [= <-]. apply hexDigits_sound in E as (post & -> & Hl & Ha).
      exists "", ds, post. split; [reflexivity |]. split; [repeat split; assumption |].
      intros; cbn [String.length]; lia.
    + intros Hm. apply (Htail Hm). intros ds post.
      destruct (Nat.eq_dec (String.length ds) 6%nat) as [Hl|]; [| auto].
      destruct (JS.allChars JS.isHexDigit ds) eqn:Ha; [| right; right; discriminate].
      left. intros [= ->]. rewrite <- Hl, hexDigits_complete in E by assumption.
      discriminate E.
  - intros Hm. apply (Htail Hm). intros ds post. left. intros [= ->]. now apply Hc.
Qed.

Lemma matchHexColor_of_literal (pre : string) :
  forall s digits post,
    hexLiteralAt s pre digits post -> JS.matchHexColor s <> None.
Proof.
  induction pre as [|c pre IH]; intros s digits post (-> & Hl & Ha).
  - simpl append. cbn [JS.matchHexColor]. rewrite Ascii.eqb_refl.
    rewrite <- Hl at 1. now rewrite hexDigits_complete.
  - simpl append. cbn [JS.matchHexColor].
    assert (Htail : JS.matchHexColor (pre +:+ String "#" (digits +:+ post)) <> None)
      by (apply (IH _ digits post); repeat split; assumption).
    destruct (Ascii.eqb c "#"); [| exact Htail].
    destruct (JS.hexDigits 6 _); [discriminate | exact Htail].
Qed.

Lemma matchHexColor_none_sound (s : string) :
  JS.matchHexColor s = None -> forall pre digits post, ~ hexLiteralAt s pre digits post.
Proof. intros E pre digits post H. now apply (matchHexColor_of_literal pre s digits post). Qed.

(** C7. For every slide whose background starts with ['linear-gradient'],
    the exported background colour is the first 6-hex-digit colour
    literal of the expression without its ['#'], and is ['FFFFFF'] when
    the expression has no such literal. *)
Theorem export_gradient_fallback (slide : Slide.t) (bg : string) :
  Slide.backgroundImage slide = Some bg ->
  JS.startsWith "linear-gradient" bg = true ->
  (forall pre digits post,
      firstHexLiteral bg pre digits post ->
      exportSlideBackground slide = Some (Some (BackgroundColor digits)))
  /\ ((forall pre digits post, ~ hexLiteralAt bg pre digits post) ->
      exportSlideBackground slide = Some (Some (BackgroundColor "FFFFFF"))).
Proof.
  intros Hbg Hg. unfold exportSlideBackground. rewrite Hbg. cbn [fmap option_fmap option_map].
  unfold handleExport_background. rewrite Hg.
  destruct (startsWith_gradient bg Hg) as (-> & -> & -> & _). cbn [orb].
  split.
  - intros pre digits post Hfirst.
    rewrite (matchHexColor_first pre bg digits post Hfirst). reflexivity.
  - intros Hno. rewrite (matchHexColor_none bg Hno). reflexivity.
Qed.

Lemma export_gradient_fallback_witness :
  Slide.backgroundImage gradientSlide
  = Some "linear-gradient(135deg, #667eea 0%, #764ba2 100%)"
  /\ exportSlideBackground gradientSlide = Some (Some (BackgroundColor "667eea"))
  /\ exportSlideBackground shortHexGradientSlide = Some (Some (BackgroundColor "FFFFFF")).
Proof.
  split; [reflexivity |]. split.
  - destruct (export_gradient_fallback gradientSlide _ eq_refl eq_refl) as [Hfirst _].
    destruct (matchHexColor_sound "linear-gradient(135deg, #667eea 0%, #764ba2 100%)"
                _ eq_refl) as (pre & digits & post & Hm & Hf).
    injection Hm as <-. exact (Hfirst pre _ post Hf).
  - destruct (export_gradient_fallback shortHexGradientSlide _ eq_refl eq_refl) as [_ Hnone].
    apply Hnone. now apply matchHexColor_none_sound.
Defined.

(** ** Content refinement *)

Lemma spread_content (slide : Slide.t) (bullets : list string) :
  spread (Some slide) (Slide.mk None None (Some bullets) None None None None None)
  = Slide.mk (Slide.id slide) (Slide.title slide) (Some bullets)
             (Slide.backgroundImage slide) (Slide.backgroundImageSearchQuery slide)
             (Slide.animation slide) (Slide.titleStyle slide) (Slide.contentStyle slide).
Proof. reflexivity. Qed.

(** What the handler does with the text the service call resolves to. *)
Lemma handleAiContentRefine_text (st : EditorState) (p : Presentation.t)
    (slide : Slide.t) (content : list string) (reply : RefineReply) (text : string) :
  presentation st = Some p ->
  JS.dense (Presentation.slides p) = true ->
  JS.arrayGet (Presentation.slides p) (selectedSlideIndex st) = Some slide ->
  Slide.content slide = Some content ->
  aiContentPrompt st <> "" ->
  generateSlideContentImprovement (JS.join JS.newline content) (aiContentPrompt st) reply
  = Some text ->
  let slide' :=
    Slide.mk (Slide.id slide) (Slide.title slide) (Some (refinedBullets text))
             (Slide.backgroundImage slide) (Slide.backgroundImageSearchQuery slide)
             (Slide.animation slide) (Slide.titleStyle slide) (Slide.contentStyle slide) in
  let st' := handleAiContentRefine reply st in
  presentation st'
  = Some (Presentation.withSlides p
            (<[Z.to_nat (selectedSlideIndex st) := JS.Elem slide']> (Presentation.slides p)))
  /\ selectedSlideIndex st' = selectedSlideIndex st
  /\ toastMessage st' = Some "Content refined!"
  /\ aiContentPrompt st' = ""
  /\ isAiLoading st' = false.
Proof.
  intros Hp Hd Hslide Hcontent Hprompt Hgen slide' st'. subst slide' st'.
  unfold handleAiContentRefine. rewrite Hp.
  destruct (String.eqb_spec (aiContentPrompt st) "") as [E|_]; [contradiction |].
  unfold refineAttempt.
  cbn [setIsAiLoading selectedSlideIndex aiContentPrompt].
  rewrite Hslide, Hcontent. cbn [mbind Completion_bind]. rewrite Hgen.
  cbn [mbind Completion_bind]. unfold updateSlide.
  change (presentation (setIsAiLoading true st)) with (presentation st). rewrite Hp.
  cbn [setIsAiLoading selectedSlideIndex].
  rewrite (spreadCopy_dense _ Hd), Hslide.
  rewrite (arraySet_in_range _ _ _ (arrayGet_in_range _ _ _ Hslide)).
  rewrite spread_content. cbn [JS.toSlot].
  split; [| repeat split].
  match goal with
  | |- presentation (setIsAiLoading _ (setToastMessage _ (setAiContentPrompt _
         (setPresentation ?x ?s)))) = _ =>
      change (presentation (setPresentation x s) = x)
  end.
  apply (setPresentation_dense _ p); [exact Hp | exact Hd |].
  cbn [Presentation.withSlides Presentation.slides]. now apply dense_insert.
Qed.

(** *** The pieces of the parsing, one by one *)

Lemma split_nonempty (sep : ascii) (s : string) : JS.split sep s <> [].
Proof.
  destruct s as [|c s]; cbn [JS.split]; [discriminate |].
  destruct (Ascii.eqb c sep); [discriminate |].
  destruct (JS.split sep s); discriminate.
Qed.

(** Joining the pieces with the separator gives the text back. *)
Lemma join_split (sep : ascii) (s : string) :
  JS.join (String sep EmptyString) (JS.split sep s) = s.
Proof.
  induction s as [|c s IH]; [reflexivity |].
  cbn [JS.split]. pose proof (split_nonempty sep s) as Hne.
  destruct (Ascii.eqb_spec c sep) as [->|_].
  - destruct (JS.split sep s) as [|x xs]; [contradiction |].
    change (JS.join (String sep "") ("" :: x :: xs))
      with (String sep (JS.join (String sep "") (x :: xs))).
    now rewrite IH.
  - destruct (JS.split sep s) as [|x xs]; [contradiction |].
    destruct xs as [|y ys].
    + cbn [JS.join] in *. now rewrite IH.
    + change (JS.join (String sep "") (String c x :: y :: ys))
        with (String c (JS.join (String sep "") (x :: y :: ys))).
      now rewrite IH.
Qed.

(** No piece contains the separator. *)
Lemma split_no_sep (sep : ascii) (s : string) :
  Forall (fun piece => JS.allChars (fun c => negb (Ascii.eqb c sep)) piece = true)
         (JS.split sep s).
Proof.
  induction s as [|c s IH]; [repeat constructor |].
  cbn [JS.split]. destruct (Ascii.eqb c sep) eqn:Hc; [constructor; [reflexivity | exact IH] |].
  destruct (JS.split sep s) as [|x xs]; [repeat constructor; cbn; now rewrite Hc |].
  inversion IH as [|? ? Hx Hxs]; subst. constructor; [| exact Hxs].
  cbn [JS.allChars]. now rewrite Hc, Hx.
Qed.

Lemma trimEnd_blank (s : string) :
  JS.trimEnd s = "" <-> JS.allChars JS.isWhiteSpace s = true.
Proof.
  induction s as [|c s IH]; [easy |].
  cbn [JS.trimEnd JS.allChars].
  destruct (JS.trimEnd s) eqn:E.
  - destruct (JS.isWhiteSpace c); cbn [andb]; [tauto |].
    split; discriminate.
  - split; [discriminate |]. intros [_ H]%andb_true_iff.
    apply IH in H. discriminate H.
Qed.

Lemma trimEnd_cons_nonblank (c : ascii) (s : string) :
  JS.isWhiteSpace c = false -> JS.trimEnd (String c s) <> "".
Proof.
  intros Hc. cbn [JS.trimEnd]. destruct (JS.trimEnd s); [rewrite Hc |]; discriminate.
Qed.

(** A line is dropped exactly when all its characters are white space. *)
Lemma trim_blank (s : string) :
  JS.trim s = "" <-> JS.allChars JS.isWhiteSpace s = true.
Proof.
  unfold JS.trim. induction s as [|c s IH]; [easy |].
  cbn [JS.trimStart JS.allChars]. destruct (JS.isWhiteSpace c) eqn:Hc; [exact IH |].
  cbn [andb]. split; [| discriminate].
  intros H. now apply trimEnd_cons_nonblank in H.
Qed.

(** The marker is removed where the line starts with it, and only there. *)
Lemma stripBulletMarker_spec (l : string) :
  (forall rest, l = "- " +:+ rest -> JS.stripBulletMarker l = rest)
  /\ (JS.startsWith "- " l = false -> JS.stripBulletMarker l = l).
Proof.
  split.
  - intros rest ->. reflexivity.
  - unfold JS.startsWith. destruct l as [|a l]; [reflexivity |].
    intros H. destruct (ascii_dec a "-") as [->|Ha].
    + destruct l as [|b l]; [reflexivity |].
      destruct (ascii_dec b " ") as [->|Hb].
      * rewrite !prefix_cons in H. now destruct l.
      * destruct b as [[] [] [] [] [] [] [] []]; try reflexivity. now contradiction Hb.
    + destruct a as [[] [] [] [] [] [] [] []]; try reflexivity. now contradiction Ha.
Qed.

(** *** The parsing meets the wording of the specification *)

Lemma join_concat (sep : string) (l : list string) : JS.join sep l = String.concat sep l.
Proof.
  induction l as [|x l IH]; [reflexivity |].
  destruct l as [|y l]; [reflexivity |].
  change (x +:+ sep +:+ JS.join sep (y :: l) = x +:+ sep +:+ String.concat sep (y :: l)).
  now rewrite IH.
Qed.

Lemma allChars_not_in (sep : ascii) (s : string) :
  JS.allChars (fun c => negb (Ascii.eqb c sep)) s = true ->
  ~ In sep (list_ascii_of_string s).
Proof.
  induction s as [|c s IH]; cbn [JS.allChars list_ascii_of_string In]; [tauto |].
  intros [Hc Hs]%andb_true_iff [E | Hin].
  - subst c. rewrite Ascii.eqb_refl in Hc. discriminate Hc.
  - now apply IH.
Qed.

(** [split] gives the lines of the text. *)
Lemma LinesOf_split (text : string) : LinesOf text (JS.split JS.LF text).
Proof.
  split; [apply split_nonempty |]. split.
  - rewrite <- join_concat. apply (join_split JS.LF).
  - apply List.Forall_forall. intros l Hl.
    pose proof (split_no_sep JS.LF text) as Hs. rewrite List.Forall_forall in Hs.
    apply allChars_not_in. now apply Hs.
Qed.

Lemma line_head_unique (x y r1 r2 : string) :
  ~ In "010"%char (list_ascii_of_string x) ->
  ~ In "010"%char (list_ascii_of_string y) ->
  (r1 = "" \/ exists t, r1 = String "010" t) ->
  (r2 = "" \/ exists t, r2 = String "010" t) ->
  x +:+ r1 = y +:+ r2 -> x = y /\ r1 = r2.
Proof.
  revert y. induction x as [|a x IH]; intros [|b y] Hx Hy H1 H2 E; simpl append in E.
  - now split.
  - exfalso. destruct H1 as [-> | [t ->]]; [discriminate E |].
    injection E as <- _. apply Hy. now left.
  - exfalso. destruct H2 as [-> | [t ->]]; [discriminate E |].
    injection E as -> _. apply Hx. now left.
  - injection E as -> E. cbn [list_ascii_of_string In] in Hx, Hy.
    destruct (IH y) as [-> ->]; try assumption; [tauto | tauto | now split].
Qed.

Lemma concat_cons (sep x : string) (xs : list string) :
  String.concat sep (x :: xs)
  = x +:+ match xs with
          | [] => ""
          | _ :: _ => sep +:+ String.concat sep xs
          end.
Proof. destruct xs; cbn [String.concat]; [now rewrite append_nil_r | reflexivity]. Qed.

(** A text has one list of lines. *)
Lemma LinesOf_unique (text : string) (l1 l2 : list string) :
  LinesOf text l1 -> LinesOf text l2 -> l1 = l2.
Proof.
  intros (N1 & C1 & F1) (N2 & C2 & F2). rewrite <- C2 in C1. clear C2 text.
  revert l2 N1 N2 F1 F2 C1.
  induction l1 as [|x xs IH]; intros [|y ys] N1 N2 F1 F2 E; try congruence.
  rewrite !concat_cons in E.
  inversion F1 as [|? ? Hx Fxs]; subst. inversion F2 as [|? ? Hy Fys]; subst.
  match type of E with
  | _ +:+ ?r1 = _ +:+ ?r2 =>
      assert (H1 : r1 = "" \/ exists t, r1 = String "010" t)
        by (destruct xs; [left | right; eexists]; reflexivity);
      assert (H2 : r2 = "" \/ exists t, r2 = String "010" t)
        by (destruct ys; [left | right; eexists]; reflexivity);
      destruct (line_head_unique x y r1 r2 Hx Hy H1 H2 E) as [-> Er]
  end.
  f_equal. destruct xs as [|x' xs], ys as [|y' ys]; try reflexivity; try discriminate Er.
  apply IH; try discriminate; try assumption.
  simpl append in Er. now injection Er.
Qed.

Lemma isWhiteSpace_chars (c : ascii) :
  JS.isWhiteSpace c = existsb (Ascii.eqb c) whiteSpaceChars.
Proof. destruct c as [[] [] [] [] [] [] [] []]; vm_compute; reflexivity. Qed.

(** The lines [filter] keeps are the lines that are not blank. *)
Lemma isBlankLine_trim (l : string) :
  (0 <? String.length (JS.trim l))%nat = negb (isBlankLine l).
Proof.
  assert (E : isBlankLine l = JS.allChars JS.isWhiteSpace l).
  { unfold isBlankLine. induction l as [|c l IH]; [reflexivity |].
    cbn [list_ascii_of_string forallb JS.allChars]. now rewrite IH, isWhiteSpace_chars. }
  rewrite E. destruct (JS.trim l) eqn:Ht.
  - apply trim_blank in Ht. now rewrite Ht.
  - destruct (JS.allChars JS.isWhiteSpace l) eqn:Hb; [| reflexivity].
    apply trim_blank in Hb. congruence.
Qed.

(** [replace] takes the marker off. *)
Lemma Unmarked_stripBulletMarker (l : string) : Unmarked l (JS.stripBulletMarker l).
Proof.
  destruct (JS.startsWith "- " l) eqn:Hs.
  - unfold JS.startsWith in Hs. apply prefix_head in Hs as Hl. destruct Hl as [l1 ->].
    rewrite prefix_cons in Hs. apply prefix_head in Hs as [l2 ->].
    exact (unmarked_strip l2).
  - rewrite (proj2 (stripBulletMarker_spec l) Hs). apply unmarked_keep.
    intros rest ->. unfold JS.startsWith in Hs. rewrite !prefix_cons in Hs.
    destruct rest; discriminate Hs.
Qed.

Lemma Unmarked_fun (l a b : string) : Unmarked l a -> Unmarked l b -> a = b.
Proof.
  intros Ha Hb. destruct Ha as [r | l Hl].
  - inversion Hb as [r' E | l' Hl' E]; [reflexivity |].
    exfalso. now apply (Hl' r).
  - destruct Hb as [r | l _]; [| reflexivity].
    exfalso. now apply (Hl r).
Qed.

Lemma Forall2_Unmarked_map (l : list string) :
  Forall2 Unmarked l (List.map JS.stripBulletMarker l).
Proof.
  induction l as [|x l IH]; cbn [List.map]; constructor;
    [apply Unmarked_stripBulletMarker | exact IH].
Qed.

Lemma Forall2_Unmarked_fun (l a b : list string) :
  Forall2 Unmarked l a -> Forall2 Unmarked l b -> a = b.
Proof.
  intros Ha. revert b. induction Ha as [|x y l a Hxy Hla IH]; intros b Hb.
  - now inversion Hb.
  - inversion Hb as [|? z ? b' Hxz Hlb]; subst. f_equal.
    + exact (Unmarked_fun x y z Hxy Hxz).
    + now apply IH.
Qed.

(** The bullets of the handler are the content the specification asks
    for, and no other list is. *)
Lemma refinedBullets_spec (response : string) :
  RefinedContent response (refinedBullets response).
Proof.
  exists (JS.split JS.LF response). split; [apply LinesOf_split |].
  unfold refinedBullets.
  rewrite (List.filter_ext (fun l => (0 <? String.length (JS.trim l))%nat)
             (fun l => negb (isBlankLine l)) isBlankLine_trim).
  apply Forall2_Unmarked_map.
Qed.

Lemma RefinedContent_unique (response : string) (a b : list string) :
  RefinedContent response a -> RefinedContent response b -> a = b.
Proof.
  intros (l1 & L1 & H1) (l2 & L2 & H2).
  rewrite (LinesOf_unique response l2 l1 L2 L1) in H2.
  exact (Forall2_Unmarked_fun _ a b H1 H2).
Qed.

(** C8. When the backend answers with a response string, the content of
    the selected slide becomes the content the specification asks for:
    the lines of the response (the pieces between its newlines), without
    the lines that hold white space only, and with the hyphen and the
    space at the start of a line removed from each line that starts with
    them. There is one such list. The other keys of the slide and the
    other slides are as before. *)
Theorem content_refinement_success (st : EditorState) (p : Presentation.t)
    (slide : Slide.t) (content : list string) (response : string) :
  presentation st = Some p ->
  JS.dense (Presentation.slides p) = true ->
  JS.arrayGet (Presentation.slides p) (selectedSlideIndex st) = Some slide ->
  Slide.content slide = Some content ->
  aiContentPrompt st <> "" ->
  let st' := handleAiContentRefine (Body (ContentText response)) st in
  exists p' slide' bullets,
    RefinedContent response bullets
    /\ (forall other, RefinedContent response other -> other = bullets)
    /\ presentation st' = Some p'
    /\ JS.arrayGet (Presentation.slides p') (selectedSlideIndex st) = Some slide'
    /\ Slide.content slide' = Some bullets
    /\ slide' = Slide.mk (Slide.id slide) (Slide.title slide) (Some bullets)
                   (Slide.backgroundImage slide) (Slide.backgroundImageSearchQuery slide)
                   (Slide.animation slide) (Slide.titleStyle slide)
                   (Slide.contentStyle slide)
    /\ Presentation.slides p'
       = <[Z.to_nat (selectedSlideIndex st) := JS.Elem slide']> (Presentation.slides p)
    /\ toastMessage st' = Some "Content refined!".
Proof.
  intros Hp Hd Hslide Hcontent Hprompt st'.
  destruct (handleAiContentRefine_text st p slide content (Body (ContentText response))
              response Hp Hd Hslide Hcontent Hprompt eq_refl) as (E & _ & Ht & _).
  fold st' in E, Ht.
  eexists _, _, (refinedBullets response).
  split; [apply refinedBullets_spec |].
  split.
  { intros other Ho. exact (RefinedContent_unique response _ _ Ho (refinedBullets_spec _)). }
  split; [exact E |].
  cbn [Presentation.withSlides Presentation.slides].
  split; [apply arrayGet_insert; now apply (arrayGet_in_range _ _ slide) |].
  repeat split. exact Ht.
Qed.

(** The example of the specification, and a response with a line of white
    space, a marker that is not at the start of its line and a hyphen
    without a space. *)
Lemma content_refinement_success_witness :
  presentation editorPrompted = Some (samplePresentation [JS.Elem slideA])
  /\ aiContentPrompt editorPrompted <> ""
  /\ (exists p' slide',
        presentation (handleAiContentRefine (Body (ContentText sampleResponse)) editorPrompted)
        = Some p'
        /\ Presentation.slides p' = [JS.Elem slide']
        /\ Slide.content slide' = Some ["Point one"; "Point two"; "Point three"])
  /\ (exists p' slide',
        presentation (handleAiContentRefine (Body (ContentText spacedResponse)) editorPrompted)
        = Some p'
        /\ Presentation.slides p' = [JS.Elem slide']
        /\ Slide.content slide' = Some ["one"; " - two"; "-three"])
  /\ refinedBullets spacedResponse = ["one"; " - two"; "-three"].
Proof.
  split; [reflexivity |]. split; [discriminate |].
  assert (Hkeep : forall line, (forall rest, line <> String "-" (String " " rest)) ->
                               Unmarked line line) by (intros; now apply unmarked_keep).
  split; [| split; [| reflexivity]].
  - destruct (content_refinement_success editorPrompted _ slideA ["- a"] sampleResponse
                eq_refl eq_refl eq_refl eq_refl ltac:(discriminate))
      as (p' & slide' & bullets & _ & Hone & Hp' & _ & Hc & _ & Hs & _).
    exists p', slide'. split; [exact Hp' |]. split; [exact Hs |].
    rewrite Hc. f_equal. symmetry. apply Hone.
    exists ["- Point one"; ""; "Point two"; "- Point three"]. split.
    + split; [discriminate |]. split; [reflexivity |].
      repeat (constructor; [apply allChars_not_in; reflexivity |]). constructor.
    + vm_compute.
      constructor; [apply unmarked_strip |].
      constructor; [apply Hkeep; intros rest E; discriminate E |].
      constructor; [apply unmarked_strip | constructor].
  - destruct (content_refinement_success editorPrompted _ slideA ["- a"] spacedResponse
                eq_refl eq_refl eq_refl eq_refl ltac:(discriminate))
      as (p' & slide' & bullets & _ & Hone & Hp' & _ & Hc & _ & Hs & _).
    exists p', slide'. split; [exact Hp' |]. split; [exact Hs |].
    rewrite Hc. f_equal. symmetry. apply Hone.
    exists ["- one"; String " " (String "009" " "); " - two"; "-three"]. split.
    + split; [discriminate |]. split; [reflexivity |].
      repeat (constructor; [apply allChars_not_in; reflexivity |]). constructor.
    + vm_compute.
      constructor; [apply unmarked_strip |].
      constructor; [apply Hkeep; intros rest E; discriminate E |].
      constructor; [apply Hkeep; intros rest E; discriminate E | constructor].
Defined.

(** *** Failure of the backend call *)

(** The service call answers every failure with the text it was given. *)
Lemma generateSlideContentImprovement_failed (currentContent instruction : string)
    (reply : RefineReply) :
  refineFailed reply = true ->
  generateSlideContentImprovement currentContent instruction reply = Some currentContent.
Proof. destruct reply; try discriminate; reflexivity. Qed.

(** So the handler treats a failed call as a successful one: the content
    is parsed again from its own text, and the success notice is shown. *)
Lemma refinement_failure_swallowed (st : EditorState) (p : Presentation.t)
    (slide : Slide.t) (content : list string) (reply : RefineReply) :
  presentation st = Some p ->
  JS.dense (Presentation.slides p) = true ->
  JS.arrayGet (Presentation.slides p) (selectedSlideIndex st) = Some slide ->
  Slide.content slide = Some content ->
  aiContentPrompt st <> "" ->
  refineFailed reply = true ->
  let st' := handleAiContentRefine reply st in
  toastMessage st' = Some "Content refined!"
  /\ exists p' slide',
      presentation st' = Some p'
      /\ JS.arrayGet (Presentation.slides p') (selectedSlideIndex st) = Some slide'
      /\ Slide.content slide' = Some (refinedBullets (JS.join JS.newline content)).
Proof.
  intros Hp Hd Hslide Hcontent Hprompt Hfail st'.
  destruct (handleAiContentRefine_text st p slide content reply _ Hp Hd Hslide Hcontent
              Hprompt (generateSlideContentImprovement_failed _ _ _ Hfail))
    as (E & _ & Ht & _).
  fold st' in E, Ht. split; [exact Ht |].
  eexists _, _. split; [exact E |].
  cbn [Presentation.withSlides Presentation.slides].
  split; [apply arrayGet_insert; now apply (arrayGet_in_range _ _ slide) | reflexivity].
Qed.

(** The [catch] branch of the handler does what the specification asks,
    when an error reaches it: a response whose [content] is not a string
    makes [split] throw, the failure notice is shown and the history is
    untouched. *)
Lemma refinement_catch_branch (st : EditorState) (p : Presentation.t)
    (slide : Slide.t) (content : list string) :
  presentation st = Some p ->
  JS.arrayGet (Presentation.slides p) (selectedSlideIndex st) = Some slide ->
  Slide.content slide = Some content ->
  aiContentPrompt st <> "" ->
  let st' := handleAiContentRefine (Body ContentOther) st in
  toastMessage st' = Some "Failed to refine content."
  /\ history st' = history st.
Proof.
  intros Hp Hslide Hcontent Hprompt st'. subst st'.
  unfold handleAiContentRefine. rewrite Hp.
  destruct (String.eqb_spec (aiContentPrompt st) "") as [E|_]; [contradiction |].
  unfold refineAttempt. cbn [setIsAiLoading selectedSlideIndex aiContentPrompt].
  rewrite Hslide, Hcontent. cbn. split; reflexivity.
Qed.

(** C9, the code at a failing call. The request is rejected: the slide
    content ["- a"] is replaced by ["a"] and the notice reads
    "Content refined!", where the claim asks for unchanged content and a
    failure notice. *)
Theorem refinement_failure_not_atomic :
  let st' := handleAiContentRefine (FetchRejected "Failed to fetch") editorPrompted in
  (Presentation.slides <$> presentation editorPrompted)
  = Some [JS.Elem (sampleSlide "slide-0-1700000000000" "Intro" ["- a"])]
  /\ (Presentation.slides <$> presentation st')
     = Some [JS.Elem (sampleSlide "slide-0-1700000000000" "Intro" ["a"])]
  /\ toastMessage st' = Some "Content refined!"
  /\ toastMessage st' <> Some "Failed to refine content.".
Proof. vm_compute. repeat split. discriminate. Qed.

(** * Further properties of the code *)

(** ** The history engine, continued *)

Section TimelineFacts.
Context {T : Type} `{Serializable T}.
Implicit Types (h : History.HistoryState T) (x y : T).

Lemma undo_cases h :
  (History.past h = [] /\ History.undo h = h)
  \/ exists ps p,
      History.past h = (ps ++ [p])%list
      /\ History.undo h
         = History.mkHistory ps p (History.present h :: History.future h).
Proof.
  destruct h as [ps c fs]. cbn [History.past History.present History.future].
  destruct ps as [|p ps _] using rev_ind.
  - left. split; reflexivity.
  - right. exists ps, p. split; [reflexivity | apply undo_snoc].
Qed.

Lemma redo_cases h :
  (History.future h = [] /\ History.redo h = h)
  \/ exists n fs,
      History.future h = n :: fs
      /\ History.redo h
         = History.mkHistory (History.past h ++ [History.present h]) n fs.
Proof.
  destruct h as [ps c [|n fs]]; [left | right; exists n, fs]; split; reflexivity.
Qed.

Lemma adjacentDistinct_snoc (l : list T) (a b : T) :
  adjacentDistinct (l ++ [a]) -> JSON_stringify a <> JSON_stringify b ->
  adjacentDistinct ((l ++ [a]) ++ [b]).
Proof.
  induction l as [|x l IH]; intros Hl Hab.
  - cbn. tauto.
  - cbn [app adjacentDistinct] in *. destruct Hl as [Hx Hl]. split; [| now apply IH].
    destruct l; exact Hx.
Qed.

Lemma reachedBySets_timeline init h :
  History.reachedBySets init h ->
  adjacentDistinct (History.past h ++ [History.present h])
  /\ head (History.past h ++ [History.present h]) = Some init.
Proof.
  induction 1 as [|x h Hr [IHd IHh]]; [cbn; tauto |].
  unfold History.set.
  destruct (String.eqb_spec (JSON_stringify (History.present h)) (JSON_stringify x))
    as [E|Hne]; [tauto |].
  cbn [History.past History.present]. split.
  - apply adjacentDistinct_snoc; [exact IHd | exact Hne].
  - destruct (History.past h ++ [History.present h])%list; [discriminate | exact IHh].
Qed.

Lemma adjacentDistinct_lookup (l : list T) (i : nat) (a b : T) :
  adjacentDistinct l -> l !! i = Some a -> l !! S i = Some b ->
  JSON_stringify a <> JSON_stringify b.
Proof.
  revert i. induction l as [|x l IH]; intros i Hl Ha Hb; [discriminate Ha |].
  cbn [adjacentDistinct] in Hl. destruct Hl as [Hx Hl].
  destruct i as [|i].
  - injection Ha as <-. destruct l as [|y l]; [discriminate Hb |].
    injection Hb as <-. exact Hx.
  - exact (IH i Hl Ha Hb).
Qed.

Lemma iter_undo_past (n : nat) :
  forall h,
    length (History.past h) = n ->
    History.past (Nat.iter n History.undo h) = []
    /\ timeline (Nat.iter n History.undo h) = timeline h.
Proof.
  induction n as [|n IH]; intros h Hlen.
  - split; [| reflexivity]. change (History.past h = []). now apply nil_length_inv.
  - rewrite Nat.iter_succ_r.
    destruct (undo_cases h) as [[Hp _] | (ps & p & Hp & ->)];
      [rewrite Hp in Hlen; discriminate |].
    rewrite Hp, length_app in Hlen. cbn [length] in Hlen.
    destruct (IH (History.mkHistory ps p (History.present h :: History.future h)))
      as [Hpast Htl]; [cbn [History.past]; lia |].
    split; [exact Hpast |]. rewrite Htl. unfold timeline.
    cbn [History.past History.present History.future]. rewrite Hp.
    now rewrite <- !app_assoc.
Qed.

End TimelineFacts.

(** X1. [undo] and [redo] only move the position in the timeline: the
    sequence of all snapshots, oldest first, is the same before and
    after. *)
Theorem undo_redo_keep_timeline {T : Type} `{Serializable T} (h : History.HistoryState T) :
  timeline (History.undo h) = timeline h /\ timeline (History.redo h) = timeline h.
Proof.
  split.
  - destruct (undo_cases h) as [[_ ->] | (ps & p & Hp & ->)]; [reflexivity |].
    unfold timeline. cbn [History.past History.present History.future]. rewrite Hp.
    now rewrite <- !app_assoc.
  - destruct (redo_cases h) as [[_ ->] | (n & fs & Hf & ->)]; [reflexivity |].
    unfold timeline. cbn [History.past History.present History.future]. rewrite Hf.
    now rewrite <- !app_assoc.
Qed.

(** X2. An edit can be undone: after [set(y)] with a [y] that is not
    deep-equal to the present, [undo()] gives back the past and the
    present of before, and [y] is the one snapshot to redo. *)
Theorem undo_after_set {T : Type} `{Serializable T} (h : History.HistoryState T) (y : T) :
  ~ History.deepEqual y (History.present h) ->
  History.undo (History.set y h)
  = {| History.past := History.past h;
       History.present := History.present h;
       History.future := [y] |}.
Proof. intros Hne. rewrite (set_not_deepEqual h y Hne). apply undo_snoc. Qed.

Lemma undo_after_set_witness :
  ~ History.deepEqual (JSON.Str "B") (History.present (History.useHistory (JSON.Str "A")))
  /\ History.undo (History.set (JSON.Str "B") (History.useHistory (JSON.Str "A")))
     = History.mkHistory [] (JSON.Str "A") [JSON.Str "B"].
Proof.
  assert (Hne : ~ History.deepEqual (JSON.Str "B")
                   (History.present (History.useHistory (JSON.Str "A"))))
    by (vm_compute; discriminate).
  split; [exact Hne |].
  exact (undo_after_set (History.useHistory (JSON.Str "A")) (JSON.Str "B") Hne).
Defined.

(** X3. [undo] cancels [redo]: when there is something to redo, [redo()]
    followed by [undo()] gives the state of before. *)
Theorem undo_after_redo {T : Type} `{Serializable T} (h : History.HistoryState T) :
  History.future h <> [] -> History.undo (History.redo h) = h.
Proof.
  intros Hf. destruct (redo_cases h) as [[E _] | (n & fs & E & ->)]; [contradiction |].
  rewrite undo_snoc. destruct h as [ps c fs']. cbn [History.future] in E. now subst fs'.
Qed.

Lemma undo_after_redo_witness :
  let h := History.mkHistory [JSON.Str "A"] (JSON.Str "B") [JSON.Str "C"] in
  History.future h <> [] /\ History.undo (History.redo h) = h.
Proof.
  assert (Hf : History.future
                 (History.mkHistory [JSON.Str "A"] (JSON.Str "B") [JSON.Str "C"]) <> [])
    by discriminate.
  split; [exact Hf |].
  exact (undo_after_redo _ Hf).
Defined.

(** X4. [set] never records a snapshot with the JSON text of the one
    before it: in a history reached by [set] calls, two neighbours in the
    undo log (the past followed by the present) never have the same
    [JSON.stringify] text, and the log starts with the initial snapshot.
    (Neighbours may still be deep-equal, their keys in another order.) *)
Theorem set_log_has_no_duplicates {T : Type} `{Serializable T}
    (initialPresent : T) (h : History.HistoryState T) :
  History.reachedBySets initialPresent h ->
  let log := (History.past h ++ [History.present h])%list in
  (forall i a b, log !! i = Some a -> log !! S i = Some b ->
                 JSON_stringify a <> JSON_stringify b)
  /\ log !! 0%nat = Some initialPresent.
Proof.
  intros Hr log. destruct (reachedBySets_timeline initialPresent h Hr) as [Hd Hhd].
  split.
  - intros i a b. now apply adjacentDistinct_lookup.
  - subst log. now destruct (History.past h ++ [History.present h])%list.
Qed.

Lemma set_log_has_no_duplicates_witness :
  let h := History.set (JSON.Str "B")
             (History.set (JSON.Str "B")
                (History.set (JSON.Str "B") (History.useHistory (JSON.Str "A")))) in
  History.reachedBySets (JSON.Str "A") h
  /\ History.past h = [JSON.Str "A"]
  /\ JSON_stringify (JSON.Str "A") <> JSON_stringify (JSON.Str "B").
Proof.
  assert (Hr : History.reachedBySets (JSON.Str "A")
                 (History.set (JSON.Str "B")
                    (History.set (JSON.Str "B")
                       (History.set (JSON.Str "B") (History.useHistory (JSON.Str "A"))))))
    by (repeat apply History.reached_set; apply History.reached_init).
  split; [exact Hr |]. split; [reflexivity |].
  exact (proj1 (set_log_has_no_duplicates _ _ Hr) 0%nat _ _ eq_refl eq_refl).
Defined.

(** X5. Undoing every edit returns to the document the editor was opened
    on: in a history reached by [set] calls, as many [undo()] as the past
    is long leave an empty past, the initial snapshot as present, and
    everything that came after it to redo. *)
Theorem undo_all_restores_initial {T : Type} `{Serializable T}
    (initialPresent : T) (h : History.HistoryState T) :
  History.reachedBySets initialPresent h ->
  let h0 := Nat.iter (length (History.past h)) History.undo h in
  History.past h0 = []
  /\ History.present h0 = initialPresent
  /\ History.canUndo h0 = false
  /\ initialPresent :: History.future h0
     = (History.past h ++ [History.present h])%list.
Proof.
  intros Hr h0.
  destruct (iter_undo_past (length (History.past h)) h eq_refl) as [Hp Ht].
  fold h0 in Hp, Ht.
  destruct (reachedBySets_timeline initialPresent h Hr) as [_ Hhd].
  pose proof (reachedBySets_future initialPresent h Hr) as Hf.
  unfold timeline in Ht. rewrite Hp, Hf in Ht. cbn [app] in Ht.
  rewrite ?app_nil_r in Ht.
  assert (Hpres : History.present h0 = initialPresent).
  { rewrite <- Ht in Hhd. now injection Hhd. }
  split; [exact Hp |]. split; [exact Hpres |].
  split; [unfold History.canUndo; now rewrite Hp |].
  now rewrite <- Hpres.
Qed.

Lemma undo_all_restores_initial_witness :
  let h := History.set (JSON.Str "C")
             (History.set (JSON.Str "B") (History.useHistory (JSON.Str "A"))) in
  History.reachedBySets (JSON.Str "A") h
  /\ History.present (History.undo (History.undo h)) = JSON.Str "A"
  /\ History.past (History.undo (History.undo h)) = [].
Proof.
  assert (Hr : History.reachedBySets (JSON.Str "A")
                 (History.set (JSON.Str "C")
                    (History.set (JSON.Str "B") (History.useHistory (JSON.Str "A")))))
    by (repeat apply History.reached_set; apply History.reached_init).
  split; [exact Hr |].
  destruct (undo_all_restores_initial _ _ Hr) as (Hp & Hc & _).
  split; [exact Hc | exact Hp].
Defined.

(** ** The editor page, continued *)

Lemma allElems_dense {A} (a : list (JS.Slot A)) : allElems a = true -> JS.dense a = true.
Proof.
  induction a as [|x a IH]; [reflexivity |].
  cbn [allElems JS.dense forallb]. intros [Hx Ha]%andb_true_iff.
  apply andb_true_iff. split; [now destruct x | now apply IH].
Qed.

Lemma allElems_lookup {A} (a : list (JS.Slot A)) (n : nat) :
  allElems a = true -> (n < length a)%nat -> exists x, a !! n = Some (JS.Elem x).
Proof.
  revert n. induction a as [|y a IH]; intros n Ha Hn; [cbn in Hn; lia |].
  cbn [allElems forallb] in Ha. apply andb_true_iff in Ha as [Hy Ha].
  destruct n as [|n].
  - destruct y as [| |x]; try discriminate. now exists x.
  - apply (IH n Ha). cbn in Hn. lia.
Qed.

Lemma allElems_arrayGet {A} (a : list (JS.Slot A)) (i : Z) :
  allElems a = true -> 0 <= i < Z.of_nat (length a) ->
  exists x, a !! Z.to_nat i = Some (JS.Elem x) /\ JS.arrayGet a i = Some x.
Proof.
  intros Ha Hi. destruct (allElems_lookup a (Z.to_nat i) Ha) as [x Hx]; [lia |].
  exists x. split; [exact Hx |]. unfold JS.arrayGet.
  destruct (Z.ltb_spec i 0); [lia |]. now rewrite Hx.
Qed.

Lemma allElems_insert {A} (a : list (JS.Slot A)) (n : nat) (x : A) :
  allElems a = true -> allElems (<[n := JS.Elem x]> a) = true.
Proof.
  revert n. induction a as [|y a IH]; intros n; [reflexivity |].
  cbn [allElems forallb]. intros [Hy Ha]%andb_true_iff.
  destruct n as [|n]; cbn [allElems forallb]; apply andb_true_iff; split; auto.
Qed.

Lemma allElems_app {A} (a b : list (JS.Slot A)) :
  allElems (a ++ b) = allElems a && allElems b.
Proof. apply forallb_app. Qed.

Lemma allElems_sub {A} (a b : list (JS.Slot A)) :
  b ⊆ a -> allElems a = true -> allElems b = true.
Proof.
  intros Hsub Ha. unfold allElems in *. rewrite forallb_forall in Ha.
  apply forallb_forall. intros x Hx. apply Ha.
  apply list_elem_of_In. apply Hsub. now apply list_elem_of_In.
Qed.

Lemma allElems_take_drop {A} (a : list (JS.Slot A)) (n m : nat) :
  allElems a = true -> allElems (take n a ++ drop m a) = true.
Proof.
  intros Ha. rewrite allElems_app. apply andb_true_iff. split.
  - exact (allElems_sub a _ (subseteq_take n a) Ha).
  - exact (allElems_sub a _ (subseteq_drop m a) Ha).
Qed.

(** What [updateSlide] does on a page that can render. *)
Lemma updateSlide_renderable (updates : Slide.t) (st : EditorState) (p : Presentation.t)
    (slide : Slide.t) :
  presentation st = Some p ->
  allElems (Presentation.slides p) = true ->
  JS.arrayGet (Presentation.slides p) (selectedSlideIndex st) = Some slide ->
  presentation (updateSlide updates st)
  = Some (Presentation.withSlides p
            (<[Z.to_nat (selectedSlideIndex st) := JS.Elem (spread (Some slide) updates)]>
               (Presentation.slides p)))
  /\ selectedSlideIndex (updateSlide updates st) = selectedSlideIndex st
  /\ toastMessage (updateSlide updates st) = toastMessage st.
Proof.
  intros Hp Ha Hslide. pose proof (allElems_dense _ Ha) as Hd.
  unfold updateSlide. rewrite Hp, (spreadCopy_dense _ Hd), Hslide.
  rewrite (arraySet_in_range _ _ _ (arrayGet_in_range _ _ _ Hslide)). cbn [JS.toSlot].
  split; [| split; reflexivity].
  apply (setPresentation_dense _ p); [exact Hp | exact Hd |].
  cbn [Presentation.withSlides Presentation.slides]. now apply dense_insert.
Qed.

Lemma spread_idempotent (old : option Slide.t) (updates : Slide.t) :
  spread (Some (spread old updates)) updates = spread old updates.
Proof.
  destruct updates as [[?|] [?|] [?|] [?|] [?|] [?|] [?|] [?|]]; reflexivity.
Qed.

Lemma withSlides_withSlides (p : Presentation.t) (a b : list (JS.Slot Slide.t)) :
  Presentation.withSlides (Presentation.withSlides p a) b = Presentation.withSlides p b.
Proof. reflexivity. Qed.

(** X6. [updateSlide] on a page that can render changes the selected
    slide and nothing else: the selected slide takes the keys of the
    update and keeps its other keys, every other position of the slide
    array, the number of slides and the selection are as before. *)
Theorem update_slide_frame (updates : Slide.t) (st : EditorState) (p : Presentation.t)
    (slide : Slide.t) :
  presentation st = Some p ->
  allElems (Presentation.slides p) = true ->
  selectedSlide st = Some slide ->
  let st' := updateSlide updates st in
  exists p' slide',
    presentation st' = Some p'
    /\ selectedSlide st' = Some slide'
    /\ mergedFrom slide updates slide'
    /\ (forall k, k <> selectedSlideIndex st ->
          JS.arrayGet (Presentation.slides p') k = JS.arrayGet (Presentation.slides p) k)
    /\ length (Presentation.slides p') = length (Presentation.slides p)
    /\ p' = Presentation.withSlides p (Presentation.slides p')
    /\ selectedSlideIndex st' = selectedSlideIndex st.
Proof.
  intros Hp Ha Hsel st'. unfold selectedSlide in Hsel. rewrite Hp in Hsel.
  destruct (updateSlide_renderable updates st p slide Hp Ha Hsel) as (E & Hs & _).
  fold st' in E, Hs.
  pose proof (arrayGet_in_range _ _ _ Hsel) as Hi.
  eexists _, (spread (Some slide) updates). split; [exact E |].
  unfold selectedSlide. rewrite E, Hs.
  cbn [Presentation.withSlides Presentation.slides].
  split; [now apply arrayGet_insert |].
  split; [destruct updates as [[?|] [?|] [?|] [?|] [?|] [?|] [?|] [?|]];
          repeat split |].
  split; [| split; [now rewrite length_insert | split; reflexivity]].
  intros k Hk. unfold JS.arrayGet. destruct (Z.ltb_spec k 0); [reflexivity |].
  rewrite list_lookup_insert_ne by lia. reflexivity.
Qed.

Lemma update_slide_frame_witness :
  presentation editor3
  = Some (samplePresentation [JS.Elem slideA; JS.Elem slideB; JS.Elem slideC])
  /\ selectedSlide editor3 = Some slideB
  /\ exists p' slide',
      presentation (updateSlide (Slide.mk None (Some "Middle") None None None None None None)
                      editor3) = Some p'
      /\ Presentation.slides p' = [JS.Elem slideA; JS.Elem slide'; JS.Elem slideC]
      /\ Slide.title slide' = Some "Middle"
      /\ Slide.content slide' = Slide.content slideB.
Proof.
  split; [reflexivity |]. split; [reflexivity |].
  destruct (update_slide_frame (Slide.mk None (Some "Middle") None None None None None None)
              editor3 _ slideB eq_refl eq_refl eq_refl)
    as (p' & slide' & Hp' & _ & (_ & Ht & Hc & _) & Hk & Hlen & _).
  exists p', (sampleSlide "slide-1-1700000000000" "Middle" ["b"]).
  split; [exact Hp' |]. split; [| split; reflexivity].
  vm_compute in Hp'. now injection Hp' as <-.
Defined.

(** X7. Repeating an update is not recorded twice: on a page that can
    render, [updateSlide] with the update it has just applied leaves the
    whole history (past, present, future) as it is. *)
Theorem update_slide_twice (updates : Slide.t) (st : EditorState) (p : Presentation.t)
    (slide : Slide.t) :
  presentation st = Some p ->
  allElems (Presentation.slides p) = true ->
  selectedSlide st = Some slide ->
  updateSlide updates (updateSlide updates st) = updateSlide updates st.
Proof.
  intros Hp Ha Hsel. unfold selectedSlide in Hsel. rewrite Hp in Hsel.
  destruct (updateSlide_renderable updates st p slide Hp Ha Hsel) as (E & Hs & _).
  pose proof (arrayGet_in_range _ _ _ Hsel) as Hi.
  set (st1 := updateSlide updates st) in *.
  set (slides1 := <[Z.to_nat (selectedSlideIndex st) :=
                      JS.Elem (spread (Some slide) updates)]> (Presentation.slides p)) in *.
  assert (Hd1 : JS.dense slides1 = true)
    by (apply allElems_dense; now apply allElems_insert).
  assert (Hget : JS.arrayGet slides1 (selectedSlideIndex st1)
                 = Some (spread (Some slide) updates))
    by (rewrite Hs; now apply arrayGet_insert).
  unfold updateSlide at 1. rewrite E.
  cbn [Presentation.withSlides Presentation.slides].
  rewrite (spreadCopy_dense _ Hd1), Hget.
  rewrite arraySet_in_range by (now apply (arrayGet_in_range _ _ (spread (Some slide) updates))).
  cbn [JS.toSlot]. rewrite spread_idempotent.
  rewrite list_insert_id.
  2:{ rewrite Hs. subst slides1. apply list_lookup_insert_eq. lia. }
  change (Presentation.withSlides (Presentation.withSlides p slides1) slides1)
    with (Presentation.withSlides p slides1).
  rewrite <- E. unfold setPresentation.
  rewrite (set_deepEqual (history st1) (presentation st1)) by reflexivity.
  now destruct st1.
Qed.

Lemma update_slide_twice_witness :
  selectedSlide editor1 = Some slideA
  /\ History.past (history (updateSlide (Slide.mk None (Some "T") None None None None None None)
                              (updateSlide
                                 (Slide.mk None (Some "T") None None None None None None)
                                 editor1)))
     = [presentation editor1].
Proof.
  split; [reflexivity |].
  rewrite (update_slide_twice (Slide.mk None (Some "T") None None None None None None)
             editor1 _ slideA eq_refl eq_refl eq_refl).
  reflexivity.
Defined.

(** Closes a goal [a <= i < b] between numerals, after evaluation. *)
Ltac in_range := vm_compute; split; [discriminate | reflexivity].

(** What [handleMoveSlide] does on a page that can render, when the
    neighbour exists. *)
Lemma handleMoveSlide_renderable (direction : Direction) (st : EditorState)
    (p : Presentation.t) :
  presentation st = Some p ->
  allElems (Presentation.slides p) = true ->
  let slides := Presentation.slides p in
  let s := selectedSlideIndex st in
  let t := moveTarget direction s in
  0 <= s < Z.of_nat (length slides) ->
  0 <= t < Z.of_nat (length slides) ->
  exists x y,
    slides !! Z.to_nat s = Some (JS.Elem x)
    /\ slides !! Z.to_nat t = Some (JS.Elem y)
    /\ presentation (handleMoveSlide direction st)
       = Some (Presentation.withSlides p
                 (<[Z.to_nat t := JS.Elem x]> (<[Z.to_nat s := JS.Elem y]> slides)))
    /\ selectedSlideIndex (handleMoveSlide direction st) = t.
Proof.
  intros Hp Ha slides s t Hs Ht. pose proof (allElems_dense _ Ha) as Hd.
  destruct (allElems_arrayGet slides s Ha Hs) as (x & Hx & Gx).
  destruct (allElems_arrayGet slides t Ha Ht) as (y & Hy & Gy).
  exists x, y. split; [exact Hx |]. split; [exact Hy |].
  assert (Hswap : swap (JS.spreadCopy slides) s t
                  = <[Z.to_nat t := JS.Elem x]> (<[Z.to_nat s := JS.Elem y]> slides)).
  { unfold swap. rewrite (spreadCopy_dense slides Hd). rewrite Gx, Gy.
    rewrite (arraySet_in_range slides s _ Hs).
    rewrite arraySet_in_range by (rewrite length_insert; exact Ht). reflexivity. }
  assert (Hdense : JS.dense (<[Z.to_nat t := JS.Elem x]> (<[Z.to_nat s := JS.Elem y]> slides))
                   = true) by (do 2 apply dense_insert; exact Hd).
  unfold handleMoveSlide. rewrite Hp. fold slides s.
  destruct direction; cbn [moveTarget] in *; fold t.
  - destruct (Z.ltb_spec 0 s); [| lia]. fold t in Hswap. rewrite Hswap.
    split; [| reflexivity]. rewrite presentation_setSelectedSlideIndex.
    now apply (setPresentation_dense _ p).
  - destruct (Z.ltb_spec s (Z.of_nat (length slides) - 1)); [| lia].
    fold t in Hswap. rewrite Hswap.
    split; [| reflexivity]. rewrite presentation_setSelectedSlideIndex.
    now apply (setPresentation_dense _ p).
Qed.

(** X8. Reorder: on a page that can render, moving the selected slide up
    or down is refused (the state is returned as it is) when there is no
    neighbour on that side; otherwise the selected slide and that
    neighbour change places, every other position and the number of
    slides are as before, and the selection follows the moved slide. *)
Theorem move_slide_spec (direction : Direction) (st : EditorState) (p : Presentation.t) :
  presentation st = Some p ->
  allElems (Presentation.slides p) = true ->
  let slides := Presentation.slides p in
  let s := selectedSlideIndex st in
  let t := moveTarget direction s in
  let st' := handleMoveSlide direction st in
  0 <= s < Z.of_nat (length slides) ->
  (~ 0 <= t < Z.of_nat (length slides) -> st' = st)
  /\ (0 <= t < Z.of_nat (length slides) ->
      exists p',
        presentation st' = Some p'
        /\ selectedSlideIndex st' = t
        /\ selectedSlide st' = selectedSlide st
        /\ JS.arrayGet (Presentation.slides p') s = JS.arrayGet slides t
        /\ (forall k, k <> s -> k <> t ->
              JS.arrayGet (Presentation.slides p') k = JS.arrayGet slides k)
        /\ length (Presentation.slides p') = length slides).
Proof.
  intros Hp Ha slides s t st' Hs. split.
  - intros Ht. subst st'. unfold handleMoveSlide. rewrite Hp. fold slides s.
    destruct direction; cbn [moveTarget] in *.
    + destruct (Z.ltb_spec 0 s); [lia | reflexivity].
    + destruct (Z.ltb_spec s (Z.of_nat (length slides) - 1)); [lia | reflexivity].
  - intros Ht.
    destruct (handleMoveSlide_renderable direction st p Hp Ha Hs Ht)
      as (x & y & Hx & Hy & E & Hsel).
    fold slides s t st' in Hx, Hy, E, Hsel.
    assert (Hst : s <> t) by (subst t; destruct direction; cbn; lia).
    eexists. split; [exact E |]. split; [exact Hsel |].
    cbn [Presentation.withSlides Presentation.slides].
    unfold selectedSlide. rewrite E, Hp, Hsel.
    cbn [Presentation.withSlides Presentation.slides]. fold slides s.
    unfold JS.arrayGet.
    destruct (Z.ltb_spec t 0); [lia |]. destruct (Z.ltb_spec s 0); [lia |].
    split; [| split; [| split]].
    + rewrite list_lookup_insert_eq by (rewrite length_insert; lia). now rewrite Hx.
    + rewrite list_lookup_insert_ne by lia.
      rewrite list_lookup_insert_eq by lia. now rewrite Hy.
    + intros k Hks Hkt. destruct (Z.ltb_spec k 0); [reflexivity |].
      now rewrite !list_lookup_insert_ne by lia.
    + now rewrite !length_insert.
Qed.

Lemma move_slide_spec_witness :
  presentation editor3
  = Some (samplePresentation [JS.Elem slideA; JS.Elem slideB; JS.Elem slideC])
  /\ presentation (handleMoveSlide Up editor3)
     = Some (samplePresentation [JS.Elem slideB; JS.Elem slideA; JS.Elem slideC])
  /\ selectedSlideIndex (handleMoveSlide Up editor3) = 0
  /\ handleMoveSlide Up (handleMoveSlide Up editor3) = handleMoveSlide Up editor3.
Proof.
  split; [reflexivity |].
  destruct (move_slide_spec Up editor3 _ eq_refl eq_refl ltac:(in_range)) as [_ Hmove].
  destruct (Hmove ltac:(in_range)) as (p' & Hp' & Hsel & _).
  split; [reflexivity |]. split; [exact Hsel |].
  destruct (move_slide_spec Up (handleMoveSlide Up editor3) _ eq_refl eq_refl
              ltac:(in_range)) as [Hstay _].
  apply Hstay. vm_compute. intros [H _]. now apply H.
Defined.

(** X9. Moving a slide up and then down again (or down and then up)
    gives back the presentation and the selection of before. *)
Theorem move_slide_back (direction : Direction) (st : EditorState) (p : Presentation.t) :
  presentation st = Some p ->
  allElems (Presentation.slides p) = true ->
  let slides := Presentation.slides p in
  let s := selectedSlideIndex st in
  let back := match direction with
              | Up => Down
              | Down => Up
              end in
  0 <= s < Z.of_nat (length slides) ->
  0 <= moveTarget direction s < Z.of_nat (length slides) ->
  presentation (handleMoveSlide back (handleMoveSlide direction st)) = Some p
  /\ selectedSlideIndex (handleMoveSlide back (handleMoveSlide direction st)) = s.
Proof.
  intros Hp Ha slides s back Hs Ht.
  destruct (handleMoveSlide_renderable direction st p Hp Ha Hs Ht)
    as (x & y & Hx & Hy & E & Hsel).
  fold slides s in Hx, Hy, E, Hsel.
  set (t := moveTarget direction s) in *.
  set (st1 := handleMoveSlide direction st) in *.
  set (slides1 := <[Z.to_nat t := JS.Elem x]> (<[Z.to_nat s := JS.Elem y]> slides)) in *.
  assert (Hst : s <> t) by (subst t; destruct direction; cbn; lia).
  assert (Hback : moveTarget back (selectedSlideIndex st1) = s)
    by (rewrite Hsel; subst t back; destruct direction; cbn; lia).
  assert (Ha1 : allElems slides1 = true) by (do 2 apply allElems_insert; exact Ha).
  assert (Hlen1 : length slides1 = length slides) by (subst slides1; now rewrite !length_insert).
  destruct (handleMoveSlide_renderable back st1 _ E Ha1) as (x' & y' & Hx' & Hy' & E' & Hsel').
  { cbn [Presentation.withSlides Presentation.slides]. rewrite Hsel, Hlen1. exact Ht. }
  { cbn [Presentation.withSlides Presentation.slides]. rewrite Hback, Hlen1. exact Hs. }
  cbn [Presentation.withSlides Presentation.slides] in Hx', Hy', E'.
  rewrite Hback in Hy', E', Hsel'. rewrite Hsel in Hx', E'.
  split; [| exact Hsel'].
  rewrite E'. f_equal. rewrite <- (withSlides_slides p) at 2. f_equal. fold slides.
  subst slides1.
  rewrite list_lookup_insert_eq in Hx' by (rewrite length_insert; lia).
  rewrite list_lookup_insert_ne, list_lookup_insert_eq in Hy' by lia.
  injection Hx' as <-. injection Hy' as <-.
  apply list_eq. intros k.
  destruct (decide (k = Z.to_nat s)) as [->|Hks].
  - rewrite list_lookup_insert_eq by (rewrite !length_insert; lia). now rewrite Hx.
  - rewrite list_lookup_insert_ne by lia.
    destruct (decide (k = Z.to_nat t)) as [->|Hkt].
    + rewrite list_lookup_insert_eq by (rewrite !length_insert; lia). now rewrite Hy.
    + now rewrite !list_lookup_insert_ne by lia.
Qed.

Lemma move_slide_back_witness :
  presentation editor3
  = Some (samplePresentation [JS.Elem slideA; JS.Elem slideB; JS.Elem slideC])
  /\ presentation (handleMoveSlide Up (handleMoveSlide Down editor3)) = presentation editor3
  /\ selectedSlideIndex (handleMoveSlide Up (handleMoveSlide Down editor3)) = 1.
Proof.
  split; [reflexivity |].
  exact (move_slide_back Down editor3 _ eq_refl eq_refl ltac:(in_range) ltac:(in_range)).
Defined.

Lemma renderable_intro (st : EditorState) (p : Presentation.t) :
  presentation st = Some p ->
  allElems (Presentation.slides p) = true ->
  0 <= selectedSlideIndex st < Z.of_nat (length (Presentation.slides p)) ->
  renderable st.
Proof. intros Hp Ha Hs. exists p. auto. Qed.

(** X10. The slide-mutation operations keep the page renderable: when
    the slide array holds slides only and the selection names one of them,
    the same is true after update, reorder, add, and after deleting a
    slide that exists. *)
Theorem mutation_keeps_renderable (m : Mutation) (st : EditorState) :
  renderable st ->
  (forall index p, m = DeleteSlide index -> presentation st = Some p ->
                   0 <= index < Z.of_nat (length (Presentation.slides p))) ->
  renderable (applyMutation m st).
Proof.
  intros (p & Hp & Ha & Hs) Hindex. pose proof (allElems_dense _ Ha) as Hd.
  destruct m as [updates | direction | index | now]; cbn [applyMutation].
  - destruct (allElems_arrayGet _ _ Ha Hs) as (slide & _ & Hget).
    destruct (updateSlide_renderable updates st p slide Hp Ha Hget) as (E & Hsel & _).
    apply (renderable_intro _ _ E); cbn [Presentation.withSlides Presentation.slides].
    + now apply allElems_insert.
    + now rewrite Hsel, length_insert.
  - destruct (decide (0 <= moveTarget direction (selectedSlideIndex st)
                      < Z.of_nat (length (Presentation.slides p)))) as [Ht|Ht].
    + destruct (handleMoveSlide_renderable direction st p Hp Ha Hs Ht)
        as (x & y & _ & _ & E & Hsel).
      apply (renderable_intro _ _ E); cbn [Presentation.withSlides Presentation.slides].
      * now do 2 apply allElems_insert.
      * now rewrite Hsel, !length_insert.
    + destruct (move_slide_spec direction st p Hp Ha Hs) as [Hstay _].
      rewrite (Hstay Ht). now apply (renderable_intro _ p).
  - specialize (Hindex index p eq_refl Hp).
    destruct (delete_slide_spec st p index Hp Hd) as [H1 HN].
    destruct (decide (length (Presentation.slides p) = 1%nat)) as [E1|E1].
    + destruct (H1 E1) as (E & _ & Hsel & _).
      apply (renderable_intro _ _ E); [exact Ha | now rewrite Hsel].
    + destruct HN as (p' & E & -> & Hlen & Heq & Hlt & Hgt); [lia | exact Hindex |].
      apply (renderable_intro _ _ E); cbn [Presentation.withSlides Presentation.slides].
      * now apply allElems_take_drop.
      * cbn [Presentation.withSlides Presentation.slides] in Hlen. rewrite Hlen.
        destruct (Z.lt_total index (selectedSlideIndex st)) as [H|[H|H]].
        -- rewrite (Hlt H). lia.
        -- rewrite (Heq H). lia.
        -- rewrite (Hgt ltac:(lia)). lia.
  - destruct (add_slide_spec st p now Hp) as (p' & E & -> & Hlen & _ & _ & Hsel & _).
    apply (renderable_intro _ _ E); cbn [Presentation.withSlides Presentation.slides].
    + rewrite allElems_app, (spreadCopy_dense _ Hd), Ha. reflexivity.
    + cbn [Presentation.withSlides Presentation.slides] in Hlen. rewrite Hsel, Hlen. lia.
Qed.

Lemma mutation_keeps_renderable_witness :
  renderable editor3 /\ renderable (applyMutation (DeleteSlide 2) editor3).
Proof.
  assert (Hr : renderable editor3)
    by (eexists; split; [reflexivity | split; [reflexivity | in_range]]).
  split; [exact Hr |].
  apply (mutation_keeps_renderable (DeleteSlide 2) editor3 Hr).
  intros index p [= <-] [= <-]. in_range.
Defined.

(** X11. [undo] does not restore the selection: undoing an Add Slide gives
    back the presentation of before, but the selection still names the
    position of the slide that is gone, so there is no selected slide
    and the page cannot render. *)
Theorem undo_add_leaves_selection (st : EditorState) (p : Presentation.t) (now : Z) :
  presentation st = Some p ->
  let st' := undo (addSlide now st) in
  presentation st' = Some p
  /\ selectedSlideIndex st' = Z.of_nat (length (Presentation.slides p))
  /\ selectedSlide st' = None
  /\ ~ renderable st'.
Proof.
  intros Hp st'.
  assert (Hpres : presentation st' = Some p).
  { subst st'. unfold undo, addSlide, presentation in *. rewrite Hp.
    cbn [history setSelectedSlideIndex setPresentation].
    rewrite set_not_deepEqual.
    - rewrite undo_snoc. exact Hp.
    - unfold History.deepEqual. rewrite Hp. intros E.
      apply (f_equal Snapshot_fromJSON) in E. rewrite !Snapshot_roundtrip in E.
      apply normalize_slides, (f_equal length) in E.
      cbn [Presentation.withSlides Presentation.slides] in E.
      rewrite !spreadCopy_length, length_app, spreadCopy_length in E.
      cbn [length] in E. lia. }
  assert (Hsel : selectedSlideIndex st' = Z.of_nat (length (Presentation.slides p))).
  { subst st'. unfold undo, addSlide. now rewrite Hp. }
  assert (Hnone : selectedSlide st' = None).
  { unfold selectedSlide. rewrite Hpres, Hsel. unfold JS.arrayGet.
    destruct (Z.ltb_spec (Z.of_nat (length (Presentation.slides p))) 0); [reflexivity |].
    rewrite Nat2Z.id, lookup_ge_None_2 by lia. reflexivity. }
  split; [exact Hpres |]. split; [exact Hsel |]. split; [exact Hnone |].
  intros (q & Hq & _ & Hrange). rewrite Hpres in Hq. injection Hq as <-. lia.
Qed.

Lemma undo_add_leaves_selection_witness :
  presentation editor1 = Some (samplePresentation [JS.Elem slideA])
  /\ presentation (undo (addSlide 1700000000000 editor1)) = presentation editor1
  /\ selectedSlideIndex (undo (addSlide 1700000000000 editor1)) = 1
  /\ selectedSlide (undo (addSlide 1700000000000 editor1)) = None.
Proof.
  split; [reflexivity |].
  destruct (undo_add_leaves_selection editor1 _ 1700000000000 eq_refl)
    as (Hp & Hs & Hn & _).
  split; [exact Hp |]. split; [exact Hs | exact Hn].
Defined.

(** X12. The body textarea shows what was typed: on a page that can
    render, after the [onChange] of the textarea with a text, the value
    the textarea is given ([selectedSlide.content.join] with newlines) is
    that text. *)
Theorem body_textarea_round_trip (value : string) (st : EditorState) :
  renderable st ->
  bodyTextareaValue (bodyTextareaOnChange value st) = Some value.
Proof.
  intros (p & Hp & Ha & Hs).
  destruct (allElems_arrayGet _ _ Ha Hs) as (slide & _ & Hget).
  unfold bodyTextareaOnChange, bodyTextareaValue, selectedSlide.
  destruct (updateSlide_renderable
              (Slide.mk None None (Some (JS.split JS.LF value)) None None None None None)
              st p slide Hp Ha Hget) as (E & Hsel & _).
  rewrite E, Hsel. cbn [Presentation.withSlides Presentation.slides].
  rewrite arrayGet_insert by exact Hs. cbn.
  f_equal. apply join_split.
Qed.

Lemma body_textarea_round_trip_witness :
  renderable editor1
  /\ bodyTextareaValue (bodyTextareaOnChange sampleResponse editor1) = Some sampleResponse.
Proof.
  assert (Hr : renderable editor1)
    by (eexists; split; [reflexivity | split; [reflexivity | in_range]]).
  split; [exact Hr |].
  exact (body_textarea_round_trip sampleResponse editor1 Hr).
Defined.

(** ** Backgrounds chosen in the editor *)

Lemma substring_full (s : string) : substring 0 (String.length s) s = s.
Proof. induction s as [|c s IH]; cbn; [reflexivity | now rewrite IH]. Qed.

Lemma substring_split (m : nat) :
  forall s, (m <= String.length s)%nat ->
            exists pre, s = pre +:+ substring m (String.length s - m) s.
Proof.
  induction m as [|m IH]; intros s Hm.
  - exists "". rewrite Nat.sub_0_r, substring_full. reflexivity.
  - destruct s as [|c s]; [cbn in Hm; lia |].
    destruct (IH s) as [pre E]; [cbn in Hm; lia |].
    exists (String c pre). cbn [String.length Nat.sub substring]. simpl append. now f_equal.
Qed.

(** [s.endsWith(p)] holds only of a string that is some text followed by
    [p]. *)
Lemma endsWith_suffix (p s : string) :
  JS.endsWith p s = true -> exists pre, s = pre +:+ p.
Proof.
  unfold JS.endsWith.
  destruct (Nat.leb_spec (String.length p) (String.length s)) as [Hle|]; [| discriminate].
  intros E. apply String.eqb_eq in E.
  destruct (substring_split (String.length s - String.length p) s) as [pre Hpre]; [lia |].
  exists pre.
  replace (String.length s - (String.length s - String.length p))%nat
    with (String.length p) in Hpre by lia.
  now rewrite E in Hpre.
Qed.

Lemma allChars_app (f : ascii -> bool) (a b : string) :
  JS.allChars f (a +:+ b) = JS.allChars f a && JS.allChars f b.
Proof.
  induction a as [|c a IH]; [reflexivity |].
  simpl append. cbn [JS.allChars]. now rewrite IH, andb_assoc.
Qed.

Lemma allChars_impl (f g : ascii -> bool) (s : string) :
  (forall c, f c = true -> g c = true) ->
  JS.allChars f s = true -> JS.allChars g s = true.
Proof.
  intros Hfg. induction s as [|c s IH]; [reflexivity |].
  cbn [JS.allChars]. intros [Hc Hs]%andb_true_iff.
  now rewrite (Hfg c Hc), (IH Hs).
Qed.

(** A text that may follow the prefix [pre] without the first ['#'] of
    the whole coming earlier: [pre] has no ['#']. *)
Lemma hash_after_prefix (pre : string) :
  JS.allChars (fun c => negb (Ascii.eqb c "#")) pre = true ->
  forall pre' r r',
    pre +:+ String "#" r = pre' +:+ String "#" r' ->
    (String.length pre <= String.length pre')%nat.
Proof.
  induction pre as [|c pre IH]; intros Hpre pre' r r' E; [cbn; lia |].
  cbn [JS.allChars] in Hpre. apply andb_true_iff in Hpre as [Hc Hpre].
  destruct pre' as [|c' pre'].
  - simpl append in E. injection E as -> _. discriminate Hc.
  - simpl append in E. injection E as _ E. cbn [String.length].
    apply le_n_S. exact (IH Hpre _ _ _ E).
Qed.

(** The fallback colour of a custom gradient is its start colour. *)
Lemma matchHexColor_customGradient (digits endColor angle : string) :
  String.length digits = 6%nat ->
  JS.allChars JS.isHexDigit digits = true ->
  JS.allChars (fun c => negb (Ascii.eqb c "#")) angle = true ->
  JS.matchHexColor (customGradient (String "#" digits) endColor angle)
  = Some (String "#" digits).
Proof.
  intros Hlen Hhex Hangle.
  apply (matchHexColor_first ("linear-gradient(" +:+ angle +:+ ", ") _ digits
           (", " +:+ endColor +:+ ")")).
  assert (E : customGradient (String "#" digits) endColor angle
              = ("linear-gradient(" +:+ angle +:+ ", ")
                +:+ String "#" (digits +:+ ", " +:+ endColor +:+ ")")).
  { unfold customGradient. rewrite !append_assoc. reflexivity. }
  split; [repeat split; assumption |].
  intros pre' digits' post' (E' & _). rewrite E in E'.
  apply (hash_after_prefix _) in E'; [exact E' |].
  rewrite !allChars_app, Hangle. reflexivity.
Qed.

(** What [updateSlide] with a background does to the selected slide. *)
Lemma updateSlide_background (src : string) (st : EditorState) :
  renderable st ->
  exists slide',
    selectedSlide (updateSlide (backgroundUpdate src) st) = Some slide'
    /\ Slide.backgroundImage slide' = Some src.
Proof.
  intros (p & Hp & Ha & Hs).
  destruct (allElems_arrayGet _ _ Ha Hs) as (slide & _ & Hget).
  destruct (updateSlide_renderable (backgroundUpdate src) st p slide Hp Ha Hget)
    as (E & Hsel & _).
  exists (spread (Some slide) (backgroundUpdate src)).
  unfold selectedSlide. rewrite E, Hsel.
  cbn [Presentation.withSlides Presentation.slides].
  split; [now apply arrayGet_insert | reflexivity].
Qed.

(** X13. A custom gradient exports as its start colour: on a page that
    can render, after [updateCustomGradient] with a start colour [#]
    followed by six hex digits (what a colour input gives) and a direction
    without ['#'], the selected slide has the background
    [linear-gradient(<direction>, <start>, <end>)], the preview draws it
    as a CSS background, and the export gives the slide the flat colour
    of the start colour. *)
Theorem custom_gradient_exports_start (digits endColor angle : string) (ps : PageState) :
  renderable (editor ps) ->
  String.length digits = 6%nat ->
  JS.allChars JS.isHexDigit digits = true ->
  JS.allChars (fun c => negb (Ascii.eqb c "#")) angle = true ->
  let bg := customGradient (String "#" digits) endColor angle in
  let ps' := updateCustomGradient (String "#" digits) endColor angle ps in
  exists slide',
    selectedSlide (editor ps') = Some slide'
    /\ Slide.backgroundImage slide' = Some bg
    /\ SlideBackground bg = BgDiv bg
    /\ exportSlideBackground slide' = Some (Some (BackgroundColor digits))
    /\ gradStart (panel ps') = String "#" digits
    /\ gradEnd (panel ps') = endColor
    /\ gradAngle (panel ps') = angle.
Proof.
  intros Hr Hlen Hhex Hangle bg ps'.
  destruct (updateSlide_background bg (editor ps) Hr) as (slide' & Hsel & Hbg).
  exists slide'. split; [exact Hsel |]. split; [exact Hbg |].
  split; [reflexivity |].
  split; [| repeat split].
  unfold exportSlideBackground. rewrite Hbg. cbn [fmap option_fmap option_map].
  unfold handleExport_background.
  change (JS.startsWith "data:" bg) with false.
  change (JS.startsWith "http" bg) with false.
  change (JS.startsWith "#" bg) with false.
  change (JS.startsWith "linear-gradient" bg) with true. cbn [orb].
  subst bg. rewrite (matchHexColor_customGradient digits endColor angle Hlen Hhex Hangle).
  reflexivity.
Qed.

Lemma custom_gradient_exports_start_witness :
  renderable editor1
  /\ exists slide',
      selectedSlide (editor (updateCustomGradient "#3B82F6" "#9333EA" "to right"
                               (mkPage editor1 initialPanel))) = Some slide'
      /\ Slide.backgroundImage slide'
         = Some "linear-gradient(to right, #3B82F6, #9333EA)"
      /\ exportSlideBackground slide' = Some (Some (BackgroundColor "3B82F6")).
Proof.
  assert (Hr : renderable editor1)
    by (eexists; split; [reflexivity | split; [reflexivity | in_range]]).
  split; [exact Hr |].
  destruct (custom_gradient_exports_start "3B82F6" "#9333EA" "to right"
              (mkPage editor1 initialPanel) Hr eq_refl eq_refl eq_refl)
    as (slide' & Hsel & Hbg & _ & Hexp & _).
  exists slide'. split; [exact Hsel |]. split; [exact Hbg | exact Hexp].
Defined.

(** X14. A picture from the AI picker is a static image everywhere: for a
    base64 payload, the source [data:image/jpeg;base64,<payload>] that the
    picker hands to [handleImageSelect] becomes the background of the
    selected slide, the preview draws it with an image element, the
    export links it as a path, the modal is closed and the notice is
    shown. *)
Theorem ai_image_is_static_image (b64 : string) (ps : PageState) :
  renderable (editor ps) ->
  JS.allChars isBase64Char b64 = true ->
  let src := aiImageSrc b64 in
  let ps' := handleImageSelect src ps in
  exists slide',
    selectedSlide (editor ps') = Some slide'
    /\ Slide.backgroundImage slide' = Some src
    /\ SlideBackground src = BgImg src
    /\ exportSlideBackground slide' = Some (Some (BackgroundPath src))
    /\ previewClass src = StaticImage
    /\ exportClass src = Some StaticImage
    /\ isModalOpen (panel ps') = false
    /\ toastMessage (editor ps') = Some "Background updated successfully!".
Proof.
  intros Hr H64 src ps'.
  destruct (updateSlide_background src (editor ps) Hr) as (slide' & Hsel & Hbg).
  assert (Hsrc : JS.allChars aiSrcChar src = true).
  { subst src. unfold aiImageSrc. rewrite allChars_app. apply andb_true_iff.
    split; [reflexivity |].
    apply (allChars_impl isBase64Char); [| exact H64].
    intros c Hc. unfold aiSrcChar, isBase64Char in *. now rewrite Hc. }
  assert (Hext : forall ext, JS.allChars aiSrcChar ext = false ->
                             JS.endsWith ext src = false).
  { intros ext Hext. destruct (JS.endsWith ext src) eqn:E; [| reflexivity].
    apply endsWith_suffix in E as [pre E].
    rewrite E, allChars_app in Hsrc. apply andb_true_iff in Hsrc as [_ Hsrc].
    congruence. }
  exists slide'. split; [exact Hsel |]. split; [exact Hbg |].
  assert (Hv : isVideo src = false).
  { unfold isVideo. change (JS.startsWith "data:video" src) with false.
    rewrite (Hext ".mp4" eq_refl), (Hext ".webm" eq_refl). reflexivity. }
  assert (Hpre : SlideBackground src = BgImg src).
  { unfold SlideBackground, isColor.
    change (JS.startsWith "#" src) with false.
    change (JS.startsWith "linear-gradient" src) with false. cbn [orb]. now rewrite Hv. }
  split; [exact Hpre |].
  split; [unfold exportSlideBackground; rewrite Hbg; reflexivity |].
  split; [unfold previewClass; now rewrite Hpre |].
  repeat split.
Qed.

Lemma ai_image_is_static_image_witness :
  renderable editor1
  /\ exists slide',
      selectedSlide (editor (handleImageSelect "data:image/jpeg;base64,AAAA"
                               (mkPage editor1 initialPanel))) = Some slide'
      /\ exportSlideBackground slide'
         = Some (Some (BackgroundPath "data:image/jpeg;base64,AAAA")).
Proof.
  assert (Hr : renderable editor1)
    by (eexists; split; [reflexivity | split; [reflexivity | in_range]]).
  split; [exact Hr |].
  destruct (ai_image_is_static_image "AAAA" (mkPage editor1 initialPanel) Hr eq_refl)
    as (slide' & Hsel & _ & _ & Hexp & _).
  exists slide'. split; [exact Hsel | exact Hexp].
Defined.

(** ** The text options of the export *)

(** What [updateSlide] does to the selected slide of a page that can
    render. *)
Lemma updateSlide_selected (updates : Slide.t) (st : EditorState) :
  renderable st ->
  exists slide,
    selectedSlide st = Some slide
    /\ selectedSlide (updateSlide updates st) = Some (spread (Some slide) updates).
Proof.
  intros (p & Hp & Ha & Hs).
  destruct (allElems_arrayGet _ _ Ha Hs) as (slide & _ & Hget).
  destruct (updateSlide_renderable updates st p slide Hp Ha Hget) as (E & Hsel & _).
  exists slide. unfold selectedSlide. rewrite Hp, E, Hsel.
  cbn [Presentation.withSlides Presentation.slides].
  split; [exact Hget | now apply arrayGet_insert].
Qed.

(** A decimal digit is no white space, sign or letter, and has its value
    in radix ten. *)
Lemma isDigit_facts (c : ascii) :
  isDigit c = true ->
  JS.isWhiteSpace c = false
  /\ Ascii.eqb c "-" = false
  /\ Ascii.eqb c "+" = false
  /\ Ascii.eqb c "x" = false
  /\ Ascii.eqb c "X" = false
  /\ Ascii.eqb c "p" = false
  /\ digitValue 10 c = Some (N_of_ascii c - 48)%N.
Proof.
  destruct c as [[] [] [] [] [] [] [] []]; vm_compute; intros H;
    try discriminate H; repeat split.
Qed.

Lemma readDigits_digits (v t : string) (acc : N) :
  JS.allChars isDigit v = true ->
  (t = "" \/ t = "px") ->
  readDigits 10 acc (v +:+ t) = readDigits 10 acc v.
Proof.
  revert acc. induction v as [|c v IH]; intros acc Hv Ht.
  - destruct Ht as [-> | ->]; reflexivity.
  - cbn [JS.allChars] in Hv. apply andb_true_iff in Hv as [Hc Hv].
    simpl append. cbn [readDigits].
    destruct (isDigit_facts c Hc) as (_ & _ & _ & _ & _ & _ & ->). now apply IH.
Qed.

(** [parseInt] of a run of decimal digits, alone or followed by [px]. *)
Lemma parseInt_digits (v t : string) :
  JS.allChars isDigit v = true -> v <> "" -> (t = "" \/ t = "px") ->
  parseInt (v +:+ t) = Some (Z.of_N (readDigits 10 0 v)).
Proof.
  intros Hv Hne Ht. destruct v as [|c v]; [congruence |].
  pose proof (readDigits_digits (String c v) t 0 Hv Ht) as Hread.
  cbn [JS.allChars] in Hv. apply andb_true_iff in Hv as [Hc Hv].
  destruct (isDigit_facts c Hc) as (Hw & Hm & Hp & _ & _ & _ & Hd).
  assert (Hx : forall x r, v +:+ t = String x r ->
                           Ascii.eqb x "x" || Ascii.eqb x "X" = false).
  { intros x r E. destruct v as [|d v].
    - destruct Ht as [-> | ->]; [discriminate |]. injection E as <- _. reflexivity.
    - simpl append in E. injection E as <- _.
      cbn [JS.allChars] in Hv. apply andb_true_iff in Hv as [Hd' _].
      destruct (isDigit_facts d Hd') as (_ & _ & _ & -> & -> & _). reflexivity. }
  simpl append in *. unfold parseInt. cbn [JS.trimStart]. rewrite Hw, Hm, Hp.
  cbn [snd fst].
  destruct (v +:+ t) as [|x r] eqn:E.
  - cbn [fst snd]. rewrite Hd. now rewrite Hread.
  - rewrite (Hx x r eq_refl), andb_false_r. cbn [fst snd]. rewrite Hd.
    now rewrite Hread.
Qed.

Lemma removeFirstText_px (v : string) :
  JS.allChars isDigit v = true -> removeFirstText "px" (v +:+ "px") = v.
Proof.
  induction v as [|c v IH]; intros Hv; [reflexivity |].
  cbn [JS.allChars] in Hv. apply andb_true_iff in Hv as [Hc Hv].
  simpl append. cbn [removeFirstText].
  rewrite prefix_cons_ne.
  - now rewrite IH.
  - intros <-. discriminate Hc.
Qed.

Lemma digitValue_pretty_N_char (d : N) :
  (d < 10)%N ->
  digitValue 10 (pretty_N_char d) = Some d /\ isDigit (pretty_N_char d) = true.
Proof.
  intros Hd.
  assert (E : (d = 0 \/ d = 1 \/ d = 2 \/ d = 3 \/ d = 4 \/ d = 5 \/ d = 6 \/ d = 7
               \/ d = 8 \/ d = 9)%N) by lia.
  repeat (destruct E as [-> | E]; [split; reflexivity |]). subst d. split; reflexivity.
Qed.

(** Reading the digits that [pretty_N_go] prints gives the number back. *)
Lemma readDigits_pretty_N_go (x : N) :
  exists k : N, forall (s : string) (acc : N),
    readDigits 10 acc (pretty_N_go x s) = readDigits 10 (acc * 10 ^ k + x) s.
Proof.
  induction (N.lt_wf_0 x) as [x _ IH].
  destruct (N.eq_dec x 0%N) as [-> | Hx].
  - exists 0%N. intros s acc. rewrite pretty_N_go_0. f_equal. lia.
  - destruct (IH (x `div` 10)%N) as [k Hk]; [apply N.div_lt; lia |].
    exists (N.succ k). intros s acc.
    rewrite pretty_N_go_step by lia. rewrite Hk. cbn [readDigits].
    destruct (digitValue_pretty_N_char (x `mod` 10)%N) as [-> _];
      [apply N.mod_lt; lia |].
    f_equal. rewrite N.pow_succ_r'.
    pose proof (N.div_mod x 10%N ltac:(lia)) as Hdm.
    set (P := (10 ^ k)%N) in *. set (q := (x `div` 10)%N) in *.
    set (r := (x `mod` 10)%N) in *. nia.
Qed.

Lemma allChars_pretty_N_go (x : N) :
  forall s, JS.allChars isDigit (pretty_N_go x s) = JS.allChars isDigit s.
Proof.
  induction (N.lt_wf_0 x) as [x _ IH]. intros s.
  destruct (N.eq_dec x 0%N) as [-> | Hx]; [now rewrite pretty_N_go_0 |].
  rewrite pretty_N_go_step by lia. rewrite IH by (apply N.div_lt; lia).
  cbn [JS.allChars].
  destruct (digitValue_pretty_N_char (x `mod` 10)%N) as [_ ->];
    [apply N.mod_lt; lia | reflexivity].
Qed.

(** The decimal print of a natural number is a non-empty run of digits
    that reads back as the number. *)
Lemma pretty_N_digits (n : N) :
  JS.allChars isDigit (pretty n) = true
  /\ pretty n <> ""
  /\ readDigits 10 0 (pretty n) = n.
Proof.
  unfold pretty, pretty_N. destruct (decide (n = 0%N)) as [-> | Hn].
  - repeat split. discriminate.
  - destruct (readDigits_pretty_N_go n) as [k Hk].
    assert (Hread : readDigits 10 0 (pretty_N_go n "") = n).
    { rewrite Hk. cbn [readDigits]. lia. }
    split; [now rewrite allChars_pretty_N_go |].
    split; [| exact Hread].
    intros E. rewrite E in Hread. cbn in Hread. congruence.
Qed.

(** X15. The title size survives the round trip to the export: on a page
    that can render, after the size input's [onChange] with the decimal
    print of a number [n] (below 2^53, where JavaScript numbers are
    exact), the selected slide's title size is [<n>px], the input shows
    [n] again, and the export gives the title the font size [n]. *)
Theorem title_size_round_trip (n : N) (st : EditorState) :
  renderable st ->
  (n < 2 ^ 53)%N ->
  let st' := titleSizeOnChange (pretty n) st in
  exists slide',
    selectedSlide st' = Some slide'
    /\ (Slide.titleStyle slide' ≫= TextStyle.fontSize) = Some (pretty n +:+ "px")
    /\ titleSizeValue st' = Some (Some (Z.of_N n))
    /\ optFontSize (exportTitleOptions slide') = Some (Z.of_N n).
Proof.
  intros Hr _ st'.
  destruct (pretty_N_digits n) as (Hdig & Hne & Hread).
  destruct (updateSlide_selected
              (Slide.mk None None None None None None
                 (Some (spreadStyle (Slide.titleStyle
                                       (default Slide.empty (selectedSlide st)))
                          (TextStyle.mk None None None None (Some (pretty n +:+ "px")))))
                 None) st Hr) as (slide & Hsel & Hsel').
  rewrite Hsel in Hsel'. cbn [default] in Hsel'.
  match type of Hsel' with _ = Some ?s => set (slide' := s) in * end.
  assert (Hst' : selectedSlide st' = Some slide').
  { subst st'. unfold titleSizeOnChange. now rewrite Hsel. }
  exists slide'. split; [exact Hst' |].
  split; [reflexivity |].
  assert (Hpx : pretty n +:+ "px" <> "").
  { destruct (pretty n); [congruence | discriminate]. }
  split.
  - unfold titleSizeValue. rewrite Hst'. cbn.
    destruct (String.eqb_spec (pretty n +:+ "px") "") as [E|_]; [congruence |].
    rewrite parseInt_digits by auto. now rewrite Hread.
  - unfold exportTitleOptions, exportTextOptions. cbn.
    rewrite removeFirstText_px by exact Hdig.
    destruct (String.eqb_spec (pretty n) "") as [E|_]; [congruence |].
    rewrite <- (append_nil_r (pretty n)) at 1.
    rewrite parseInt_digits by auto. now rewrite Hread.
Qed.

Lemma title_size_round_trip_witness :
  renderable editor1
  /\ exists slide',
      selectedSlide (titleSizeOnChange "36" editor1) = Some slide'
      /\ optFontSize (exportTitleOptions slide') = Some 36.
Proof.
  assert (Hr : renderable editor1)
    by (eexists; split; [reflexivity | split; [reflexivity | in_range]]).
  split; [exact Hr |].
  destruct (title_size_round_trip 36 editor1 Hr eq_refl) as (slide' & Hsel & _ & _ & Hexp).
  exists slide'. split; [exact Hsel | exact Hexp].
Defined.

(** X16. An emptied size input makes the preview and the export differ:
    on a page that can render, after the size input's [onChange] with the
    empty text, the selected slide's title size is the text [px], the
    input shows no number, and the export falls back to the size 24. *)
Theorem cleared_title_size (st : EditorState) :
  renderable st ->
  let st' := titleSizeOnChange "" st in
  exists slide',
    selectedSlide st' = Some slide'
    /\ (Slide.titleStyle slide' ≫= TextStyle.fontSize) = Some "px"
    /\ titleSizeValue st' = Some None
    /\ optFontSize (exportTitleOptions slide') = Some 24.
Proof.
  intros Hr st'.
  destruct (updateSlide_selected
              (Slide.mk None None None None None None
                 (Some (spreadStyle (Slide.titleStyle
                                       (default Slide.empty (selectedSlide st)))
                          (TextStyle.mk None None None None (Some "px"))))
                 None) st Hr) as (slide & Hsel & Hsel').
  rewrite Hsel in Hsel'. cbn [default] in Hsel'.
  match type of Hsel' with _ = Some ?s => set (slide' := s) in * end.
  assert (Hst' : selectedSlide st' = Some slide').
  { subst st'. unfold titleSizeOnChange. now rewrite Hsel. }
  exists slide'. split; [exact Hst' |]. split; [reflexivity |].
  split; [unfold titleSizeValue; rewrite Hst'; reflexivity | reflexivity].
Qed.

Lemma cleared_title_size_witness :
  renderable editor1
  /\ exists slide',
      selectedSlide (titleSizeOnChange "" editor1) = Some slide'
      /\ optFontSize (exportTitleOptions slide') = Some 24.
Proof.
  assert (Hr : renderable editor1)
    by (eexists; split; [reflexivity | split; [reflexivity | in_range]]).
  split; [exact Hr |].
  destruct (cleared_title_size editor1 Hr) as (slide' & Hsel & _ & _ & Hexp).
  exists slide'. split; [exact Hsel | exact Hexp].
Defined.

Lemma removeQuotes_clean (s : string) :
  JS.allChars (fun c => negb (Ascii.eqb c ",")) s = true ->
  JS.allChars (fun c => negb (Ascii.eqb c "," || Ascii.eqb c "'" || Ascii.eqb c JSON.dquote))
              (removeQuotes s) = true.
Proof.
  induction s as [|c s IH]; [reflexivity |].
  cbn [JS.allChars removeQuotes]. intros [Hc Hs]%andb_true_iff.
  destruct (Ascii.eqb c "'" || Ascii.eqb c JSON.dquote) eqn:Hq; [now apply IH |].
  cbn [JS.allChars]. rewrite IH by exact Hs.
  apply negb_true_iff in Hc. rewrite <- orb_assoc, Hc, Hq. reflexivity.
Qed.

Lemma firstField_no_comma (s : string) :
  JS.allChars (fun c => negb (Ascii.eqb c ",")) (firstField s) = true.
Proof.
  unfold firstField. pose proof (split_no_sep "," s) as H.
  destruct (JS.split "," s) as [|x xs]; [reflexivity |].
  now inversion H.
Qed.

(** X17. The font face handed to the export is a single clean family
    name: whatever the style of a slide, the [fontFace] is not empty and
    holds no comma and no quote character; without a family, or when
    nothing is left of its first entry, it is [Arial]. *)
Theorem export_font_face_clean (style : option TextStyle.t) (size color : string) :
  let face := optFontFace (exportTextOptions style size color) in
  face <> ""
  /\ JS.allChars
       (fun c => negb (Ascii.eqb c "," || Ascii.eqb c "'" || Ascii.eqb c JSON.dquote))
       face = true
  /\ ((style ≫= TextStyle.fontFamily) = None -> face = "Arial").
Proof.
  cbn zeta. unfold exportTextOptions. cbn [optFontFace].
  destruct (style ≫= TextStyle.fontFamily) as [f|]; cbn [fmap option_fmap option_map orElse].
  - destruct (String.eqb_spec (removeQuotes (firstField f)) "") as [E|Hne].
    + repeat split; discriminate.
    + split; [exact Hne |]. split; [| discriminate].
      apply removeQuotes_clean, firstField_no_comma.
  - repeat split. discriminate.
Qed.

Lemma export_font_face_clean_witness :
  optFontFace (exportTitleOptions slideA) = "Arial"
  /\ optFontFace
       (exportTextOptions
          (Some (TextStyle.mk None (Some "'Playfair Display', serif") None None None))
          "24" "000000")
     = "Playfair Display".
Proof.
  split; [| reflexivity].
  exact (proj2 (proj2 (export_font_face_clean None "24" "000000")) eq_refl).
Defined.

Lemma sanitizeTopic_length (topic : string) :
  String.length (sanitizeTopic topic) = String.length topic.
Proof. induction topic as [|c s IH]; cbn; [reflexivity | now rewrite IH]. Qed.

Lemma sanitizeTopic_safe (topic : string) :
  JS.allChars (fun c => isAlphaNum c || Ascii.eqb c "_") (sanitizeTopic topic) = true.
Proof.
  induction topic as [|c s IH]; [reflexivity |].
  cbn [sanitizeTopic JS.allChars]. rewrite IH, andb_true_r.
  destruct (isAlphaNum c) eqn:E; [now rewrite E | reflexivity].
Qed.

Lemma sanitizeTopic_fixed (topic : string) :
  JS.allChars isAlphaNum topic = true -> sanitizeTopic topic = topic.
Proof.
  induction topic as [|c s IH]; [reflexivity |].
  cbn [sanitizeTopic JS.allChars]. intros [-> Hs]%andb_true_iff. now rewrite IH.
Qed.

Lemma sanitizeTopic_idempotent (topic : string) :
  sanitizeTopic (sanitizeTopic topic) = sanitizeTopic topic.
Proof.
  induction topic as [|c s IH]; [reflexivity |].
  cbn [sanitizeTopic]. rewrite IH. f_equal.
  destruct (isAlphaNum c) eqn:E; [now rewrite E | reflexivity].
Qed.

Lemma isAlphaNum_letterOrDigit (c : ascii) : isAlphaNum c = isLetterOrDigit c.
Proof. destruct c as [[] [] [] [] [] [] [] []]; vm_compute; reflexivity. Qed.

Lemma sanitizeTopic_get (topic : string) (i : nat) (c : ascii) :
  String.get i topic = Some c ->
  String.get i (sanitizeTopic topic) = Some (if isLetterOrDigit c then c else "_"%char).
Proof.
  revert i. induction topic as [|d s IH]; intros i Hi; [discriminate Hi |].
  cbn [sanitizeTopic]. destruct i as [|i]; cbn [String.get] in *.
  - injection Hi as <-. now rewrite isAlphaNum_letterOrDigit.
  - now apply IH.
Qed.

(** X18. The name of the exported file is the topic with its letters
    and digits kept in place and every other character replaced by an
    underscore, one for one, followed by [.pptx]; so the base name has the
    length of the topic, holds letters, digits and underscores only, and is
    the topic itself when that is already made of letters and digits. *)
Theorem export_file_name_safe (topic : string) :
  exists base,
    exportFileName topic = base +:+ ".pptx"
    /\ String.length base = String.length topic
    /\ (forall i c, String.get i topic = Some c ->
          String.get i base = Some (if isLetterOrDigit c then c else "_"%char))
    /\ JS.allChars (fun c => isAlphaNum c || Ascii.eqb c "_") base = true
    /\ (JS.allChars isAlphaNum topic = true -> base = topic)
    /\ exportFileName base = exportFileName topic.
Proof.
  exists (sanitizeTopic topic). split; [reflexivity |].
  split; [apply sanitizeTopic_length |].
  split; [apply sanitizeTopic_get |].
  split; [apply sanitizeTopic_safe |].
  split; [apply sanitizeTopic_fixed |].
  unfold exportFileName. now rewrite sanitizeTopic_idempotent.
Qed.

Lemma export_file_name_safe_witness :
  exists base,
    exportFileName "Q3 report" = base +:+ ".pptx"
    /\ String.length base = 9%nat
    /\ String.get 0 base = Some "Q"%char
    /\ String.get 1 base = Some "3"%char
    /\ String.get 2 base = Some "_"%char
    /\ String.get 8 base = Some "t"%char
    /\ exportFileName "Demo" = "Demo.pptx"
    /\ exportFileName "Q3 report" = "Q3_report.pptx".
Proof.
  destruct (export_file_name_safe "Q3 report") as (base & E & Hlen & Hget & _).
  destruct (export_file_name_safe "Demo") as (base' & E' & _ & _ & _ & Hfix & _).
  exists base. split; [exact E |]. split; [exact Hlen |].
  split; [exact (Hget 0%nat "Q"%char eq_refl) |].
  split; [exact (Hget 1%nat "3"%char eq_refl) |].
  split; [exact (Hget 2%nat " "%char eq_refl) |].
  split; [exact (Hget 8%nat "t"%char eq_refl) |].
  split; [| reflexivity].
  rewrite E', (Hfix eq_refl). reflexivity.
Defined.

(** X19. The first click on the title's B button changes the export and
    not the preview: on a page that can render whose selected slide has no
    title weight, the preview draws the title bold before and after the
    click, while the export has it not bold before and bold after; a second
    click makes both not bold. *)
Theorem first_bold_click (st : EditorState) (slide : Slide.t) :
  renderable st ->
  selectedSlide st = Some slide ->
  (Slide.titleStyle slide ≫= TextStyle.fontWeight) = None ->
  exists slide' slide'',
    selectedSlide (titleBoldOnClick st) = Some slide'
    /\ selectedSlide (titleBoldOnClick (titleBoldOnClick st)) = Some slide''
    /\ previewTitleWeight slide = "bold"
    /\ optBold (exportTitleOptions slide) = false
    /\ previewTitleWeight slide' = "bold"
    /\ optBold (exportTitleOptions slide') = true
    /\ previewTitleWeight slide'' = "normal"
    /\ optBold (exportTitleOptions slide'') = false.
Proof.
  intros Hr Hsel Hw.
  assert (Hstep : forall st0 slide0,
             renderable st0 -> selectedSlide st0 = Some slide0 ->
             exists s1, selectedSlide (titleBoldOnClick st0) = Some s1
                        /\ renderable (titleBoldOnClick st0)
                        /\ (Slide.titleStyle s1 ≫= TextStyle.fontWeight)
                           = Some (match Slide.titleStyle slide0 ≫= TextStyle.fontWeight with
                                   | Some w => if String.eqb w "bold" then "normal" else "bold"
                                   | None => "bold"
                                   end)).
  { intros st0 slide0 Hr0 Hsel0. unfold titleBoldOnClick. rewrite Hsel0.
    match goal with |- context [updateSlide ?u st0] => set (U := u) end.
    destruct (updateSlide_selected U st0 Hr0) as (s & Hs & Hs').
    rewrite Hsel0 in Hs. injection Hs as <-.
    eexists. split; [exact Hs' |]. split; [| reflexivity].
    destruct Hr0 as (p & Hp & Ha & Hi).
    destruct (allElems_arrayGet _ _ Ha Hi) as (s & _ & Hget).
    destruct (updateSlide_renderable U st0 p s Hp Ha Hget) as (E & Hsi & _).
    eapply renderable_intro; [exact E | |];
      cbn [Presentation.withSlides Presentation.slides].
    - now apply allElems_insert.
    - rewrite Hsi, length_insert. exact Hi. }
  destruct (Hstep st slide Hr Hsel) as (slide' & Hsel' & Hr' & Hw').
  destruct (Hstep _ slide' Hr' Hsel') as (slide'' & Hsel'' & _ & Hw'').
  rewrite Hw in Hw'. rewrite Hw' in Hw''. cbn in Hw''.
  exists slide', slide''. split; [exact Hsel' |]. split; [exact Hsel'' |].
  unfold previewTitleWeight, exportTitleOptions, exportTextOptions. cbn [optBold].
  rewrite Hw, Hw', Hw''. repeat split.
Qed.

Lemma first_bold_click_witness :
  renderable editor1
  /\ exists slide',
      selectedSlide (titleBoldOnClick editor1) = Some slide'
      /\ previewTitleWeight slideA = previewTitleWeight slide'
      /\ optBold (exportTitleOptions slideA) = false
      /\ optBold (exportTitleOptions slide') = true.
Proof.
  assert (Hr : renderable editor1)
    by (eexists; split; [reflexivity | split; [reflexivity | in_range]]).
  split; [exact Hr |].
  destruct (first_bold_click editor1 slideA Hr eq_refl eq_refl)
    as (slide' & _ & Hsel & _ & Hp & He & Hp' & He' & _).
  exists slide'. split; [exact Hsel |].
  split; [now rewrite Hp, Hp' |]. split; [exact He | exact He'].
Defined.

(** ** The other calls of the service and the generated slides *)

(** X20. [generateSlideContentPoints] gives hyphenated lines only: every
    line it returns is a single line whose trimmed text starts with a
    hyphen; a failed request gives no line; and when the content is a text,
    every line of it whose trimmed text starts with a hyphen is
    returned. *)
Theorem generated_points_are_bullets (topic title : string) (reply : RefineReply) :
  let points := generateSlideContentPoints topic title reply in
  Forall (fun line =>
            JS.startsWith "-" (JS.trim line) = true
            /\ JS.allChars (fun c => negb (Ascii.eqb c JS.LF)) line = true) points
  /\ (refineFailed reply = true -> points = [])
  /\ (forall text line,
        reply = Body (ContentText text) ->
        In line (JS.split JS.LF text) ->
        JS.startsWith "-" (JS.trim line) = true ->
        In line points).
Proof.
  cbn zeta.
  assert (Hfilter : forall text,
             Forall (fun line =>
                       JS.startsWith "-" (JS.trim line) = true
                       /\ JS.allChars (fun c => negb (Ascii.eqb c JS.LF)) line = true)
                    (List.filter isBulletLine (JS.split JS.LF text))).
  { intros text. apply List.Forall_forall. intros line [Hin Hb]%filter_In.
    unfold isBulletLine in Hb. apply andb_true_iff in Hb as [_ Hb].
    split; [exact Hb |].
    pose proof (split_no_sep JS.LF text) as Hs.
    rewrite List.Forall_forall in Hs. now apply Hs. }
  split; [| split].
  - destruct reply as [m | d t | m | | [text | |]];
      cbn; try (apply Hfilter); constructor.
  - destruct reply as [m | d t | m | | c]; try discriminate; reflexivity.
  - intros text line -> Hin Hdash.
    change (In line (List.filter isBulletLine (JS.split JS.LF text))).
    apply filter_In. split; [exact Hin |].
    unfold isBulletLine. rewrite Hdash, andb_true_r.
    apply prefix_head in Hdash as [s' ->]. reflexivity.
Qed.

Lemma generated_points_are_bullets_witness :
  In "  - two" (generateSlideContentPoints "Demo" "Intro"
                  (Body (ContentText (String.concat JS.newline ["Points:"; "- one"; "  - two"])))).
Proof.
  refine (proj2 (proj2 (generated_points_are_bullets "Demo" "Intro" _)) _ _ eq_refl _ _).
  - vm_compute. tauto.
  - reflexivity.
Defined.

Lemma pretty_nat_digits (n : nat) :
  JS.allChars isDigit (pretty n) = true /\ pretty n <> "".
Proof.
  destruct (pretty_N_digits (N.of_nat n)) as (H1 & H2 & _). now split.
Qed.

Lemma pretty_Z_shape (z : Z) :
  JS.allChars isDigit (pretty z) = true
  \/ exists d, pretty z = String "-" d.
Proof.
  destruct z as [|q|q].
  - now left.
  - left. exact (proj1 (pretty_N_digits (N.pos q))).
  - right. now eexists.
Qed.

(** A run of digits followed by a hyphen determines the digits. *)
Lemma digits_dash_inj (a a' b b' : string) :
  JS.allChars isDigit a = true -> JS.allChars isDigit a' = true ->
  a +:+ String "-" b = a' +:+ String "-" b' -> a = a' /\ b = b'.
Proof.
  revert a'. induction a as [|c a IH]; intros [|c' a'] Ha Ha' E; simpl append in E.
  - injection E as ->. now split.
  - injection E as <- _. cbn [JS.allChars] in Ha'.
    apply andb_true_iff in Ha' as [Hc _]. discriminate Hc.
  - injection E as -> _. cbn [JS.allChars] in Ha.
    apply andb_true_iff in Ha as [Hc _]. discriminate Hc.
  - injection E as -> E. cbn [JS.allChars] in Ha, Ha'.
    apply andb_true_iff in Ha as [_ Ha]. apply andb_true_iff in Ha' as [_ Ha'].
    destruct (IH a' Ha Ha' E) as [-> ->]. now split.
Qed.

Lemma generatedId_inj (i j : nat) (t t' : Z) :
  generatedId i t = generatedId j t' -> i = j /\ t = t'.
Proof.
  unfold generatedId. intros E.
  apply (f_equal (dropChars 6)) in E. cbn [dropChars append] in E.
  simpl append in E.
  destruct (digits_dash_inj (pretty i) (pretty j) (pretty t) (pretty t')) as [Ei Et].
  - apply pretty_nat_digits.
  - apply pretty_nat_digits.
  - exact E.
  - split; [now apply (inj pretty) in Ei | now apply (inj pretty) in Et].
Qed.

Lemma generatedId_not_added (i : nat) (t now : Z) :
  generatedId i t <> "slide-" +:+ pretty now.
Proof.
  unfold generatedId. intros E.
  apply (f_equal (dropChars 6)) in E. simpl append in E. cbn [dropChars] in E.
  destruct (pretty_nat_digits i) as [Hd Hne].
  destruct (pretty_Z_shape now) as [Hn | [d Hn]].
  - rewrite <- E, allChars_app in Hn. apply andb_true_iff in Hn as [_ Hn].
    discriminate Hn.
  - rewrite Hn in E. destruct (pretty i) as [|c r]; [congruence |].
    simpl append in E. injection E as -> _.
    cbn [JS.allChars] in Hd. apply andb_true_iff in Hd as [Hc _]. discriminate Hc.
Qed.

(** X21. The ids of a generated presentation are pairwise different and
    none is an id of the Add Slide button: whatever the clock reads while
    the slides are made, [handleGenerate] makes one slide for each entry of
    the backend's answer, no two of them have the same id, and no id is
    [slide-<clock>], the form of the ids that [addSlide] gives. *)
Theorem generated_ids_distinct (mode : BackgroundMode) (theme : Theme.t)
    (clock : nat -> Z) (image : nat -> string) (data : list SlideData) :
  let slides := generatedSlides mode theme clock image data in
  length slides = length data
  /\ NoDup (Slide.id <$> slides)
  /\ (forall slide now, In slide slides -> Slide.id slide <> Slide.id (newSlide now)).
Proof.
  cbn zeta. unfold generatedSlides. split; [apply length_imap |]. split.
  - apply NoDup_alt. intros i j x Hi Hj.
    rewrite list_lookup_fmap, list_lookup_imap in Hi, Hj.
    destruct (data !! i) as [di|]; [| discriminate Hi].
    destruct (data !! j) as [dj|]; [| discriminate Hj].
    assert (Ei : x = Some (generatedId i (clock i)))
      by (symmetry; apply (inj Some); exact Hi).
    assert (Ej : x = Some (generatedId j (clock j)))
      by (symmetry; apply (inj Some); exact Hj).
    rewrite Ei in Ej. apply (inj Some) in Ej.
    now apply generatedId_inj in Ej as [-> _].
  - intros slide now Hin%list_elem_of_In%list_elem_of_lookup_1.
    destruct Hin as [i Hi]. rewrite list_lookup_imap in Hi.
    destruct (data !! i) as [di|]; [| discriminate Hi].
    cbn in Hi. injection Hi as <-. cbn [generatedSlide Slide.id newSlide].
    intros E. apply (inj Some) in E. now apply generatedId_not_added in E.
Qed.

Lemma generated_ids_distinct_witness :
  Slide.id (generatedSlide BackgroundNone defaultTheme 1 1700000000000 ""
              (mkSlideData "Body" ["b"] "abstract"))
  <> Slide.id (newSlide 1700000000000).
Proof.
  refine (proj2 (proj2 (generated_ids_distinct BackgroundNone defaultTheme
                          (fun _ => 1700000000000) (fun _ => "")
                          [mkSlideData "Intro" ["a"] "abstract";
                           mkSlideData "Body" ["b"] "abstract"])) _ 1700000000000 _).
  vm_compute. tauto.
Defined.

(** The picture source made of a base64 payload is drawn as an image and
    exported as a picture. *)
Lemma aiImageSrc_static (b64 : string) :
  JS.allChars isBase64Char b64 = true ->
  SlideBackground (aiImageSrc b64) = BgImg (aiImageSrc b64)
  /\ handleExport_background (aiImageSrc b64) = Some (BackgroundPath (aiImageSrc b64)).
Proof.
  intros H64. set (src := aiImageSrc b64).
  assert (Hsrc : JS.allChars aiSrcChar src = true).
  { subst src. unfold aiImageSrc. rewrite allChars_app. apply andb_true_iff.
    split; [reflexivity |].
    apply (allChars_impl isBase64Char); [| exact H64].
    intros c Hc. unfold aiSrcChar, isBase64Char in *. now rewrite Hc. }
  assert (Hext : forall ext, JS.allChars aiSrcChar ext = false ->
                             JS.endsWith ext src = false).
  { intros ext Hext. destruct (JS.endsWith ext src) eqn:E; [| reflexivity].
    apply endsWith_suffix in E as [pre E].
    rewrite E, allChars_app in Hsrc. apply andb_true_iff in Hsrc as [_ Hsrc].
    congruence. }
  assert (Hv : isVideo src = false).
  { unfold isVideo. change (JS.startsWith "data:video" src) with false.
    rewrite (Hext ".mp4" eq_refl), (Hext ".webm" eq_refl). reflexivity. }
  split; [| reflexivity].
  unfold SlideBackground, isColor.
  change (JS.startsWith "#" src) with false.
  change (JS.startsWith "linear-gradient" src) with false. cbn [orb]. now rewrite Hv.
Qed.

(** X22. The background of a generated slide. Without a background mode,
    or when the image call gave nothing (as it does whenever its request
    fails), the slide gets the background colour of the theme. In the AI
    mode, a base64 payload gives the slide the source
    [data:image/jpeg;base64,<payload>], which the preview draws as an image
    and the export inserts as a picture. *)
Theorem generated_background (mode : BackgroundMode) (theme : Theme.t)
    (index : nat) (now : Z) (image : string) (slideData : SlideData) :
  let slide := generatedSlide mode theme index now image slideData in
  ((mode = BackgroundNone \/ image = "") ->
   Slide.backgroundImage slide = Some (Theme.background (Theme.colors theme)))
  /\ (mode = BackgroundAi -> image <> "" -> JS.allChars isBase64Char image = true ->
      Slide.backgroundImage slide = Some (aiImageSrc image)
      /\ SlideBackground (aiImageSrc image) = BgImg (aiImageSrc image)
      /\ exportSlideBackground slide = Some (Some (BackgroundPath (aiImageSrc image))))
  /\ (forall query reply,
        refineFailed reply = true ->
        generateImageFromPrompt query reply = Some ""
        /\ findWebImage query reply = Some "").
Proof.
  cbn zeta. split; [| split].
  - intros [-> | ->]; [reflexivity |]. now destruct mode.
  - intros -> Hne H64. cbn [generatedSlide Slide.backgroundImage generatedBackground].
    unfold exportSlideBackground. cbn [generatedSlide Slide.backgroundImage generatedBackground].
    destruct (String.eqb_spec image "") as [E|_]; [congruence |].
    destruct (aiImageSrc_static image H64) as [Hpre Hexp].
    split; [reflexivity |]. split; [exact Hpre |].
    cbn [fmap option_fmap option_map]. now f_equal.
  - intros query reply Hf.
    destruct reply as [m | d t | m | | c]; try discriminate; split; reflexivity.
Qed.

Lemma generated_background_witness :
  Slide.backgroundImage
    (generatedSlide BackgroundAi defaultTheme 0 1700000000000
       (default "?" (generateImageFromPrompt "abstract" (HttpNotOk None "Bad Gateway")))
       (mkSlideData "Intro" ["a"] "abstract"))
  = Some "#FFFFFF"
  /\ exportSlideBackground
       (generatedSlide BackgroundAi defaultTheme 0 1700000000000 "AAAA"
          (mkSlideData "Intro" ["a"] "abstract"))
     = Some (Some (BackgroundPath "data:image/jpeg;base64,AAAA")).
Proof.
  split.
  - rewrite (proj1 (proj2 (proj2 (generated_background BackgroundAi defaultTheme 0 0 "" 
                                    (mkSlideData "" [] "")))
                      "abstract" (HttpNotOk None "Bad Gateway") eq_refl)).
    exact (proj1 (generated_background BackgroundAi defaultTheme 0 1700000000000 ""
                    (mkSlideData "Intro" ["a"] "abstract")) (or_intror eq_refl)).
  - destruct (proj1 (proj2 (generated_background BackgroundAi defaultTheme 0 1700000000000
                              "AAAA" (mkSlideData "Intro" ["a"] "abstract")))
                eq_refl ltac:(discriminate) eq_refl) as (_ & _ & H).
    exact H.
Defined.

(** ** The application shell *)

(** X23. What the user sees after logging in and out. From a state
    without a user, [login] sets the user and the dashboard is rendered,
    although the page cell is set to the login page; navigating to the home
    page after it renders the home page. From a state with a user, [logout]
    clears the user, the list and the current presentation, and the login
    page is rendered, although the page cell is set to the dashboard. *)
Theorem login_logout_views (st : App.State) (u : User.t) :
  (App.user st = None ->
   let st' := App.login u st in
   App.user st' = Some u
   /\ App.renderPage st' = App.DashboardView
   /\ App.page st' = App.Login
   /\ App.currentPresentation st' = None
   /\ App.presentations st' = App.presentations st
   /\ App.renderPage (App.navigateTo App.Home st') = App.HomeView
   /\ App.renderPage (App.navigateTo App.Login st') = App.DashboardView)
  /\ (App.user st <> None ->
      let st' := App.logout st in
      App.user st' = None
      /\ App.renderPage st' = App.LoginView
      /\ App.page st' = App.Dashboard
      /\ App.currentPresentation st' = None
      /\ App.presentations st' = []
      /\ App.renderPage (App.navigateTo App.Home st') = App.LoginView
      /\ App.renderPage (App.navigateTo App.SignUp st') = App.SignUpView).
Proof.
  split.
  - intros Hu. unfold App.login. rewrite Hu. repeat split.
  - intros Hu. unfold App.logout. destruct (App.user st) as [v|]; [| congruence].
    repeat split.
Qed.

Lemma login_logout_views_witness :
  App.renderPage (App.login sampleUser loggedOut) = App.DashboardView
  /\ App.renderPage (App.logout loggedIn) = App.LoginView.
Proof.
  split.
  - destruct (proj1 (login_logout_views loggedOut sampleUser) eq_refl) as (_ & H & _).
    exact H.
  - destruct (proj2 (login_logout_views loggedIn sampleUser) ltac:(discriminate))
      as (_ & H & _).
    exact H.
Defined.

(** X24. [navigateTo] keeps the page cell in line with the session and
    [login] and [logout] do not: after [navigateTo] the page is an auth
    page exactly when there is no user, and the current presentation is
    kept only on the way to the editor; after [login] from a state without
    a user, and after [logout] from a state with one, the page cell names a
    page of the other kind. *)
Theorem navigation_route_consistency (newPage : App.Page) (st : App.State) (u : User.t) :
  routeConsistent (App.navigateTo newPage st) = true
  /\ App.user (App.navigateTo newPage st) = App.user st
  /\ App.presentations (App.navigateTo newPage st) = App.presentations st
  /\ App.currentPresentation (App.navigateTo newPage st)
     = match newPage with
       | App.Editor => App.currentPresentation st
       | _ => None
       end
  /\ (App.user st = None -> routeConsistent (App.login u st) = false)
  /\ (App.user st <> None -> routeConsistent (App.logout st) = false).
Proof.
  unfold App.navigateTo, App.login, App.logout, routeConsistent.
  destruct (App.user st) as [v|] eqn:Hu, newPage; cbn; rewrite ?Hu;
    repeat split; intros; congruence.
Qed.

Lemma navigation_route_consistency_witness :
  routeConsistent (App.login sampleUser loggedOut) = false
  /\ routeConsistent (App.logout loggedIn) = false.
Proof.
  destruct (navigation_route_consistency App.Home loggedOut sampleUser)
    as (_ & _ & _ & _ & H & _).
  destruct (navigation_route_consistency App.Home loggedIn sampleUser)
    as (_ & _ & _ & _ & _ & H').
  split; [exact (H eq_refl) | exact (H' ltac:(discriminate))].
Defined.

Lemma updatePresentation_presentations (u : Presentation.t) (st : App.State) :
  App.presentations (App.updatePresentation u st)
  = List.map (fun p => if String.eqb (Presentation.id p) (Presentation.id u) then u else p)
             (App.presentations st).
Proof.
  unfold App.updatePresentation. destruct (App.currentPresentation st) as [cp|] eqn:Hc;
    [destruct (String.eqb _ _) eqn:E |]; cbn; rewrite ?Hc; cbn; rewrite ?E; reflexivity.
Qed.

Lemma updatePresentation_current (u : Presentation.t) (st : App.State) :
  App.currentPresentation (App.updatePresentation u st)
  = (fun cp => if String.eqb (Presentation.id cp) (Presentation.id u) then u else cp)
      <$> App.currentPresentation st.
Proof.
  unfold App.updatePresentation. destruct (App.currentPresentation st) as [cp|] eqn:Hc;
    [destruct (String.eqb _ _) eqn:E |]; cbn; rewrite ?Hc; cbn; rewrite ?E; reflexivity.
Qed.

Lemma updatePresentation_frame (u : Presentation.t) (st : App.State) :
  App.page (App.updatePresentation u st) = App.page st
  /\ App.user (App.updatePresentation u st) = App.user st
  /\ App.apiKeyError (App.updatePresentation u st) = App.apiKeyError st.
Proof.
  unfold App.updatePresentation. destruct (App.currentPresentation st) as [cp|];
    [destruct (String.eqb _ _) |]; repeat split.
Qed.

Lemma App_State_eq (a b : App.State) :
  App.apiKeyError a = App.apiKeyError b -> App.page a = App.page b ->
  App.user a = App.user b -> App.presentations a = App.presentations b ->
  App.currentPresentation a = App.currentPresentation b -> a = b.
Proof. destruct a, b. cbn. now intros -> -> -> -> ->. Qed.

(** X25. [updatePresentation] replaces by id and nothing else: the list
    keeps its length and the ids in their order, every entry with the id of
    the update becomes the update and every other entry stays; the current
    presentation becomes the update exactly when it has that id; page and
    user stay; and a second call with the same update changes nothing. *)
Theorem update_presentation_spec (u : Presentation.t) (st : App.State) :
  let st' := App.updatePresentation u st in
  (Presentation.id <$> App.presentations st') = (Presentation.id <$> App.presentations st)
  /\ (forall i p, App.presentations st !! i = Some p ->
        App.presentations st' !! i
        = Some (if String.eqb (Presentation.id p) (Presentation.id u) then u else p))
  /\ (forall cp, App.currentPresentation st = Some cp ->
        App.currentPresentation st'
        = Some (if String.eqb (Presentation.id cp) (Presentation.id u) then u else cp))
  /\ (App.currentPresentation st = None -> App.currentPresentation st' = None)
  /\ App.page st' = App.page st
  /\ App.user st' = App.user st
  /\ App.updatePresentation u st' = st'.
Proof.
  cbn zeta.
  pose proof (updatePresentation_presentations u st) as Hl.
  pose proof (updatePresentation_current u st) as Hc.
  destruct (updatePresentation_frame u st) as (Hpage & Huser & Hkey).
  assert (Hids : forall l : list Presentation.t,
             Presentation.id
               <$> List.map (fun p => if String.eqb (Presentation.id p) (Presentation.id u)
                                      then u else p) l
             = Presentation.id <$> l).
  { induction l as [|q l IH]; [reflexivity |]. cbn. cbn in IH. rewrite IH. f_equal.
    destruct (String.eqb_spec (Presentation.id q) (Presentation.id u)); congruence. }
  assert (Hidem : forall l : list Presentation.t,
             let f := fun p => if String.eqb (Presentation.id p) (Presentation.id u)
                               then u else p in
             List.map f (List.map f l) = List.map f l).
  { intros l f. rewrite List.map_map. apply List.map_ext. intros q. unfold f.
    destruct (String.eqb_spec (Presentation.id q) (Presentation.id u)) as [E|E].
    - now rewrite String.eqb_refl.
    - destruct (String.eqb_spec (Presentation.id q) (Presentation.id u)); congruence. }
  split; [rewrite Hl; apply Hids |].
  split.
  { intros i p Hi. rewrite Hl.
    change (List.map ?f ?l) with (f <$> l). now rewrite list_lookup_fmap, Hi. }
  split; [intros cp Hcp; now rewrite Hc, Hcp |].
  split; [intros Hcp; now rewrite Hc, Hcp |].
  split; [exact Hpage |]. split; [exact Huser |].
  destruct (updatePresentation_frame u (App.updatePresentation u st)) as (Hp2 & Hu2 & Hk2).
  apply App_State_eq; try assumption.
  - rewrite updatePresentation_presentations, Hl. apply Hidem.
  - rewrite updatePresentation_current, Hc.
    destruct (App.currentPresentation st) as [cp|]; [| reflexivity]. cbn. f_equal.
    destruct (String.eqb_spec (Presentation.id cp) (Presentation.id u)) as [E|E].
    + now rewrite String.eqb_refl.
    + destruct (String.eqb_spec (Presentation.id cp) (Presentation.id u)); congruence.
Qed.

Lemma update_presentation_spec_witness :
  App.currentPresentation
    (App.updatePresentation (samplePresentation [JS.Elem slideB])
       (App.setCurrentPresentation (Some (samplePresentation [JS.Elem slideA])) loggedIn))
  = Some (samplePresentation [JS.Elem slideB]).
Proof.
  exact (proj1 (proj2 (proj2 (update_presentation_spec
                                (samplePresentation [JS.Elem slideB])
                                (App.setCurrentPresentation
                                   (Some (samplePresentation [JS.Elem slideA])) loggedIn))))
           _ eq_refl).
Defined.

(** ** The editor and the application shell *)

(** A snapshot that [setPresentation] installs for a copy of [p] with
    other slides is a copy of [p] with other slides. *)
Lemma setPresentation_withSlides (p : Presentation.t) (newSlides : list (JS.Slot Slide.t))
    (st : EditorState) :
  exists slides',
    presentation (setPresentation (Some (Presentation.withSlides p newSlides)) st)
    = Some (Presentation.withSlides p slides').
Proof.
  pose proof (setPresentation_normalize (Some (Presentation.withSlides p newSlides)) st) as E.
  destruct (presentation (setPresentation (Some (Presentation.withSlides p newSlides)) st))
    as [p'|]; [| discriminate E].
  exists (Presentation.slides p'). f_equal.
  unfold normalize in E. cbn [fmap option_fmap option_map] in E.
  apply (inj Some) in E. destruct p', p. cbn in *. injection E as -> -> -> _ -> -> -> ->.
  reflexivity.
Qed.

Lemma applyMutation_withSlides (m : Mutation) (st : EditorState) (p : Presentation.t) :
  presentation st = Some p ->
  exists slides',
    presentation (applyMutation m st) = Some (Presentation.withSlides p slides').
Proof.
  intros Hp.
  assert (Hsame : exists slides',
             presentation st = Some (Presentation.withSlides p slides')).
  { exists (Presentation.slides p). now rewrite withSlides_slides. }
  destruct m as [updates | direction | index | now]; cbn [applyMutation].
  - unfold updateSlide. rewrite Hp. apply setPresentation_withSlides.
  - unfold handleMoveSlide. rewrite Hp. destruct direction.
    + destruct (0 <? selectedSlideIndex st); [| exact Hsame].
      rewrite presentation_setSelectedSlideIndex. apply setPresentation_withSlides.
    + destruct (selectedSlideIndex st <? _); [| exact Hsame].
      rewrite presentation_setSelectedSlideIndex. apply setPresentation_withSlides.
  - unfold handleDeleteSlide. rewrite Hp.
    destruct (Z.leb_spec (Z.of_nat (length (Presentation.slides p))) 1).
    + rewrite presentation_setToastMessage. exact Hsame.
    + rewrite presentation_setToastMessage, presentation_setSelectedSlideIndex.
      apply setPresentation_withSlides.
  - unfold addSlide. rewrite Hp, presentation_setSelectedSlideIndex.
    apply setPresentation_withSlides.
Qed.

(** X26. The slide-mutation operations change the slides and nothing else
    of the presentation: after update, reorder, delete or add, the present
    snapshot is a presentation with the same id, owner, topic, theme and
    branding as before. *)
Theorem mutation_changes_slides_only (m : Mutation) (st : EditorState) (p : Presentation.t) :
  presentation st = Some p ->
  exists p',
    presentation (applyMutation m st) = Some p'
    /\ p' = Presentation.withSlides p (Presentation.slides p')
    /\ Presentation.id p' = Presentation.id p
    /\ Presentation.userId p' = Presentation.userId p
    /\ Presentation.topic p' = Presentation.topic p
    /\ Presentation.theme p' = Presentation.theme p
    /\ Presentation.subTitle p' = Presentation.subTitle p
    /\ Presentation.companyLogo p' = Presentation.companyLogo p
    /\ Presentation.companyWebsite p' = Presentation.companyWebsite p.
Proof.
  intros Hp. destruct (applyMutation_withSlides m st p Hp) as [slides' E].
  exists (Presentation.withSlides p slides'). split; [exact E |]. repeat split.
Qed.

Lemma mutation_changes_slides_only_witness :
  exists p',
    presentation (applyMutation (AddSlide 1700000000000) editor1) = Some p'
    /\ Presentation.id p' = "pres-1"
    /\ Presentation.theme p' = defaultTheme.
Proof.
  destruct (mutation_changes_slides_only (AddSlide 1700000000000) editor1
              (samplePresentation [JS.Elem slideA]) eq_refl)
    as (p' & E & _ & Hid & _ & _ & Hth & _).
  exists p'. split; [exact E |]. split; [exact Hid | exact Hth].
Defined.

(** X27. The editor hands its changes to the application: when the
    editor's presentation has the id of the application's current
    presentation, then after any slide-mutation operation followed by the
    sync effect the current presentation is the editor's present snapshot,
    the list has the same ids in the same order, every entry with that id
    is the snapshot, and page and user are as before. *)
Theorem editor_sync (m : Mutation) (es : EditorState) (st : App.State)
    (p cp : Presentation.t) :
  presentation es = Some p ->
  App.currentPresentation st = Some cp ->
  Presentation.id cp = Presentation.id p ->
  let es' := applyMutation m es in
  let st' := syncEffect es' st in
  exists p',
    presentation es' = Some p'
    /\ Presentation.id p' = Presentation.id p
    /\ App.currentPresentation st' = Some p'
    /\ (Presentation.id <$> App.presentations st') = (Presentation.id <$> App.presentations st)
    /\ (forall q, In q (App.presentations st') ->
                  Presentation.id q = Presentation.id p -> q = p')
    /\ App.page st' = App.page st
    /\ App.user st' = App.user st.
Proof.
  intros Hp Hcp Hid es' st'.
  destruct (applyMutation_withSlides m es p Hp) as [slides' E].
  set (p' := Presentation.withSlides p slides') in *.
  exists p'. split; [exact E |]. split; [reflexivity |].
  subst st' es'. unfold syncEffect. rewrite E.
  destruct (updatePresentation_frame p' st) as (Hpage & Huser & _).
  split.
  { rewrite updatePresentation_current, Hcp. cbn [fmap option_fmap option_map].
    change (Presentation.id p') with (Presentation.id p).
    now rewrite Hid, String.eqb_refl. }
  rewrite updatePresentation_presentations.
  split.
  { assert (Hid' : Presentation.id p' = Presentation.id p) by reflexivity.
    induction (App.presentations st) as [|q l IH]; [reflexivity |].
    cbn [List.map fmap list_fmap]. cbn [List.map fmap list_fmap] in IH.
    rewrite IH. f_equal.
    destruct (String.eqb_spec (Presentation.id q) (Presentation.id p')); congruence. }
  split; [| split; [exact Hpage | exact Huser]].
  intros q Hq Hqid. apply in_map_iff in Hq as (q0 & Hq0 & _).
  change (Presentation.id p') with (Presentation.id p) in Hq0.
  destruct (String.eqb_spec (Presentation.id q0) (Presentation.id p)) as [_|Hne];
    [congruence |].
  subst q0. contradiction.
Qed.

Lemma editor_sync_witness :
  exists p',
    presentation (applyMutation (AddSlide 1700000000000) editor1) = Some p'
    /\ App.currentPresentation
         (syncEffect (applyMutation (AddSlide 1700000000000) editor1)
            (App.setCurrentPresentation (Some (samplePresentation [JS.Elem slideA]))
               loggedIn))
       = Some p'.
Proof.
  destruct (editor_sync (AddSlide 1700000000000) editor1
              (App.setCurrentPresentation (Some (samplePresentation [JS.Elem slideA]))
                 loggedIn)
              (samplePresentation [JS.Elem slideA]) (samplePresentation [JS.Elem slideA])
              eq_refl eq_refl eq_refl)
    as (p' & E & _ & Hc & _).
  exists p'. split; [exact E | exact Hc].
Defined.

Lemma find_first {A} (f : A -> bool) (l : list A) (i : nat) (x : A) :
  l !! i = Some x -> f x = true ->
  (forall j y, (j < i)%nat -> l !! j = Some y -> f y = false) ->
  List.find f l = Some x.
Proof.
  revert i. induction l as [|a l IH]; intros i Hi Hx Hbefore; [discriminate Hi |].
  destruct i as [|i].
  - injection Hi as ->. cbn. now rewrite Hx.
  - cbn. rewrite (Hbefore 0%nat a ltac:(lia) eq_refl).
    apply (IH i Hi Hx). intros j y Hj Hy. apply (Hbefore (S j) y ltac:(lia) Hy).
Qed.

Lemma find_none {A} (f : A -> bool) (l : list A) :
  (forall y, In y l -> f y = false) -> List.find f l = None.
Proof.
  induction l as [|a l IH]; intros H; [reflexivity |].
  cbn. rewrite (H a (or_introl eq_refl)). apply IH. intros y Hy. apply H. now right.
Qed.

(** X28. Opening a presentation from the dashboard. With a user logged
    in, [setCurrentPresentationById] with the id of a listed presentation
    (not the empty text, and the first of the list with that id) makes it
    the current presentation and the editor is rendered; with an id that no
    listed presentation has, nothing changes; with [null] or the empty id,
    there is no current presentation and the dashboard is rendered. *)
Theorem open_presentation_by_id (st : App.State) (i : nat) (p : Presentation.t) :
  App.user st <> None ->
  App.presentations st !! i = Some p ->
  Presentation.id p <> "" ->
  (forall j q, (j < i)%nat -> App.presentations st !! j = Some q ->
               Presentation.id q <> Presentation.id p) ->
  (let st' := App.setCurrentPresentationById (Some (Presentation.id p)) st in
   App.currentPresentation st' = Some p
   /\ App.renderPage st' = App.EditorView
   /\ App.presentations st' = App.presentations st)
  /\ (forall id, id <> "" ->
        (forall q, In q (App.presentations st) -> Presentation.id q <> id) ->
        App.setCurrentPresentationById (Some id) st = st)
  /\ (forall id, id = None \/ id = Some "" ->
        App.currentPresentation (App.setCurrentPresentationById id st) = None
        /\ App.renderPage (App.setCurrentPresentationById id st) = App.DashboardView).
Proof.
  intros Hu Hi Hne Hfirst.
  destruct (App.user st) as [u|] eqn:Huser; [clear Hu | congruence].
  split; [| split].
  - cbn zeta. unfold App.setCurrentPresentationById.
    destruct (String.eqb_spec (Presentation.id p) "") as [E|_]; [congruence |].
    unfold App.findById.
    rewrite (find_first _ _ i p Hi (String.eqb_refl _)).
    + rewrite Huser. unfold App.renderPage. cbn. rewrite Huser. repeat split.
    + intros j q Hj Hq. apply String.eqb_neq. now apply (Hfirst j q).
  - intros id Hid Hnone. unfold App.setCurrentPresentationById.
    destruct (String.eqb_spec id "") as [E|_]; [congruence |].
    unfold App.findById. rewrite find_none; [reflexivity |].
    intros q Hq. apply String.eqb_neq. now apply Hnone.
  - intros id [-> | ->]; unfold App.setCurrentPresentationById, App.navigateTo, App.renderPage;
      cbn; rewrite Huser; cbn; rewrite ?Huser; split; reflexivity.
Qed.

Lemma open_presentation_by_id_witness :
  App.renderPage (App.setCurrentPresentationById (Some "pres-1") loggedIn) = App.EditorView
  /\ App.setCurrentPresentationById (Some "pres-2") loggedIn = loggedIn.
Proof.
  destruct (open_presentation_by_id loggedIn 0 (samplePresentation [JS.Elem slideA])
              ltac:(discriminate) eq_refl ltac:(discriminate)
              ltac:(intros j q Hj; exfalso; lia))
    as ((_ & Hview & _) & Hunknown & _).
  split; [exact Hview |].
  apply Hunknown; [discriminate |].
  intros q [<- | []]. discriminate.
Defined.

(** ** The sign-up and login forms *)

Lemma orElse_nonempty (x : option string) (fallback : string) :
  fallback <> "" -> orElse x fallback <> "".
Proof.
  intros Hf. destruct x as [s|]; cbn; [| exact Hf].
  destruct (String.eqb_spec s ""); [exact Hf | assumption].
Qed.

Lemma submitRequest_outcome (fallback : string) (reply : AuthReply)
    (f : FormState) (app : App.State) :
  fallback <> "" ->
  let r := submitRequest fallback reply (f, app) in
  formLoading (fst r) = false
  /\ match reply with
     | AuthOk userData => snd r = App.login userData app /\ formError (fst r) = ""
     | _ => snd r = app /\ formError (fst r) <> ""
     end.
Proof.
  intros Hf. destruct reply as [| userData | | detail |]; cbn;
    (split; [reflexivity |]); split; try reflexivity; try discriminate.
  now apply orElse_nonempty.
Qed.

(** X29. A form either logs the user in or says why not. [handleSubmit]
    of the sign-up page sends no request and sets an error when a field is
    empty or the password has fewer than six characters; the login page
    does the same when a field is empty. Otherwise the form ends not
    loading, and either the response is OK and carries a user, who is
    logged in with no error shown, or the application state is untouched
    and the error is not empty. *)
Theorem form_submit_outcome (reply : AuthReply) (f : FormState) (app : App.State) :
  let up := signUpSubmit reply (f, app) in
  let inn := loginSubmit reply (f, app) in
  ((formFullName f = "" \/ formEmail f = "" \/ (String.length (formPassword f) < 6)%nat) ->
   snd up = app /\ formError (fst up) <> "" /\ formLoading (fst up) = formLoading f)
  /\ (formFullName f <> "" -> formEmail f <> "" -> (6 <= String.length (formPassword f))%nat ->
      formLoading (fst up) = false
      /\ match reply with
         | AuthOk userData => snd up = App.login userData app /\ formError (fst up) = ""
         | _ => snd up = app /\ formError (fst up) <> ""
         end)
  /\ ((formEmail f = "" \/ formPassword f = "") ->
      snd inn = app /\ formError (fst inn) <> "" /\ formLoading (fst inn) = formLoading f)
  /\ (formEmail f <> "" -> formPassword f <> "" ->
      formLoading (fst inn) = false
      /\ match reply with
         | AuthOk userData => snd inn = App.login userData app /\ formError (fst inn) = ""
         | _ => snd inn = app /\ formError (fst inn) <> ""
         end).
Proof.
  cbn zeta. unfold signUpSubmit, loginSubmit.
  destruct (String.eqb_spec (formFullName f) "") as [En|En];
    destruct (String.eqb_spec (formEmail f) "") as [Ee|Ee];
    destruct (String.eqb_spec (formPassword f) "") as [Ep|Ep];
    destruct (Nat.ltb_spec (String.length (formPassword f)) 6) as [Hl|Hl];
    cbn [orb fst snd];
    (split; [| split; [| split]]);
    try (intros; repeat split; discriminate);
    try (intros; exfalso;
         first [congruence | lia | intuition congruence | intuition lia]);
    try (intros; apply submitRequest_outcome; discriminate).
  all: try (rewrite Ep in Hl; cbn in Hl; lia).
Qed.

Lemma form_submit_outcome_witness :
  App.renderPage
    (snd (loginSubmit (AuthOk sampleUser)
            (mkForm "" "ada@example.org" "secret" "" false, loggedOut)))
  = App.DashboardView
  /\ formError
       (fst (signUpSubmit (AuthOk sampleUser)
               (mkForm "Ada" "ada@example.org" "short" "" false, loggedOut)))
     <> "".
Proof.
  destruct (form_submit_outcome (AuthOk sampleUser)
              (mkForm "" "ada@example.org" "secret" "" false) loggedOut)
    as (_ & _ & _ & Hin).
  destruct (Hin ltac:(discriminate) ltac:(discriminate)) as (_ & -> & _).
  split; [reflexivity |].
  destruct (form_submit_outcome (AuthOk sampleUser)
              (mkForm "Ada" "ada@example.org" "short" "" false) loggedOut)
    as (Hup & _).
  destruct Hup as (_ & H & _); [right; right; cbn; lia | exact H].
Defined.
